(** * gpxshift: shifting the timestamps of a GPX document

    A shallow embedding of [gpxshift.py]: the text-level rewriter
    [shift_gpx_times], and the session object [GPXShiftApp] with its
    operations [shift_time], [toggle_display_mode], [get_shift_hours],
    [get_default_output_path] and [save_gpx].

    Python library calls made by the program ([re], [datetime], [pathlib],
    [os.path], file reads and writes) are modelled by the definitions of the
    modules [Re], [Datetime], [Pathlib] and [Os] below; exceptions are values
    of [Result].

    Characters are the 8-bit characters of [string] (code points below 256),
    on which the regular-expression class [\d] is exactly [0-9]. *)

From Stdlib Require Import String Ascii ZArith Lia List Bool PrimFloat.
From stdpp Require Import gmap strings pretty.
From Equations Require Import Equations.
Import ListNotations.

Open Scope string_scope.
Open Scope Z_scope.

(** Let [simpl] unfold a concatenation whose left side starts with a
    character. *)
#[global] Arguments String.append !s1 s2 : simpl nomatch.

(** ** Exceptions *)

Inductive exn : Type :=
| ValueError
| OverflowError
| OSError.

Inductive Result (A : Type) : Type :=
| Ok (a : A)
| Raise (e : exn).
Arguments Ok {A} a.
Arguments Raise {A} e.

Definition bind {A B : Type} (r : Result A) (k : A -> Result B) : Result B :=
  match r with
  | Ok a => k a
  | Raise e => Raise e
  end.

Notation "'let*' x ':=' r 'in' k" := (bind r (fun x => k))
  (at level 10, x name, r at level 100, k at level 200, only parsing).

(** ** Strings *)

Fixpoint all_chars (p : ascii -> bool) (s : string) : bool :=
  match s with
  | EmptyString => true
  | String c s' => p c && all_chars p s'
  end.

(** [s[n:]] *)
Fixpoint drop_chars (n : nat) (s : string) : string :=
  match n, s with
  | O, _ => s
  | S n', String _ s' => drop_chars n' s'
  | S _, EmptyString => EmptyString
  end.

(** [s[:n]] *)
Fixpoint take_chars (n : nat) (s : string) : string :=
  match n, s with
  | S n', String c s' => String c (take_chars n' s')
  | _, _ => EmptyString
  end.

Definition is_digit (c : ascii) : bool :=
  let n := nat_of_ascii c in (48 <=? n)%nat && (n <=? 57)%nat.

Definition digit_value (c : ascii) : Z := Z.of_nat (nat_of_ascii c) - 48.

(** [int(s)] on a string of decimal digits. *)
Fixpoint int_acc (acc : Z) (s : string) : Z :=
  match s with
  | EmptyString => acc
  | String c s' => int_acc (10 * acc + digit_value c) s'
  end.

Definition int_of_str (s : string) : Z := int_acc 0 s.

(** [str(n)] for an integer. *)
Definition str_of_int (n : Z) : string := pretty n.

Fixpoint zeros (n : nat) : string :=
  match n with
  | O => EmptyString
  | S n' => String "0" (zeros n')
  end.

(** ['%0<width>d' % n] for [n >= 0]: at least [width] digits, zero filled. *)
Definition zfill (width : nat) (n : Z) : string :=
  let s := str_of_int n in
  zeros (width - String.length s) ++ s.

(** ** The [re] module, for patterns that are sequences of single-character
    atoms (a literal or [\d]), which is all [GPX_TIME_PATTERN] uses. *)

Module Re.

Inductive atom : Type :=
| Lit (c : ascii)
| Digit.

Definition atom_matches (a : atom) (c : ascii) : bool :=
  match a with
  | Lit d => Ascii.eqb c d
  | Digit => is_digit c
  end.

Definition lit (s : string) : list atom := map Lit (list_ascii_of_string s).

(** [\d{n}] *)
Definition digits (n : nat) : list atom := repeat Digit n.

(** Match the atoms at the start of [s]: the matched text and what follows. *)
Fixpoint match_atoms (p : list atom) (s : string) : option (string * string) :=
  match p with
  | [] => Some (EmptyString, s)
  | a :: p' =>
      match s with
      | EmptyString => None
      | String c s' =>
          if atom_matches a c then
            match match_atoms p' s' with
            | Some (m, rest) => Some (String c m, rest)
            | None => None
            end
          else None
      end
  end.

(** A pattern of three parenthesised groups, as [(g1)(g2)(g3)]. *)
Definition pattern : Type := (list atom * list atom * list atom)%type.

(** The groups 1, 2 and 3 of a match. *)
Definition groups : Type := (string * string * string)%type.

(** [pattern.match(s)]: the groups, and the text after the match. *)
Definition match_at (p : pattern) (s : string) : option (groups * string) :=
  let '(p1, p2, p3) := p in
  match match_atoms p1 s with
  | None => None
  | Some (g1, r1) =>
      match match_atoms p2 r1 with
      | None => None
      | Some (g2, r2) =>
          match match_atoms p3 r2 with
          | None => None
          | Some (g3, r3) => Some ((g1, g2, g3), r3)
          end
      end
  end.

Definition pattern_length (p : pattern) : nat :=
  let '(p1, p2, p3) := p in (length p1 + length p2 + length p3)%nat.

Lemma match_atoms_length p s m rest :
  match_atoms p s = Some (m, rest) ->
  String.length s = (length p + String.length rest)%nat /\
  String.length m = length p.
Proof.
  revert s m rest. induction p as [|a p IH]; intros s m rest H; simpl in H.
  - inversion H; subst. simpl. lia.
  - destruct s as [|c s]; [discriminate|].
    destruct (atom_matches a c); [|discriminate].
    destruct (match_atoms p s) as [[m' r']|] eqn:E; [|discriminate].
    inversion H; subst. apply IH in E. simpl. lia.
Qed.

Lemma match_at_length p s g rest :
  match_at p s = Some (g, rest) ->
  String.length s = (pattern_length p + String.length rest)%nat.
Proof.
  destruct p as [[p1 p2] p3]. unfold match_at, pattern_length.
  destruct (match_atoms p1 s) as [[g1 r1]|] eqn:E1; [|discriminate].
  destruct (match_atoms p2 r1) as [[g2 r2]|] eqn:E2; [|discriminate].
  destruct (match_atoms p3 r2) as [[g3 r3]|] eqn:E3; [|discriminate].
  intros H; inversion H; subst.
  apply match_atoms_length in E1, E2, E3. lia.
Qed.

Definition inspect {A : Type} (a : A) : {b : A | a = b} := exist _ a eq_refl.

(** [pattern.sub(repl, s)]: scan from the left; where the pattern matches,
    call [repl] on the match and go on after it; elsewhere copy one
    character.  After an empty match the scan copies one character and
    moves on.  An exception raised by [repl] ends the scan. *)
Equations? sub (p : pattern) (repl : groups -> Result string) (s : string) :
  Result string by wf (String.length s) lt :=
sub p repl EmptyString with match_at p EmptyString := {
  | Some (g, _) := repl g
  | None := Ok EmptyString };
sub p repl (String c s') with inspect (match_at p (String c s')) := {
  | exist _ (Some (g, rest)) _ with Nat.eq_dec (pattern_length p) 0%nat := {
      | left _ :=
          let* r := repl g in
          let* out := sub p repl s' in
          Ok (r ++ String c out)
      | right _ :=
          let* r := repl g in
          let* out := sub p repl rest in
          Ok (r ++ out) }
  | exist _ None _ :=
      let* out := sub p repl s' in
      Ok (String c out) }.
Proof.
  all: try (simpl; lia).
  apply match_at_length in e. simpl in e. lia.
Qed.

(** The two unfoldings of [sub] that the proofs below use. *)
Lemma sub_nil p repl :
  pattern_length p <> 0%nat -> sub p repl EmptyString = Ok EmptyString.
Proof.
  intros Hp. rewrite sub_equation_1.
  destruct (match_at p EmptyString) as [[g r]|] eqn:E; simpl; [|reflexivity].
  apply match_at_length in E. simpl in E. lia.
Qed.

Lemma sub_cons p repl c s' :
  pattern_length p <> 0%nat ->
  sub p repl (String c s') =
  match match_at p (String c s') with
  | Some (g, rest) =>
      let* r := repl g in
      let* out := sub p repl rest in
      Ok (r ++ out)
  | None =>
      let* out := sub p repl s' in
      Ok (String c out)
  end.
Proof.
  intros Hp. rewrite sub_equation_2. unfold inspect.
  generalize (@eq_refl _ (match_at p (String c s'))).
  generalize (match_at p (String c s')) at 2 4 5 as o.
  intros [[g rest]|] e; simpl; [|reflexivity].
  destruct (Nat.eq_dec (pattern_length p) 0%nat) as [e0|e0]; simpl;
    [contradiction|reflexivity].
Qed.

End Re.

(** ** The [datetime] module: the proleptic Gregorian calendar of
    [datetime.datetime], [datetime.timedelta], and the two conversions the
    program uses, for the format ["%Y-%m-%dT%H:%M:%SZ"]. *)

Module Datetime.

Definition MINYEAR : Z := 1.
Definition MAXYEAR : Z := 9999.
(** [date.max.toordinal()] *)
Definition _MAXORDINAL : Z := 3652059.

Definition _DAYS_IN_MONTH (month : Z) : Z :=
  match month with
  | 1 => 31 | 2 => 28 | 3 => 31 | 4 => 30 | 5 => 31 | 6 => 30
  | 7 => 31 | 8 => 31 | 9 => 30 | 10 => 31 | 11 => 30 | 12 => 31
  | _ => -1
  end.

Definition _DAYS_BEFORE_MONTH (month : Z) : Z :=
  match month with
  | 1 => 0 | 2 => 31 | 3 => 59 | 4 => 90 | 5 => 120 | 6 => 151
  | 7 => 181 | 8 => 212 | 9 => 243 | 10 => 273 | 11 => 304 | 12 => 334
  | _ => -1
  end.

Definition _is_leap (year : Z) : bool :=
  (year mod 4 =? 0) && (negb (year mod 100 =? 0) || (year mod 400 =? 0)).

Definition _days_before_year (year : Z) : Z :=
  let y := year - 1 in
  y * 365 + y / 4 - y / 100 + y / 400.

Definition _days_in_month (year month : Z) : Z :=
  if (month =? 2) && _is_leap year then 29 else _DAYS_IN_MONTH month.

Definition _days_before_month (year month : Z) : Z :=
  _DAYS_BEFORE_MONTH month + (if (2 <? month) && _is_leap year then 1 else 0).

Definition _ymd2ord (year month day : Z) : Z :=
  _days_before_year year + _days_before_month year month + day.

Definition _DI400Y : Z := _days_before_year 401.
Definition _DI100Y : Z := _days_before_year 101.
Definition _DI4Y : Z := _days_before_year 5.

Definition _ord2ymd (n : Z) : Z * Z * Z :=
  let n := n - 1 in
  let n400 := n / _DI400Y in
  let n := n mod _DI400Y in
  let year := n400 * 400 + 1 in
  let n100 := n / _DI100Y in
  let n := n mod _DI100Y in
  let n4 := n / _DI4Y in
  let n := n mod _DI4Y in
  let n1 := n / 365 in
  let n := n mod 365 in
  let year := year + (n100 * 100 + n4 * 4 + n1) in
  if (n1 =? 4) || (n100 =? 4) then (year - 1, 12, 31)
  else
    let leapyear := (n1 =? 3) && (negb (n4 =? 24) || (n100 =? 3)) in
    let month := Z.shiftr (n + 50) 5 in
    let preceding :=
      _DAYS_BEFORE_MONTH month + (if (2 <? month) && leapyear then 1 else 0) in
    let '(month, preceding) :=
      if n <? preceding then
        (month - 1,
         preceding -
           (_DAYS_IN_MONTH (month - 1) +
            (if (month - 1 =? 2) && leapyear then 1 else 0)))
      else (month, preceding) in
    (year, month, n - preceding + 1).

(** A [datetime] value.  The [tzinfo] attribute is left out: the program
    only attaches UTC, which changes neither the addition of a duration
    nor the text that [strftime] renders for this format. *)
Record datetime : Type := mk_datetime {
  year : Z;
  month : Z;
  day : Z;
  hour : Z;
  minute : Z;
  second : Z;
  microsecond : Z
}.

(** The constructor [datetime(year, month, day, hour, minute, second,
    microsecond)], which checks every field. *)
Definition datetime_new (y m d H M S us : Z) : Result datetime :=
  if negb ((MINYEAR <=? y) && (y <=? MAXYEAR)) then Raise ValueError
  else if negb ((1 <=? m) && (m <=? 12)) then Raise ValueError
  else if negb ((1 <=? d) && (d <=? _days_in_month y m)) then Raise ValueError
  else if negb ((0 <=? H) && (H <=? 23)) then Raise ValueError
  else if negb ((0 <=? M) && (M <=? 59)) then Raise ValueError
  else if negb ((0 <=? S) && (S <=? 59)) then Raise ValueError
  else if negb ((0 <=? us) && (us <=? 999999)) then Raise ValueError
  else Ok (mk_datetime y m d H M S us).

Definition toordinal (dt : datetime) : Z :=
  _ymd2ord (year dt) (month dt) (day dt).

(** A [timedelta] is normalised by Python to days, seconds and
    microseconds; it is held here as its total number of microseconds,
    which determines the three. *)
Definition timedelta : Type := Z.

Definition US_PER_SECOND : Z := 1000000.
Definition US_PER_HOUR : Z := 3600 * US_PER_SECOND.
Definition US_PER_DAY : Z := 86400 * US_PER_SECOND.

Definition td_days (td : timedelta) : Z := td / US_PER_DAY.
Definition td_seconds (td : timedelta) : Z := (td mod US_PER_DAY) / US_PER_SECOND.
Definition td_microseconds (td : timedelta) : Z := td mod US_PER_SECOND.

(** [timedelta] raises [OverflowError] when the days leave
    [-999999999 .. 999999999]. *)
Definition timedelta_check (us : Z) : Result timedelta :=
  if (-999999999 <=? td_days us) && (td_days us <=? 999999999)
  then Ok us else Raise OverflowError.

(** [timedelta(hours=h)] *)
Definition timedelta_hours (h : Z) : Result timedelta :=
  timedelta_check (h * US_PER_HOUR).

(** [a + b] on durations *)
Definition timedelta_add (a b : timedelta) : Result timedelta :=
  timedelta_check (a + b).

(** [bool(td)], which is [td != timedelta(0)] *)
Definition timedelta_bool (td : timedelta) : bool := negb (td =? 0).

(** [td.total_seconds() // 3600] as an integer.  [total_seconds] is a
    float; it is exact on a duration of whole seconds (then below 2^53),
    and so is the floor division, which is the case of every duration a
    session holds.  The quotient is computed here on the integers. *)
Definition total_seconds_floordiv_3600 (td : timedelta) : Z := td / US_PER_HOUR.

(** [dt + td]: [datetime.__add__]. *)
Definition datetime_add (dt : datetime) (td : timedelta) : Result datetime :=
  let total :=
    ((toordinal dt * 86400 + hour dt * 3600 + minute dt * 60 + second dt)
       * US_PER_SECOND + microsecond dt) + td in
  let days := td_days total in
  let secs := td_seconds total in
  let hour := secs / 3600 in
  let rem := secs mod 3600 in
  let minute := rem / 60 in
  let second := rem mod 60 in
  if (0 <? days) && (days <=? _MAXORDINAL) then
    let '(y, m, d) := _ord2ymd days in
    Ok (mk_datetime y m d hour minute second (td_microseconds total))
  else Raise OverflowError.

(** The shape ["dddd-dd-ddTdd:dd:ddZ"]. *)
Definition TIMESTAMP_ATOMS : list Re.atom :=
  Re.digits 4 ++ Re.lit "-" ++ Re.digits 2 ++ Re.lit "-" ++ Re.digits 2 ++
  Re.lit "T" ++ Re.digits 2 ++ Re.lit ":" ++ Re.digits 2 ++ Re.lit ":" ++
  Re.digits 2 ++ Re.lit "Z".

Definition is_timestamp (s : string) : bool :=
  match Re.match_atoms TIMESTAMP_ATOMS s with
  | Some (_, EmptyString) => true
  | _ => false
  end.

(** [datetime.strptime(s, "%Y-%m-%dT%H:%M:%SZ")] on a text of the shape
    above, the only texts the program passes to it.  Each directive accepts
    its own range ([%m] 01..12, [%d] 01..31, [%H] 00..23, [%M] 00..59,
    [%S] 00..61); the date and time are then checked by the constructor.
    Every failure is a [ValueError]. *)
Definition strptime (s : string) : Result datetime :=
  if negb (is_timestamp s) then Raise ValueError
  else
    let Y := int_of_str (substring 0 4 s) in
    let m := int_of_str (substring 5 2 s) in
    let d := int_of_str (substring 8 2 s) in
    let H := int_of_str (substring 11 2 s) in
    let M := int_of_str (substring 14 2 s) in
    let S := int_of_str (substring 17 2 s) in
    if negb ((1 <=? m) && (m <=? 12)) then Raise ValueError
    else if negb ((1 <=? d) && (d <=? 31)) then Raise ValueError
    else if negb (H <=? 23) then Raise ValueError
    else if negb (M <=? 59) then Raise ValueError
    else if negb (S <=? 61) then Raise ValueError
    else datetime_new Y m d H M S 0.

(** [dt.strftime("%Y-%m-%dT%H:%M:%SZ")].  The directives are rendered by
    the [strftime] of the C library: with glibc, under CPython 3.11 on
    Linux, [%Y] writes the year without leading zeros (the year 999 is
    ["999"], not ["0999"]); the other fields are on two digits. *)
Definition strftime (dt : datetime) : string :=
  str_of_int (year dt) ++ "-" ++ zfill 2 (month dt) ++ "-" ++ zfill 2 (day dt) ++
  "T" ++ zfill 2 (hour dt) ++ ":" ++ zfill 2 (minute dt) ++ ":" ++
  zfill 2 (second dt) ++ "Z".

End Datetime.

Import Datetime.

(** ** The rewriter: [GPX_TIME_PATTERN] and [shift_gpx_times] *)

(** [(<time>)(\d{4}-\d{2}-\d{2}T\d{2}:\d{2}:\d{2}Z)(</time>)] *)
Definition GPX_TIME_PATTERN : Re.pattern :=
  (Re.lit "<time>", TIMESTAMP_ATOMS, Re.lit "</time>").

(** The nested function [_replace] of [shift_gpx_times]. *)
Definition _replace (shift_delta : timedelta) (m : Re.groups) : Result string :=
  let '(group1, timestamp_str, group3) := m in
  let* timestamp := strptime timestamp_str in
  let* timestamp := datetime_add timestamp shift_delta in
  Ok (group1 ++ strftime timestamp ++ group3).

Definition shift_gpx_times (gpx_text : string) (shift_delta : timedelta) :
  Result string :=
  if negb (timedelta_bool shift_delta) || (shift_delta =? 0) then Ok gpx_text
  else Re.sub GPX_TIME_PATTERN (_replace shift_delta) gpx_text.

(** ** The [pathlib] module on POSIX: a path is its root and its parts. *)

Module Pathlib.

Record Path : Type := mk_Path {
  root : string;
  tail : list string
}.

Definition slash : ascii := "/"%char.

(** [s.split("/")] *)
Fixpoint split_slash (cur : string) (s : string) : list string :=
  match s with
  | EmptyString => [cur]
  | String c s' =>
      if Ascii.eqb c slash then cur :: split_slash EmptyString s'
      else split_slash (cur ++ String c EmptyString) s'
  end.

(** [posixpath.splitroot] *)
Definition splitroot (p : string) : string * string :=
  match p with
  | String c1 p1 =>
      if Ascii.eqb c1 slash then
        match p1 with
        | String c2 p2 =>
            if Ascii.eqb c2 slash then
              match p2 with
              | String c3 _ =>
                  if Ascii.eqb c3 slash then ("/", p1) else ("//", p2)
              | EmptyString => ("//", p2)
              end
            else ("/", p1)
        | EmptyString => ("/", p1)
        end
      else (EmptyString, p)
  | EmptyString => (EmptyString, p)
  end.

Definition keep_part (x : string) : bool :=
  negb (String.eqb x EmptyString) && negb (String.eqb x ".").

(** [Path(s)] *)
Definition parse (s : string) : Path :=
  let '(r, rel) := splitroot s in
  mk_Path r (List.filter keep_part (split_slash EmptyString rel)).

Fixpoint join_slash (parts : list string) : string :=
  match parts with
  | [] => EmptyString
  | [x] => x
  | x :: rest => x ++ "/" ++ join_slash rest
  end.

(** [str(p)] *)
Definition str (p : Path) : string :=
  let s := root p ++ join_slash (tail p) in
  if String.eqb s EmptyString then "." else s.

Definition is_absolute (p : Path) : bool :=
  negb (String.eqb (root p) EmptyString).

(** [p.name] *)
Definition name (p : Path) : string := List.last (tail p) EmptyString.

(** [p.parent] *)
Definition parent (p : Path) : Path :=
  match tail p with
  | [] => p
  | _ => mk_Path (root p) (removelast (tail p))
  end.

(** [s.rfind(".")], with [None] for -1. *)
Fixpoint rfind_dot (s : string) : option nat :=
  match s with
  | EmptyString => None
  | String c s' =>
      match rfind_dot s' with
      | Some i => Some (S i)
      | None => if Ascii.eqb c "."%char then Some O else None
      end
  end.

(** The index at which the suffix starts, when the name has one:
    [0 < i < len(name) - 1]. *)
Definition suffix_index (nm : string) : option nat :=
  match rfind_dot nm with
  | Some i =>
      if (0 <? i)%nat && (i <? String.length nm - 1)%nat then Some i else None
  | None => None
  end.

(** [p.suffix] *)
Definition suffix (p : Path) : string :=
  match suffix_index (name p) with
  | Some i => drop_chars i (name p)
  | None => EmptyString
  end.

(** [p.stem] *)
Definition stem (p : Path) : string :=
  match suffix_index (name p) with
  | Some i => take_chars i (name p)
  | None => name p
  end.

Definition has_slash (s : string) : bool :=
  negb (all_chars (fun c => negb (Ascii.eqb c slash)) s).

(** [p.with_name(new_name)] *)
Definition with_name (p : Path) (new_name : string) : Result Path :=
  if String.eqb (name p) EmptyString then Raise ValueError
  else if String.eqb new_name EmptyString || has_slash new_name ||
          String.eqb new_name "."
  then Raise ValueError
  else Ok (mk_Path (root p) (removelast (tail p) ++ [new_name])).

(** [a / b] for two paths: [b] when it is absolute, else the parts of [a]
    followed by those of [b]. *)
Definition joinpath (a b : Path) : Path :=
  if is_absolute b then b else mk_Path (root a) (tail a ++ tail b).

(** [a / s] for a string [s] *)
Definition joinstr (a : Path) (s : string) : Path := joinpath a (parse s).

(** [a == b] compares the parsed paths. *)
#[global] Instance Path_eq_dec : EqDecision Path.
Proof. solve_decision. Defined.

End Pathlib.

Import Pathlib.

(** ** The operating system: environment, working directory and files *)

Module Os.

(** What the program can observe of its host.  [files] maps the text of an
    absolute path to the content of the file there; [writable] tells
    whether opening that path for writing succeeds. *)
Record World : Type := mk_World {
  environ_HOME : option string;
  getpwuid_pw_dir : option string;
  getpwnam_pw_dir : string -> option string;
  getcwd : string;
  files : gmap string string;
  writable : string -> bool
}.

(** The length of the text before the first ["/"] of [s] (all of [s] when
    it has none). *)
Fixpoint find_slash (s : string) : nat :=
  match s with
  | EmptyString => O
  | String c s' => if Ascii.eqb c slash then O else S (find_slash s')
  end.

(** [s.rstrip("/")] *)
Fixpoint rstrip_slash (s : string) : string :=
  match s with
  | EmptyString => EmptyString
  | String c s' =>
      match rstrip_slash s' with
      | EmptyString =>
          if Ascii.eqb c slash then EmptyString else String c EmptyString
      | r => String c r
      end
  end.

(** [os.path.expanduser(path)] *)
Definition expanduser (w : World) (path : string) : string :=
  match path with
  | String c rest =>
      if Ascii.eqb c "~"%char then
        let i := S (find_slash rest) in
        let userhome :=
          if Nat.eqb i 1 then
            match environ_HOME w with
            | Some h => Some h
            | None => getpwuid_pw_dir w
            end
          else getpwnam_pw_dir w (take_chars (i - 1) rest) in
        match userhome with
        | None => path
        | Some h =>
            let r := rstrip_slash h ++ drop_chars i path in
            if String.eqb r EmptyString then "/" else r
        end
      else path
  | EmptyString => path
  end.

(** [Path.cwd()] *)
Definition cwd (w : World) : Path := parse (getcwd w).

(** The file a path denotes: a relative path is taken from the working
    directory. *)
Definition file_key (w : World) (p : Path) : string := str (joinpath (cwd w) p).

(** [p.read_text()] *)
Definition read_text (p : Path) (w : World) : Result string :=
  match files w !! file_key w p with
  | Some data => Ok data
  | None => Raise OSError
  end.

(** [p.write_text(data)]: the file is replaced by [data], or the open
    fails and nothing is written.  Two things are left out: a failure after
    the open, which leaves the file truncated, and the effect of a write on
    what may be opened later (a file can be created without the permission
    to write it again), so that a property about a later write is stated
    for every [writable]. *)
Definition write_text (p : Path) (data : string) (w : World) : Result World :=
  if writable w (file_key w p) then
    Ok (mk_World (environ_HOME w) (getpwuid_pw_dir w) (getpwnam_pw_dir w)
          (getcwd w) (<[file_key w p := data]> (files w)) (writable w))
  else Raise OSError.

End Os.

Import Os.

(** ** The parsed document of [gpxpy]: the attributes the program reads *)

Module Gpx.

(** A coordinate: the parser stores a [float]; the constructors of the
    points store [latitude or 0] and [longitude or 0], the [int] 0 in place
    of a zero. *)
Inductive number : Type :=
| PyInt (n : Z)
| PyFloat (x : float).

(** [x or 0]: [x] when it is true, that is, not a zero ([0], [0.0] and
    [-0.0] are false, a NaN is true); the [int] 0 otherwise. *)
Definition or_0 (x : number) : number :=
  match x with
  | PyInt n => if n =? 0 then PyInt 0 else x
  | PyFloat f => if PrimFloat.eqb f 0%float then PyInt 0 else x
  end.

(** [GPXTrackPoint], [GPXWaypoint] and [GPXRoutePoint]: the three classes
    carry the same attributes. *)
Record GPXPoint : Type := mk_GPXPoint {
  latitude : number;
  longitude : number;
  elevation : option float;
  time : option datetime;
  point_name : option string
}.

Record GPXTrackSegment : Type := mk_GPXTrackSegment {
  segment_points : list GPXPoint
}.

Record GPXTrack : Type := mk_GPXTrack {
  track_name : option string;
  segments : list GPXTrackSegment
}.

Record GPXRoute : Type := mk_GPXRoute {
  route_name : option string;
  route_points : list GPXPoint
}.

Record GPX : Type := mk_GPX {
  creator : option string;
  version : option string;
  tracks : list GPXTrack;
  waypoints : list GPXPoint;
  routes : list GPXRoute
}.

End Gpx.

Import Gpx.

(** [for x in xs: ys.append(f(x))], stopping at the first exception. *)
Fixpoint mapM {A B : Type} (f : A -> Result B) (xs : list A) : Result (list B) :=
  match xs with
  | [] => Ok []
  | x :: xs' =>
      let* y := f x in
      let* ys := mapM f xs' in
      Ok (y :: ys)
  end.

(** ** The session: class [GPXShiftApp] *)

Record GPXShiftApp : Type := mk_GPXShiftApp {
  gpx_file_path : string;
  original_gpx_path : Path;
  original_gpx_text : string;
  original_gpx : GPX;
  current_gpx : GPX;
  time_shift : timedelta;
  display_utc : bool
}.

(** [point.time + shift_delta if point.time else None] *)
Definition shift_opt_time (t : option datetime) (shift_delta : timedelta) :
  Result (option datetime) :=
  match t with
  | Some t0 => let* t1 := datetime_add t0 shift_delta in Ok (Some t1)
  | None => Ok None
  end.

Definition _apply_shift (gpx_data : GPX) (shift_delta : timedelta) : Result GPX :=
  let* new_tracks :=
    mapM (fun track =>
      let* new_segments :=
        mapM (fun segment =>
          let* new_points :=
            mapM (fun point =>
              let* t := shift_opt_time (time point) shift_delta in
              Ok (mk_GPXPoint (or_0 (latitude point)) (or_0 (longitude point))
                    (elevation point) t None))
              (segment_points segment) in
          Ok (mk_GPXTrackSegment new_points))
          (segments track) in
      Ok (mk_GPXTrack (track_name track) new_segments))
      (tracks gpx_data) in
  let* new_waypoints :=
    mapM (fun waypoint =>
      let* t := shift_opt_time (time waypoint) shift_delta in
      Ok (mk_GPXPoint (or_0 (latitude waypoint)) (or_0 (longitude waypoint))
            (elevation waypoint) t (point_name waypoint)))
      (waypoints gpx_data) in
  let* new_routes :=
    mapM (fun route =>
      let* new_points :=
        mapM (fun point =>
          let* t := shift_opt_time (time point) shift_delta in
          Ok (mk_GPXPoint (or_0 (latitude point)) (or_0 (longitude point))
                (elevation point) t None))
          (route_points route) in
      Ok (mk_GPXRoute (route_name route) new_points))
      (routes gpx_data) in
  Ok (mk_GPX (creator gpx_data) (version gpx_data)
        new_tracks new_waypoints new_routes).

Section Session.

(** [gpxpy.parse], the parser of the [gpxpy] library. *)
Variable gpxpy_parse : string -> Result GPX.

Definition _parse_gpx_text (gpx_text : string) : Result GPX :=
  gpxpy_parse gpx_text.

(** [GPXShiftApp(gpx_file_path)] *)
Definition __init__ (gpx_file_path : string) (w : World) : Result GPXShiftApp :=
  let original_gpx_path := parse gpx_file_path in
  let* original_gpx_text := read_text original_gpx_path w in
  let* original_gpx := _parse_gpx_text original_gpx_text in
  let* current_gpx := _parse_gpx_text original_gpx_text in
  Ok (mk_GPXShiftApp gpx_file_path original_gpx_path original_gpx_text
        original_gpx current_gpx 0 false).

End Session.

(** [self.shift_time(hours)].  The method assigns [time_shift] before it
    rebuilds [current_gpx], so an exception of [_apply_shift] leaves the
    new [time_shift] in place: the session after the call is returned next
    to the outcome. *)
Definition shift_time (hours : Z) (self : GPXShiftApp) :
  Result unit * GPXShiftApp :=
  match (let* d := timedelta_hours hours in timedelta_add (time_shift self) d) with
  | Raise e => (Raise e, self)
  | Ok new_shift =>
      let self1 :=
        mk_GPXShiftApp (gpx_file_path self) (original_gpx_path self)
          (original_gpx_text self) (original_gpx self) (current_gpx self)
          new_shift (display_utc self) in
      match _apply_shift (original_gpx self1) (time_shift self1) with
      | Raise e => (Raise e, self1)
      | Ok shifted =>
          (Ok tt,
           mk_GPXShiftApp (gpx_file_path self1) (original_gpx_path self1)
             (original_gpx_text self1) (original_gpx self1) shifted
             (time_shift self1) (display_utc self1))
      end
  end.

Definition toggle_display_mode (self : GPXShiftApp) : GPXShiftApp :=
  mk_GPXShiftApp (gpx_file_path self) (original_gpx_path self)
    (original_gpx_text self) (original_gpx self) (current_gpx self)
    (time_shift self) (negb (display_utc self)).

Definition get_shift_hours (self : GPXShiftApp) : Z :=
  total_seconds_floordiv_3600 (time_shift self).

Definition get_default_output_path (self : GPXShiftApp) : Result Path :=
  let hours := get_shift_hours self in
  let sign := if 0 <=? hours then "p" else "m" in
  let suffix := "_" ++ sign ++ str_of_int (Z.abs hours) in
  let stem := Pathlib.stem (original_gpx_path self) in
  let extension := Pathlib.suffix (original_gpx_path self) in
  with_name (original_gpx_path self) (stem ++ suffix ++ extension).

(** The value of the local variable [output_path] of [save_gpx]: the
    first statement of the method, lines 133 to 142. *)
Definition save_gpx_output_path (self : GPXShiftApp)
  (output_file_path : option string) (w : World) : Result Path :=
  match output_file_path with
  | Some s =>
      if negb (String.eqb s EmptyString) then
        let candidate_path := parse (expanduser w s) in
        if is_absolute candidate_path then Ok candidate_path
        else if bool_decide (parent candidate_path = parse ".") then
          Ok (joinstr (parent (original_gpx_path self)) (name candidate_path))
        else Ok (joinpath (cwd w) candidate_path)
      else get_default_output_path self
  | None => get_default_output_path self
  end.

(** [self.save_gpx(output_file_path)]: the outcome, the session after the
    call and the host after the call. *)
Definition save_gpx (self : GPXShiftApp) (output_file_path : option string)
  (w : World) : Result Path * GPXShiftApp * World :=
  match save_gpx_output_path self output_file_path w with
  | Raise e => (Raise e, self, w)
  | Ok output_path =>
      match shift_gpx_times (original_gpx_text self) (time_shift self) with
      | Raise e => (Raise e, self, w)
      | Ok shifted_text =>
          match write_text output_path shifted_text w with
          | Raise e => (Raise e, self, w)
          | Ok w' => (Ok output_path, self, w')
          end
      end
  end.

(** The outcome of a save that an observer outside the session sees: what
    the call returns or raises, and the host after it. *)
Definition save_outcome (self : GPXShiftApp) (output_file_path : option string)
  (w : World) : Result Path * World :=
  let '(r, _, w') := save_gpx self output_file_path w in (r, w').

(** ** A sample document, host and session, used to run the model *)

Definition sample_gpx_text : string :=
  "<gpx><trk><trkseg><trkpt lat='0' lon='0'><ele>0</ele>" ++
  "<time>2025-01-01T00:00:00Z</time></trkpt></trkseg></trk></gpx>".

Definition sample_world : World :=
  mk_World (Some "/home/u") None (fun _ => None) "/work"
    (<["/tmp/x/morning_run.gpx" := sample_gpx_text]> ∅)
    (fun key => negb (String.eqb key "/readonly/out.gpx")).

(** What [gpxpy.parse] yields on the sample document: one track of one
    segment of one point. *)
Definition sample_parse (gpx_text : string) : Result GPX :=
  Ok (mk_GPX (Some "pytest") (Some "1.1")
        [mk_GPXTrack (Some "Test Track")
           [mk_GPXTrackSegment
              [mk_GPXPoint (PyFloat 0) (PyFloat 0) (Some 0%float)
                 (Some (mk_datetime 2025 1 1 0 0 0 0)) None]]]
        [] []).

Definition sample_app : GPXShiftApp :=
  mk_GPXShiftApp "/tmp/x/morning_run.gpx" (parse "/tmp/x/morning_run.gpx")
    sample_gpx_text
    (mk_GPX (Some "pytest") (Some "1.1")
        [mk_GPXTrack (Some "Test Track")
           [mk_GPXTrackSegment
              [mk_GPXPoint (PyFloat 0) (PyFloat 0) (Some 0%float)
                 (Some (mk_datetime 2025 1 1 0 0 0 0)) None]]]
        [] [])
    (mk_GPX (Some "pytest") (Some "1.1")
        [mk_GPXTrack (Some "Test Track")
           [mk_GPXTrackSegment
              [mk_GPXPoint (PyFloat 0) (PyFloat 0) (Some 0%float)
                 (Some (mk_datetime 2025 1 1 0 0 0 0)) None]]]
        [] [])
    0 false.

(** ** Definitions used to state and prove the properties *)

(** A session on the sample document under another file name, with a
    given shift. *)
Definition session_at (path : string) (shift : timedelta) : GPXShiftApp :=
  mk_GPXShiftApp path (parse path) sample_gpx_text
    (mk_GPX None None [] [] []) (mk_GPX None None [] [] []) shift false.

(** The resolution of an explicit override as the specification words it,
    on the override as given: absolute (it starts with ["/"]), it is used
    as it is; without a directory component (it holds no ["/"]), it goes to
    the directory of the source file; otherwise it is taken from the
    working directory.  To be compared with [save_gpx_output_path]. *)
Definition spec_override_path (source : Path) (w : World) (override : string) :
  Path :=
  if String.prefix "/" override then parse override
  else if negb (has_slash override) then joinstr (parent source) override
  else joinpath (cwd w) (parse override).

(** A character other than ["<"]. *)
Definition not_lt (c : ascii) : bool := negb (Ascii.eqb c "<").

(** The pattern as one sequence of atoms. *)
Definition GPX_TIME_ATOMS : list Re.atom :=
  Re.lit "<time>" ++ TIMESTAMP_ATOMS ++ Re.lit "</time>".

(** A second match cannot start inside a match: the only ["<"] inside the
    pattern is the one of [</time>], and it is followed by ["/"]. *)
Definition no_overlap_at (k : nat) : bool :=
  match nth_error GPX_TIME_ATOMS k with
  | Some a =>
      if Re.atom_matches a "<" then
        match nth_error GPX_TIME_ATOMS (S k) with
        | Some b => negb (Re.atom_matches b "t")
        | None => false
        end
      else true
  | None => true
  end.

(** The scan of [shift_gpx_times], for any replacement function. *)
Definition gpx_sub (f : Re.groups -> Result string) (s : string) : Result string :=
  Re.sub GPX_TIME_PATTERN f s.

(** Whether [zfill width n] is exactly [width] digits. *)
Definition fills (width : nat) (n : Z) : bool :=
  match Re.match_atoms (Re.digits width) (zfill width n) with
  | Some (_, EmptyString) => true
  | _ => false
  end.

(** Two texts that are the same but for the timestamps of their [<time>]
    elements of the pattern. *)
Inductive only_times_differ : string -> string -> Prop :=
| otd_end : only_times_differ EmptyString EmptyString
| otd_same (c : ascii) (s s' : string) :
    only_times_differ s s' ->
    only_times_differ (String c s) (String c s')
| otd_time (ts ts' s s' : string) :
    is_timestamp ts = true ->
    is_timestamp ts' = true ->
    only_times_differ s s' ->
    only_times_differ ("<time>" ++ ts ++ "</time>" ++ s)
                      ("<time>" ++ ts' ++ "</time>" ++ s').

(** [format_timedelta(td)].  [int(td.total_seconds())] rounds toward zero;
    [total_seconds] is a float, exact on a duration of whole seconds, which
    is the case of every duration a session holds. *)
Definition format_timedelta (td : timedelta) : string :=
  let total_seconds := Z.quot td US_PER_SECOND in
  let sign := if total_seconds <? 0 then "-" else "+" in
  let total_seconds := Z.abs total_seconds in
  let hours := total_seconds / 3600 in
  let remainder := total_seconds mod 3600 in
  let minutes := remainder / 60 in
  let seconds := remainder mod 60 in
  sign ++ zfill 2 hours ++ ":" ++ zfill 2 minutes ++ ":" ++ zfill 2 seconds.

(** The calls that the key loop of [main] makes on the session: [+] and
    [=] call [shift_time(1)], [-] and [_] call [shift_time(-1)], [t] calls
    [toggle_display_mode()]. *)
Inductive session_call : Type :=
| CallShift (hours : Z)
| CallToggle.

Definition do_call (c : session_call) (self : GPXShiftApp) :
  Result unit * GPXShiftApp :=
  match c with
  | CallShift hours => shift_time hours self
  | CallToggle => (Ok tt, toggle_display_mode self)
  end.

(** A sequence of calls; an exception ends it, as it ends [main]. *)
Fixpoint do_calls (cs : list session_call) (self : GPXShiftApp) :
  Result unit * GPXShiftApp :=
  match cs with
  | [] => (Ok tt, self)
  | c :: cs' =>
      match do_call c self with
      | (Ok _, self1) => do_calls cs' self1
      | (Raise e, self1) => (Raise e, self1)
      end
  end.

(** The sum of the hours of the [shift_time] calls of a sequence. *)
Fixpoint net_hours (cs : list session_call) : Z :=
  match cs with
  | [] => 0
  | CallShift hours :: cs' => hours + net_hours cs'
  | CallToggle :: cs' => net_hours cs'
  end.

(** The number of [toggle_display_mode] calls of a sequence. *)
Fixpoint toggles (cs : list session_call) : nat :=
  match cs with
  | [] => O
  | CallShift _ :: cs' => toggles cs'
  | CallToggle :: cs' => S (toggles cs')
  end.

(** The three loops of [_apply_shift], one function per loop body:
    [keep_name] tells whether the name of the point is copied (waypoints)
    or left at [None] (track and route points). *)
Definition shift_point (keep_name : bool) (shift_delta : timedelta)
  (point : GPXPoint) : Result GPXPoint :=
  let* t := shift_opt_time (time point) shift_delta in
  Ok (mk_GPXPoint (or_0 (latitude point)) (or_0 (longitude point))
        (elevation point) t
        (if keep_name then point_name point else None)).

Definition shift_segment (shift_delta : timedelta) (segment : GPXTrackSegment) :
  Result GPXTrackSegment :=
  let* new_points := mapM (shift_point false shift_delta) (segment_points segment) in
  Ok (mk_GPXTrackSegment new_points).

Definition shift_track (shift_delta : timedelta) (track : GPXTrack) :
  Result GPXTrack :=
  let* new_segments := mapM (shift_segment shift_delta) (segments track) in
  Ok (mk_GPXTrack (track_name track) new_segments).

Definition shift_route (shift_delta : timedelta) (route : GPXRoute) :
  Result GPXRoute :=
  let* new_points := mapM (shift_point false shift_delta) (route_points route) in
  Ok (mk_GPXRoute (route_name route) new_points).

(** All the points of a document, in the order [_apply_shift] visits them:
    track points, waypoints, route points. *)
Definition gpx_points (g : GPX) : list GPXPoint :=
  concat (map (fun track => concat (map segment_points (segments track)))
            (tracks g)) ++
  waypoints g ++
  concat (map route_points (routes g)).

(** A point and its copy by [_apply_shift]: the coordinates or 0, the same
    elevation, the time moved by the duration (no time stays no time). *)
Definition point_shifted (shift_delta : timedelta) (p p' : GPXPoint) : Prop :=
  latitude p' = or_0 (latitude p) /\ longitude p' = or_0 (longitude p) /\
  elevation p' = elevation p /\
  shift_opt_time (time p) shift_delta = Ok (time p').

(** The numbers of points of the segments of the tracks, and of the
    routes. *)
Definition gpx_shape (g : GPX) : list (list nat) * nat * list nat :=
  (map (fun track => map (fun segment => length (segment_points segment))
                       (segments track)) (tracks g),
   length (waypoints g),
   map (fun route => length (route_points route)) (routes g)).

(** The points of the tracks and of the routes, without the waypoints. *)
Definition gpx_track_route_points (g : GPX) : list GPXPoint :=
  concat (map (fun track => concat (map segment_points (segments track)))
            (tracks g)) ++
  concat (map route_points (routes g)).

(** ** The calendar, the conversions and the scan, for the properties of
    the rewriter *)

(** The second half of [_ord2ymd]: month and day from the day of the year
    (from 0) and the leap-year flag. *)
Definition _month_day (leapyear : bool) (n : Z) : Z * Z :=
  let month := Z.shiftr (n + 50) 5 in
  let preceding :=
    _DAYS_BEFORE_MONTH month + (if (2 <? month) && leapyear then 1 else 0) in
  let '(month, preceding) :=
    if n <? preceding then
      (month - 1,
       preceding -
         (_DAYS_IN_MONTH (month - 1) +
          (if (month - 1 =? 2) && leapyear then 1 else 0)))
    else (month, preceding) in
  (month, n - preceding + 1).

(** The microseconds from the start of day 0 to a date and time, and back;
    [datetime_add] is the second after the first plus the duration. *)
Definition to_microseconds (dt : datetime) : Z :=
  (toordinal dt * 86400 + hour dt * 3600 + minute dt * 60 + second dt)
    * US_PER_SECOND + microsecond dt.

Definition from_microseconds (total : Z) : Result datetime :=
  let days := td_days total in
  let secs := td_seconds total in
  let hour := secs / 3600 in
  let rem := secs mod 3600 in
  let minute := rem / 60 in
  let second := rem mod 60 in
  if (0 <? days) && (days <=? _MAXORDINAL) then
    let '(y, m, d) := _ord2ymd days in
    Ok (mk_datetime y m d hour minute second (td_microseconds total))
  else Raise OverflowError.

(** The dates and times that the constructor accepts. *)
Definition valid_datetime (dt : datetime) : Prop :=
  1 <= year dt <= 9999 /\ 1 <= month dt <= 12 /\
  1 <= day dt <= _days_in_month (year dt) (month dt) /\
  0 <= hour dt <= 23 /\ 0 <= minute dt <= 59 /\ 0 <= second dt <= 59 /\
  0 <= microsecond dt <= 999999.

(** A date and time without its microseconds: what [strftime] renders. *)
Definition whole_second (dt : datetime) : datetime :=
  mk_datetime (year dt) (month dt) (day dt) (hour dt) (minute dt) (second dt) 0.

(** The ten digits. *)
Definition digit_chars : list ascii :=
  ["0"; "1"; "2"; "3"; "4"; "5"; "6"; "7"; "8"; "9"]%char.

(** Whether [zfill width n] is [width] characters that [int] reads as
    [n]. *)
Definition zfill_reads (width : nat) (n : Z) : bool :=
  (String.length (zfill width n) =? width)%nat &&
  (int_of_str (zfill width n) =? n).

(** Whether the digits [s] are rendered again as [s]. *)
Definition reads_zfill (s : string) : bool :=
  String.eqb (zfill (String.length s) (int_of_str s)) s.

(** [pattern.findall(s)]: the groups of every match, found by the scan of
    [sub]. *)
Equations? findall (p : Re.pattern) (s : string) : list Re.groups
  by wf (String.length s) lt :=
findall p EmptyString with Re.match_at p EmptyString := {
  | Some (g, _) := [g]
  | None := [] };
findall p (String c s') with Re.inspect (Re.match_at p (String c s')) := {
  | exist _ (Some (g, rest)) _ with Nat.eq_dec (Re.pattern_length p) 0%nat := {
      | left _ := g :: findall p s'
      | right _ := g :: findall p rest }
  | exist _ None _ := findall p s' }.
Proof.
  all: try (simpl; lia).
  apply Re.match_at_length in e. simpl in e. lia.
Qed.

(** The timestamps that [GPX_TIME_PATTERN] matches in a text, in order:
    group 2 of every match. *)
Definition gpx_findall (s : string) : list string :=
  map (fun g : Re.groups => snd (fst g)) (findall GPX_TIME_PATTERN s).

(** A replacement that puts the match back. *)
Definition keep_match (m : Re.groups) : Result string :=
  let '(group1, timestamp_str, group3) := m in
  Ok (group1 ++ timestamp_str ++ group3).

(** The characters that timestamps are made of. *)
Definition timestamp_char (c : ascii) : bool :=
  is_digit c || Ascii.eqb c "-" || Ascii.eqb c "T" || Ascii.eqb c ":" ||
  Ascii.eqb c "Z".

(** Two texts that are the same but for the text of [<time>] elements:
    where the first has an element of the pattern, the second has a
    [<time>] element around timestamp characters, of any length. *)
Inductive only_time_text_differs : string -> string -> Prop :=
| ott_end : only_time_text_differs EmptyString EmptyString
| ott_same (c : ascii) (s s' : string) :
    only_time_text_differs s s' ->
    only_time_text_differs (String c s) (String c s')
| ott_time (ts ts' s s' : string) :
    is_timestamp ts = true ->
    all_chars timestamp_char ts' = true ->
    only_time_text_differs s s' ->
    only_time_text_differs ("<time>" ++ ts ++ "</time>" ++ s)
                           ("<time>" ++ ts' ++ "</time>" ++ s').

(** Whether every timestamp that the pattern matches in the text, moved by
    the duration, falls in a year of four digits (1000 or later), the
    years that every C library renders alike. *)
Definition moved_years_four_digits (gpx_text : string) (delta : timedelta) :
  bool :=
  forallb (fun ts =>
             match strptime ts with
             | Ok dt =>
                 match datetime_add dt delta with
                 | Ok dt1 => 1000 <=? year dt1
                 | Raise _ => true
                 end
             | Raise _ => true
             end)
    (gpx_findall gpx_text).

(** Whether every timestamp that the pattern matches in the text is
    written as [strftime] writes the date and time it reads as. *)
Definition timestamps_as_rendered (gpx_text : string) : bool :=
  forallb (fun ts =>
             match strptime ts with
             | Ok dt => String.eqb (strftime dt) ts
             | Raise _ => true
             end)
    (gpx_findall gpx_text).

(** Evaluate the month tables on literal months. *)
Ltac compute_tables :=
  repeat match goal with
  | |- context [_DAYS_IN_MONTH ?x] =>
      let v := eval vm_compute in (_DAYS_IN_MONTH x) in
      change (_DAYS_IN_MONTH x) with v
  | |- context [_DAYS_BEFORE_MONTH ?x] =>
      let v := eval vm_compute in (_DAYS_BEFORE_MONTH x) in
      change (_DAYS_BEFORE_MONTH x) with v
  | |- context [(?x =? 2) && ?b] =>
      let v := eval vm_compute in ((x =? 2) && b) in
      change ((x =? 2) && b) with v
  | |- context [(2 <? ?x) && ?b] =>
      let v := eval vm_compute in ((2 <? x) && b) in
      change ((2 <? x) && b) with v
  end.

(** Settle the comparisons that [lia] proves. *)
Ltac decide_leb :=
  repeat match goal with
         | |- context [?a <=? ?b] =>
             replace (a <=? b) with true by (symmetry; apply Z.leb_le; lia)
         end.

(** The number of [shift_time] calls of a sequence. *)
Fixpoint shift_calls (cs : list session_call) : nat :=
  match cs with
  | [] => O
  | CallShift _ :: cs' => S (shift_calls cs')
  | CallToggle :: cs' => shift_calls cs'
  end.

(** From here on [lia] also handles quotients and remainders by
    constants. *)
Ltac Zify.zify_post_hook ::= Z.div_mod_to_equations.

(** * Properties *)

(** ** The sample session *)

(** The sample session is the one [__init__] builds. *)
Example sample_app_is_fresh :
  __init__ sample_parse "/tmp/x/morning_run.gpx" sample_world = Ok sample_app.
Proof. vm_compute. reflexivity. Qed.

(** The end-to-end scenario of the tests: three hours forward, then save
    under the default name. *)
Example sample_shift_3_save :
  let app := snd (shift_time 3 sample_app) in
  fst (shift_time 3 sample_app) = Ok tt /\
  fst (save_outcome app None sample_world) =
    Ok (parse "/tmp/x/morning_run_p3.gpx") /\
  read_text (parse "/tmp/x/morning_run_p3.gpx")
    (snd (save_outcome app None sample_world)) =
    Ok ("<gpx><trk><trkseg><trkpt lat='0' lon='0'><ele>0</ele>" ++
        "<time>2025-01-01T03:00:00Z</time></trkpt></trkseg></trk></gpx>").
Proof. vm_compute. repeat split. Qed.


(** ** Zero shift *)

(** C3.  For every document text, the rewriter applied with the zero
    duration returns the text itself. *)
Theorem shift_gpx_times_zero (gpx_text : string) :
  shift_gpx_times gpx_text 0 = Ok gpx_text.
Proof. reflexivity. Qed.

(** ** Saving *)

Lemma file_key_write_text p data w w' q :
  write_text p data w = Ok w' -> file_key w' q = file_key w q.
Proof.
  unfold write_text. destruct (writable w (file_key w p)); [|discriminate].
  intros H; inversion H; reflexivity.
Qed.

Lemma read_text_write_text p data w w' :
  write_text p data w = Ok w' -> read_text p w' = Ok data.
Proof.
  intros H. unfold read_text. rewrite (file_key_write_text _ _ _ _ p H).
  unfold write_text in H. destruct (writable w (file_key w p)); [|discriminate].
  inversion H; subst; simpl. rewrite lookup_insert_eq. reflexivity.
Qed.

(** C1.  Whenever the output path resolves, the rewriter succeeds on the
    original text with the current shift, and the file can be opened for
    writing, [save_gpx] returns the resolved path, leaves the session as it
    was, and the file at that path holds exactly the rewriter's text; no
    other file changes.  The parsed documents of the session play no part. *)
Theorem save_gpx_writes_shifted_original_text
  (self : GPXShiftApp) (output_file_path : option string) (w : World)
  (output_path : Path) (shifted_text : string) :
  save_gpx_output_path self output_file_path w = Ok output_path ->
  shift_gpx_times (original_gpx_text self) (time_shift self) = Ok shifted_text ->
  writable w (file_key w output_path) = true ->
  exists w',
    save_gpx self output_file_path w = (Ok output_path, self, w') /\
    read_text output_path w' = Ok shifted_text /\
    files w' = <[file_key w output_path := shifted_text]> (files w).
Proof.
  intros Hpath Htext Hw.
  assert (Hwr : exists w', write_text output_path shifted_text w = Ok w').
  { unfold write_text. rewrite Hw. eexists. reflexivity. }
  destruct Hwr as [w' Hwr]. exists w'.
  unfold save_gpx. rewrite Hpath, Htext, Hwr. split; [reflexivity|].
  split; [eapply read_text_write_text; eassumption|].
  unfold write_text in Hwr. rewrite Hw in Hwr. inversion Hwr. reflexivity.
Qed.

Lemma save_gpx_writes_shifted_original_text_witness :
  exists w',
    save_gpx sample_app (Some "out.gpx") sample_world =
      (Ok (parse "/tmp/x/out.gpx"), sample_app, w') /\
    read_text (parse "/tmp/x/out.gpx") w' = Ok sample_gpx_text /\
    files w' = <[file_key sample_world (parse "/tmp/x/out.gpx") := sample_gpx_text]>
                 (files sample_world).
Proof.
  apply (save_gpx_writes_shifted_original_text sample_app (Some "out.gpx")
           sample_world (parse "/tmp/x/out.gpx") sample_gpx_text);
    vm_compute; reflexivity.
Defined.

(** C9.  A save that raises, whatever the cause, returns the session it
    was called on: original text, parsed documents, shift and display flag
    are those of before the call.  The host is unchanged as well. *)
Theorem save_gpx_failure_keeps_session
  (self : GPXShiftApp) (output_file_path : option string) (w : World)
  (e : exn) (self' : GPXShiftApp) (w' : World) :
  save_gpx self output_file_path w = (Raise e, self', w') ->
  self' = self /\ w' = w.
Proof.
  unfold save_gpx.
  destruct (save_gpx_output_path self output_file_path w) as [p|e1].
  2: { intros H; inversion H; auto. }
  destruct (shift_gpx_times (original_gpx_text self) (time_shift self)) as [t|e2].
  2: { intros H; inversion H; auto. }
  destruct (write_text p t w) as [w1|e3]; intros H; inversion H; auto.
Qed.

Lemma save_gpx_failure_keeps_session_witness :
  sample_app = sample_app /\ sample_world = sample_world.
Proof.
  apply (save_gpx_failure_keeps_session sample_app (Some "/readonly/out.gpx")
           sample_world OSError sample_app sample_world).
  vm_compute. reflexivity.
Defined.

(** ** Adjusting the shift *)

Lemma timedelta_check_ok us td : timedelta_check us = Ok td -> td = us.
Proof.
  unfold timedelta_check.
  destruct ((-999999999 <=? td_days us) && (td_days us <=? 999999999));
    intros H; inversion H; reflexivity.
Qed.

(** What a call of [shift_time] that returns has done. *)
Lemma shift_time_ok hours self self' :
  shift_time hours self = (Ok tt, self') ->
  timedelta_hours hours = Ok (hours * US_PER_HOUR) /\
  timedelta_check (time_shift self + hours * US_PER_HOUR) =
    Ok (time_shift self + hours * US_PER_HOUR) /\
  time_shift self' = time_shift self + hours * US_PER_HOUR /\
  _apply_shift (original_gpx self) (time_shift self') = Ok (current_gpx self') /\
  gpx_file_path self' = gpx_file_path self /\
  original_gpx_path self' = original_gpx_path self /\
  original_gpx_text self' = original_gpx_text self /\
  original_gpx self' = original_gpx self /\
  display_utc self' = display_utc self.
Proof.
  unfold shift_time.
  destruct (timedelta_hours hours) as [d|e] eqn:Hd; simpl; [|discriminate].
  pose proof Hd as Hd'. unfold timedelta_hours in Hd'.
  apply timedelta_check_ok in Hd'. subst d.
  unfold timedelta_add.
  destruct (timedelta_check (time_shift self + hours * US_PER_HOUR))
    as [t|e] eqn:Ht; [|discriminate].
  pose proof (timedelta_check_ok _ _ Ht) as ->. simpl.
  destruct (_apply_shift (original_gpx self)
              (time_shift self + hours * US_PER_HOUR)) as [g|e] eqn:Hg;
    [|discriminate].
  intros H; inversion H; subst; simpl. repeat split; auto.
Qed.

(** A call of [shift_time] returns as soon as its three steps succeed. *)
Lemma shift_time_returns hours self g :
  timedelta_hours hours = Ok (hours * US_PER_HOUR) ->
  timedelta_check (time_shift self + hours * US_PER_HOUR) =
    Ok (time_shift self + hours * US_PER_HOUR) ->
  _apply_shift (original_gpx self) (time_shift self + hours * US_PER_HOUR) = Ok g ->
  shift_time hours self =
    (Ok tt,
     mk_GPXShiftApp (gpx_file_path self) (original_gpx_path self)
       (original_gpx_text self) (original_gpx self) g
       (time_shift self + hours * US_PER_HOUR) (display_utc self)).
Proof.
  intros Hd Ht Hg. unfold shift_time, timedelta_add. rewrite Hd. simpl.
  rewrite Ht. simpl. rewrite Hg. reflexivity.
Qed.

(** The outcome of a save depends on the session through its source path,
    its original text and its shift only. *)
Lemma save_outcome_ext self1 self2 output_file_path w :
  original_gpx_path self1 = original_gpx_path self2 ->
  original_gpx_text self1 = original_gpx_text self2 ->
  time_shift self1 = time_shift self2 ->
  save_outcome self1 output_file_path w = save_outcome self2 output_file_path w.
Proof.
  intros Hp Ht Hs.
  unfold save_outcome, save_gpx, save_gpx_output_path, get_default_output_path,
    get_shift_hours.
  rewrite Hp, Ht, Hs.
  destruct output_file_path as [s|].
  - destruct (negb (String.eqb s EmptyString)).
    + destruct (is_absolute (parse (expanduser w s))).
      * destruct (shift_gpx_times _ _); [|reflexivity].
        destruct (write_text _ _ _); reflexivity.
      * destruct (bool_decide _);
          (destruct (shift_gpx_times _ _); [|reflexivity]);
          destruct (write_text _ _ _); reflexivity.
    + destruct (with_name _ _); [|reflexivity].
      destruct (shift_gpx_times _ _); [|reflexivity].
      destruct (write_text _ _ _); reflexivity.
  - destruct (with_name _ _); [|reflexivity].
    destruct (shift_gpx_times _ _); [|reflexivity].
    destruct (write_text _ _ _); reflexivity.
Qed.

Lemma __init___fresh gpxpy_parse path w self :
  __init__ gpxpy_parse path w = Ok self ->
  time_shift self = 0 /\ display_utc self = false /\
  gpx_file_path self = path /\ original_gpx_path self = parse path /\
  read_text (parse path) w = Ok (original_gpx_text self) /\
  gpxpy_parse (original_gpx_text self) = Ok (original_gpx self) /\
  current_gpx self = original_gpx self.
Proof.
  unfold __init__, _parse_gpx_text.
  destruct (read_text (parse path) w) as [t|e]; simpl; [|discriminate].
  destruct (gpxpy_parse t) as [g|e] eqn:Hg; simpl; [|discriminate].
  intros H; inversion H; subst; simpl. repeat split; auto.
Qed.

(** C4.  Take two fresh sessions on the same document.  If [shift_time a]
    and then [shift_time b] return on the first, then [shift_time (a + b)]
    returns on the second, and the two sessions then save the same text:
    the rewriter gives the same result on both, and a save has the same
    outcome (returned path, files written) on both. *)
Theorem shift_time_twice_saves_as_sum
  (gpxpy_parse : string -> Result GPX) (path : string) (w : World)
  (sessionA sessionB sessionA1 sessionA2 : GPXShiftApp) (a b : Z) :
  __init__ gpxpy_parse path w = Ok sessionA ->
  __init__ gpxpy_parse path w = Ok sessionB ->
  shift_time a sessionA = (Ok tt, sessionA1) ->
  shift_time b sessionA1 = (Ok tt, sessionA2) ->
  exists sessionB1,
    shift_time (a + b) sessionB = (Ok tt, sessionB1) /\
    shift_gpx_times (original_gpx_text sessionB1) (time_shift sessionB1) =
      shift_gpx_times (original_gpx_text sessionA2) (time_shift sessionA2) /\
    forall output_file_path w1,
      save_outcome sessionB1 output_file_path w1 =
        save_outcome sessionA2 output_file_path w1.
Proof.
  intros HA HB H1 H2. rewrite HA in HB. inversion HB; subst sessionB.
  apply __init___fresh in HA as (Hz & _).
  apply shift_time_ok in H1 as (_ & _ & Ht1 & _ & _ & Hp1 & Hx1 & Hg1 & _).
  apply shift_time_ok in H2 as (_ & Hc2 & Ht2 & Hg2 & _ & Hp2 & Hx2 & Ho2 & _).
  rewrite Ht1, Hz in Hc2, Ht2. rewrite Hg1 in Hg2.
  assert (Hsum : 0 + a * US_PER_HOUR + b * US_PER_HOUR = (a + b) * US_PER_HOUR)
    by lia.
  rewrite Hsum in Hc2, Ht2.
  eexists. split.
  - apply shift_time_returns with (g := current_gpx sessionA2).
    + unfold timedelta_hours. exact Hc2.
    + rewrite Hz. exact Hc2.
    + rewrite Hz. simpl. rewrite <- Ht2. exact Hg2.
  - simpl. rewrite Hz. simpl. rewrite Ht2, Hx2, Hx1. split; [reflexivity|].
    intros o w1. apply save_outcome_ext; simpl; try congruence.
    rewrite Ht2. lia.
Qed.

Lemma shift_time_twice_saves_as_sum_witness :
  exists sessionB1,
    shift_time (5 + -2) sample_app = (Ok tt, sessionB1) /\
    shift_gpx_times (original_gpx_text sessionB1) (time_shift sessionB1) =
      shift_gpx_times sample_gpx_text (3 * US_PER_HOUR) /\
    forall output_file_path w1,
      save_outcome sessionB1 output_file_path w1 =
        save_outcome (snd (shift_time (-2) (snd (shift_time 5 sample_app))))
          output_file_path w1.
Proof.
  apply (shift_time_twice_saves_as_sum sample_parse "/tmp/x/morning_run.gpx"
           sample_world sample_app sample_app
           (snd (shift_time 5 sample_app))
           (snd (shift_time (-2) (snd (shift_time 5 sample_app)))) 5 (-2));
    vm_compute; reflexivity.
Defined.

(** C5.  If [shift_time h] and then [shift_time (-h)] return on a session,
    its shift is again what it was before the two calls, and a save has
    the same outcome as a save before them. *)
Theorem shift_time_inverse_cancels
  (self self1 self2 : GPXShiftApp) (h : Z) :
  shift_time h self = (Ok tt, self1) ->
  shift_time (- h) self1 = (Ok tt, self2) ->
  time_shift self2 = time_shift self /\
  shift_gpx_times (original_gpx_text self2) (time_shift self2) =
    shift_gpx_times (original_gpx_text self) (time_shift self) /\
  forall output_file_path w,
    save_outcome self2 output_file_path w = save_outcome self output_file_path w.
Proof.
  intros H1 H2.
  apply shift_time_ok in H1 as (_ & _ & Ht1 & _ & _ & Hp1 & Hx1 & _).
  apply shift_time_ok in H2 as (_ & _ & Ht2 & _ & _ & Hp2 & Hx2 & _).
  assert (Ht : time_shift self2 = time_shift self) by (rewrite Ht2, Ht1; lia).
  split; [exact Ht|]. split; [congruence|].
  intros o w. apply save_outcome_ext; congruence.
Qed.

Lemma shift_time_inverse_cancels_witness :
  time_shift (snd (shift_time (-4) (snd (shift_time 4 sample_app)))) =
    time_shift sample_app /\
  shift_gpx_times
    (original_gpx_text (snd (shift_time (-4) (snd (shift_time 4 sample_app)))))
    (time_shift (snd (shift_time (-4) (snd (shift_time 4 sample_app))))) =
    shift_gpx_times (original_gpx_text sample_app) (time_shift sample_app) /\
  forall output_file_path w,
    save_outcome (snd (shift_time (-4) (snd (shift_time 4 sample_app))))
      output_file_path w =
    save_outcome sample_app output_file_path w.
Proof.
  apply (shift_time_inverse_cancels sample_app
           (snd (shift_time 4 sample_app))
           (snd (shift_time (-4) (snd (shift_time 4 sample_app)))) 4);
    vm_compute; reflexivity.
Defined.

(** ** Output paths *)

Lemma all_chars_app p a b :
  all_chars p (a ++ b) = all_chars p a && all_chars p b.
Proof.
  induction a as [|c a IH]; simpl; [reflexivity|].
  rewrite IH. apply andb_assoc.
Qed.

Lemma has_slash_app a b : has_slash (a ++ b) = has_slash a || has_slash b.
Proof. unfold has_slash. rewrite all_chars_app. apply negb_andb. Qed.

Lemma all_chars_take p n s : all_chars p s = true -> all_chars p (take_chars n s) = true.
Proof.
  revert s. induction n as [|n IH]; intros [|c s]; simpl; auto.
  intros H. apply andb_true_iff in H as [Hc Hs]. rewrite Hc. simpl. auto.
Qed.

Lemma all_chars_drop p n s : all_chars p s = true -> all_chars p (drop_chars n s) = true.
Proof.
  revert s. induction n as [|n IH]; intros [|c s]; simpl; auto.
  intros H. apply andb_true_iff in H as [Hc Hs]. auto.
Qed.

Lemma has_slash_false s :
  has_slash s = false <-> all_chars (fun c => negb (Ascii.eqb c slash)) s = true.
Proof. unfold has_slash. apply negb_false_iff. Qed.

Lemma split_slash_parts cur s :
  has_slash cur = false ->
  Forall (fun x => has_slash x = false) (split_slash cur s).
Proof.
  revert cur. induction s as [|c s IH]; intros cur Hcur; simpl.
  - constructor; [exact Hcur|constructor].
  - destruct (Ascii.eqb c slash) eqn:Hc.
    + constructor; [exact Hcur|]. apply IH. reflexivity.
    + apply IH. rewrite has_slash_app, Hcur. simpl.
      unfold has_slash. simpl. rewrite Hc. reflexivity.
Qed.

Lemma parse_parts s : Forall (fun x => has_slash x = false) (tail (parse s)).
Proof.
  unfold parse. destruct (splitroot s) as [r rel]. simpl.
  apply List.Forall_forall. intros x Hx. apply List.filter_In in Hx as [Hx _].
  pose proof (split_slash_parts EmptyString rel eq_refl) as H.
  rewrite List.Forall_forall in H. auto.
Qed.

Lemma last_Forall {A : Type} (P : A -> Prop) (l : list A) (d : A) :
  Forall P l -> P d -> P (List.last l d).
Proof.
  induction 1 as [|x l Hx Hl IH]; intros Hd; simpl; auto.
  destruct l; auto.
Qed.

Lemma name_parse_no_slash s : has_slash (name (parse s)) = false.
Proof.
  unfold name. apply (last_Forall (fun x => has_slash x = false)).
  - apply parse_parts.
  - reflexivity.
Qed.

Lemma stem_no_slash p : has_slash (name p) = false -> has_slash (stem p) = false.
Proof.
  intros H. unfold stem. destruct (suffix_index (name p)); [|exact H].
  apply has_slash_false. apply all_chars_take. apply has_slash_false. exact H.
Qed.

Lemma suffix_no_slash p : has_slash (name p) = false -> has_slash (suffix p) = false.
Proof.
  intros H. unfold suffix. destruct (suffix_index (name p)); [|reflexivity].
  apply has_slash_false. apply all_chars_drop. apply has_slash_false. exact H.
Qed.

(** The decimal text of a natural number is made of digits. *)
Lemma pretty_N_go_digits (x : N) (s : string) :
  all_chars is_digit s = true -> all_chars is_digit (pretty_N_go x s) = true.
Proof.
  revert s. induction (N.lt_wf_0 x) as [x _ IH]. intros s Hs.
  destruct (N.eq_dec x 0%N) as [->|Hx].
  - rewrite pretty_N_go_0. exact Hs.
  - rewrite pretty_N_go_step by lia. apply IH.
    + apply N.div_lt; lia.
    + simpl. rewrite Hs.
      assert (Hc : is_digit (pretty_N_char (x `mod` 10)%N) = true).
      { unfold pretty_N_char. repeat case_match; reflexivity. }
      rewrite Hc. reflexivity.
Qed.

Lemma str_of_int_digits (n : Z) :
  0 <= n -> all_chars is_digit (str_of_int n) = true.
Proof.
  intros Hn. unfold str_of_int, pretty, pretty_Z.
  destruct n as [|q|q]; [reflexivity| |lia].
  unfold pretty, pretty_positive, pretty, pretty_N.
  destruct (decide (N.pos q = 0%N)); [reflexivity|].
  apply pretty_N_go_digits. reflexivity.
Qed.

Lemma all_chars_impl (p q : ascii -> bool) s :
  (forall c, p c = true -> q c = true) ->
  all_chars p s = true -> all_chars q s = true.
Proof.
  intros Hpq. induction s as [|c s IH]; simpl; auto.
  intros H. apply andb_true_iff in H as [Hc Hs].
  rewrite (Hpq _ Hc). simpl. auto.
Qed.

Lemma is_digit_not_slash c : is_digit c = true -> negb (Ascii.eqb c slash) = true.
Proof.
  intros H. destruct (Ascii.eqb c slash) eqn:E; [|reflexivity].
  apply Ascii.eqb_eq in E. subst c. discriminate H.
Qed.

Lemma str_of_int_no_slash n : 0 <= n -> has_slash (str_of_int n) = false.
Proof.
  intros Hn. apply has_slash_false.
  eapply all_chars_impl; [exact is_digit_not_slash|].
  apply str_of_int_digits. exact Hn.
Qed.

Lemma append_nil_r (s : string) : s ++ EmptyString = s.
Proof. induction s as [|c s IH]; simpl; congruence. Qed.

Lemma append_assoc (a b c : string) : (a ++ b) ++ c = a ++ (b ++ c).
Proof. induction a as [|x a IH]; simpl; congruence. Qed.

Lemma length_append (a b : string) :
  String.length (a ++ b) = (String.length a + String.length b)%nat.
Proof. induction a as [|x a IH]; simpl; congruence. Qed.

Lemma split_slash_no_slash cur s :
  has_slash s = false -> split_slash cur s = [cur ++ s].
Proof.
  revert cur. induction s as [|c s IH]; intros cur H; simpl.
  - rewrite append_nil_r. reflexivity.
  - unfold has_slash in H. simpl in H. apply negb_false_iff in H.
    apply andb_true_iff in H as [Hc Hs]. apply negb_true_iff in Hc.
    rewrite Hc. rewrite IH.
    + rewrite append_assoc. reflexivity.
    + unfold has_slash. rewrite Hs. reflexivity.
Qed.

(** A name without ["/"], other than [""] and ["."], parses to the
    relative path of that one part. *)
Lemma parse_name s :
  has_slash s = false -> s <> EmptyString -> s <> "." ->
  parse s = mk_Path EmptyString [s].
Proof.
  intros Hs Hne Hdot. unfold parse.
  assert (Hr : splitroot s = (EmptyString, s)).
  { destruct s as [|c s]; [reflexivity|]. simpl.
    unfold has_slash in Hs. simpl in Hs. apply negb_false_iff in Hs.
    apply andb_true_iff in Hs as [Hc _]. apply negb_true_iff in Hc.
    rewrite Hc. reflexivity. }
  rewrite Hr. rewrite split_slash_no_slash by exact Hs. simpl.
  unfold keep_part.
  destruct (String.eqb s EmptyString) eqn:E1.
  { apply String.eqb_eq in E1. contradiction. }
  destruct (String.eqb s ".") eqn:E2.
  { apply String.eqb_eq in E2. contradiction. }
  reflexivity.
Qed.

(** C7.  For a session whose source path was parsed from its file name and
    names a file, the default output path is the directory of the source
    joined with stem, suffix and extension, where the suffix is [_p]
    followed by the hour count when the hour count (the shift divided by
    one hour, rounded down) is at least 0, and [_m] followed by its
    absolute value when it is below 0. *)
Theorem get_default_output_path_naming (self : GPXShiftApp) :
  original_gpx_path self = parse (gpx_file_path self) ->
  name (original_gpx_path self) <> EmptyString ->
  let source := original_gpx_path self in
  let hours := time_shift self / US_PER_HOUR in
  let N := str_of_int (Z.abs hours) in
  let suffix := if 0 <=? hours then "_p" ++ N else "_m" ++ N in
  get_shift_hours self = hours /\
  get_default_output_path self =
    Ok (joinstr (parent source) (stem source ++ suffix ++ Pathlib.suffix source)).
Proof.
  intros Hparse Hname source hours N suffix.
  split; [reflexivity|].
  assert (Hns : has_slash (name source) = false).
  { unfold source. rewrite Hparse. apply name_parse_no_slash. }
  assert (HN : has_slash N = false).
  { apply str_of_int_no_slash. lia. }
  assert (Hsfx : has_slash suffix = false).
  { unfold suffix. destruct (0 <=? hours); rewrite has_slash_app, HN; reflexivity. }
  set (new_name := stem source ++ suffix ++ Pathlib.suffix source).
  assert (Hnew : has_slash new_name = false).
  { unfold new_name. rewrite !has_slash_app, Hsfx.
    rewrite stem_no_slash, suffix_no_slash by exact Hns. reflexivity. }
  assert (Hlen : (2 <= String.length new_name)%nat).
  { unfold new_name. rewrite !length_append.
    assert (2 <= String.length suffix)%nat; [|lia].
    unfold suffix. destruct (0 <=? hours); rewrite length_append; simpl; lia. }
  assert (Hne : new_name <> EmptyString).
  { intros E. rewrite E in Hlen. simpl in Hlen. lia. }
  assert (Hdot : new_name <> ".").
  { intros E. rewrite E in Hlen. simpl in Hlen. lia. }
  assert (Hdef : get_default_output_path self = with_name source new_name).
  { unfold get_default_output_path, get_shift_hours, total_seconds_floordiv_3600.
    fold hours. fold N. unfold new_name, suffix, source.
    destruct (0 <=? hours); reflexivity. }
  rewrite Hdef. unfold with_name.
  destruct (String.eqb (name source) EmptyString) eqn:E0.
  { apply String.eqb_eq in E0. contradiction. }
  rewrite Hnew.
  destruct (String.eqb new_name EmptyString) eqn:E1.
  { apply String.eqb_eq in E1. contradiction. }
  destruct (String.eqb new_name ".") eqn:E2.
  { apply String.eqb_eq in E2. contradiction. }
  simpl. unfold joinstr. rewrite (parse_name new_name Hnew Hne Hdot).
  unfold joinpath, is_absolute, parent. simpl.
  destruct (tail source) as [|x l] eqn:Ht.
  { exfalso. apply Hname. unfold name. fold source. rewrite Ht. reflexivity. }
  reflexivity.
Qed.

Lemma get_default_output_path_naming_witness :
  let self := snd (shift_time 3 sample_app) in
  let source := original_gpx_path self in
  let hours := time_shift self / US_PER_HOUR in
  let N := str_of_int (Z.abs hours) in
  let suffix := if 0 <=? hours then "_p" ++ N else "_m" ++ N in
  get_shift_hours self = hours /\
  get_default_output_path self =
    Ok (joinstr (parent source) (stem source ++ suffix ++ Pathlib.suffix source)).
Proof.
  apply (get_default_output_path_naming (snd (shift_time 3 sample_app)));
    vm_compute; [reflexivity|discriminate].
Defined.

(** The two named examples: three hours forward on [morning_run.gpx], two
    hours back on [evening_run.gpx]. *)
Example default_output_path_morning_run :
  exists self,
    shift_time 3 (session_at "/data/morning_run.gpx" 0) = (Ok tt, self) /\
    get_default_output_path self = Ok (parse "/data/morning_run_p3.gpx").
Proof. eexists. split; reflexivity. Qed.

Example default_output_path_evening_run :
  exists self,
    shift_time (-2) (session_at "/data/evening_run.gpx" 0) = (Ok tt, self) /\
    get_default_output_path self = Ok (parse "/data/evening_run_m2.gpx").
Proof. eexists. split; reflexivity. Qed.

(** C8 as stated fails on an override that starts with a tilde: with
    [HOME=/home/u] and the working directory [/work], the override
    [~/out.gpx] is relative and has a directory component, so the stated
    rule sends it to [/work/~/out.gpx]; [save_gpx] expands the tilde first
    and writes [/home/u/out.gpx]. *)
Lemma save_gpx_override_tilde_counterexample :
  fst (save_outcome sample_app (Some "~/out.gpx") sample_world) =
    Ok (parse "/home/u/out.gpx") /\
  spec_override_path (original_gpx_path sample_app) sample_world "~/out.gpx" =
    parse "/work/~/out.gpx" /\
  fst (save_outcome sample_app (Some "~/out.gpx") sample_world) <>
    Ok (spec_override_path (original_gpx_path sample_app) sample_world "~/out.gpx").
Proof.
  split; [vm_compute; reflexivity|].
  split; [vm_compute; reflexivity|].
  vm_compute. discriminate.
Qed.

Lemma expanduser_no_tilde w c rest :
  c <> "~"%char -> expanduser w (String c rest) = String c rest.
Proof.
  intros Hc. unfold expanduser.
  destruct (Ascii.eqb c "~") eqn:E; [|reflexivity].
  apply Ascii.eqb_eq in E. contradiction.
Qed.

Lemma is_absolute_parse s : is_absolute (parse s) = String.prefix "/" s.
Proof.
  unfold is_absolute, parse.
  destruct s as [|c1 p1]; [reflexivity|].
  cbn [splitroot String.prefix].
  destruct (Ascii.ascii_dec "/" c1) as [<-|Hne].
  - cbn [Ascii.eqb Bool.eqb slash].
    assert (Hp : String.prefix EmptyString p1 = true) by (destruct p1; reflexivity).
    rewrite Hp.
    destruct p1 as [|c2 p2]; [reflexivity|].
    destruct (Ascii.eqb c2 slash); [|reflexivity].
    destruct p2 as [|c3 p3]; [reflexivity|].
    destruct (Ascii.eqb c3 slash); reflexivity.
  - destruct (Ascii.eqb c1 slash) eqn:E; [|reflexivity].
    apply Ascii.eqb_eq in E. subst c1. contradiction.
Qed.

(** A text without ["/"] names at most one part. *)
Lemma parse_no_slash s :
  has_slash s = false ->
  parse s = mk_Path EmptyString [s] \/
  ((s = EmptyString \/ s = ".") /\ parse s = mk_Path EmptyString []).
Proof.
  intros Hs.
  destruct (string_dec s EmptyString) as [->|Hne]; [right; split; [auto|reflexivity]|].
  destruct (string_dec s ".") as [->|Hdot]; [right; split; [auto|reflexivity]|].
  left. apply parse_name; assumption.
Qed.

(** C8, amended.  For a save with a non-empty override, the override is
    first expanded by [os.path.expanduser] and parsed, which drops its
    ["."] components and its empty components (doubled and trailing
    slashes).  The three rules as stated, read on the expanded text,
    absolute when it starts with ["/"] and without a directory component
    when it holds no ["/"], give the path of [save_gpx] whenever the text is
    absolute, or holds no ["/"], or names two parts or more.  A relative
    text that holds a ["/"] but names one part at most (["./out.gpx"],
    ["out.gpx/"]) goes to the directory of the source file, not to the
    working directory.  An override that does not start with a tilde is its
    own expansion.  The path that a save returns is the path so
    resolved. *)
Theorem save_gpx_override_path_resolution
  (self : GPXShiftApp) (override : string) (w : World) :
  override <> EmptyString ->
  ((String.prefix "/" (expanduser w override) = true \/
    has_slash (expanduser w override) = false \/
    (2 <= length (tail (parse (expanduser w override))))%nat) ->
   save_gpx_output_path self (Some override) w =
     Ok (spec_override_path (original_gpx_path self) w (expanduser w override))) /\
  (String.prefix "/" (expanduser w override) = false ->
   (length (tail (parse (expanduser w override))) <= 1)%nat ->
   save_gpx_output_path self (Some override) w =
     Ok (joinstr (parent (original_gpx_path self))
           (name (parse (expanduser w override))))) /\
  (forall c rest, override = String c rest -> c <> "~"%char ->
     expanduser w override = override) /\
  (forall p self' w',
     save_gpx self (Some override) w = (Ok p, self', w') ->
     save_gpx_output_path self (Some override) w = Ok p).
Proof.
  intros Hne.
  set (expanded := expanduser w override).
  set (source := original_gpx_path self).
  assert (Hcode : save_gpx_output_path self (Some override) w =
            if is_absolute (parse expanded) then Ok (parse expanded)
            else if bool_decide (parent (parse expanded) = parse ".") then
              Ok (joinstr (parent source) (name (parse expanded)))
            else Ok (joinpath (cwd w) (parse expanded))).
  { unfold save_gpx_output_path.
    destruct (String.eqb override EmptyString) eqn:E; [|reflexivity].
    apply String.eqb_eq in E. contradiction. }
  assert (Hone : is_absolute (parse expanded) = false ->
                 (length (tail (parse expanded)) <= 1)%nat ->
                 parent (parse expanded) = parse ".").
  { unfold is_absolute, parent. intros Hrel Hlen.
    apply negb_false_iff, String.eqb_eq in Hrel.
    destruct (parse expanded) as [r t]. cbn [root tail] in *. subst r.
    destruct t as [|x [|y t]]; [reflexivity|reflexivity|].
    cbn [length] in Hlen. lia. }
  assert (Hmany : (2 <= length (tail (parse expanded)))%nat ->
                  parent (parse expanded) <> parse ".").
  { unfold parent. intros Hlen.
    destruct (parse expanded) as [r t]. cbn [root tail] in *.
    destruct t as [|x [|y t]]; cbn [length] in Hlen; try lia.
    intros Heq. inversion Heq. }
  split; [|split; [|split]].
  - intros Hcase. rewrite Hcode. unfold spec_override_path.
    rewrite <- (is_absolute_parse expanded). fold expanded source.
    destruct (is_absolute (parse expanded)) eqn:Habs; [reflexivity|].
    destruct (has_slash expanded) eqn:Hslash; cbn [negb].
    + destruct Hcase as [Hc|[Hc|Hc]].
      { rewrite <- is_absolute_parse in Hc. fold expanded in Hc. congruence. }
      { fold expanded in Hc. congruence. }
      rewrite bool_decide_eq_false_2 by (apply Hmany; exact Hc).
      reflexivity.
    + destruct (parse_no_slash expanded Hslash) as [Hp|[Hs Hp]].
      * rewrite bool_decide_eq_true_2
          by (apply Hone; [reflexivity|rewrite Hp; cbn; lia]).
        rewrite Hp. reflexivity.
      * rewrite bool_decide_eq_true_2
          by (apply Hone; [reflexivity|rewrite Hp; cbn; lia]).
        rewrite Hp. destruct Hs as [->| ->]; reflexivity.
  - intros Hrel Hlen. rewrite Hcode.
    rewrite <- (is_absolute_parse expanded) in Hrel. rewrite Hrel.
    rewrite bool_decide_eq_true_2 by (apply Hone; assumption).
    reflexivity.
  - intros c rest -> Hc. apply expanduser_no_tilde. exact Hc.
  - intros p self' w'. unfold save_gpx.
    destruct (save_gpx_output_path self (Some override) w) as [q|e];
      [|discriminate].
    destruct (shift_gpx_times _ _); [|discriminate].
    destruct (write_text _ _ _); [|discriminate].
    intros E; inversion E; reflexivity.
Qed.

Lemma save_gpx_override_path_resolution_witness :
  ((String.prefix "/" (expanduser sample_world "sub/out.gpx") = true \/
    has_slash (expanduser sample_world "sub/out.gpx") = false \/
    (2 <= length (tail (parse (expanduser sample_world "sub/out.gpx"))))%nat) ->
   save_gpx_output_path sample_app (Some "sub/out.gpx") sample_world =
     Ok (spec_override_path (original_gpx_path sample_app) sample_world
           (expanduser sample_world "sub/out.gpx"))) /\
  (String.prefix "/" (expanduser sample_world "sub/out.gpx") = false ->
   (length (tail (parse (expanduser sample_world "sub/out.gpx"))) <= 1)%nat ->
   save_gpx_output_path sample_app (Some "sub/out.gpx") sample_world =
     Ok (joinstr (parent (original_gpx_path sample_app))
           (name (parse (expanduser sample_world "sub/out.gpx"))))) /\
  (forall c rest, "sub/out.gpx" = String c rest -> c <> "~"%char ->
     expanduser sample_world "sub/out.gpx" = "sub/out.gpx") /\
  (forall p self' w',
     save_gpx sample_app (Some "sub/out.gpx") sample_world = (Ok p, self', w') ->
     save_gpx_output_path sample_app (Some "sub/out.gpx") sample_world = Ok p).
Proof.
  apply (save_gpx_override_path_resolution sample_app "sub/out.gpx" sample_world).
  discriminate.
Defined.

(** The three rules on the sample session: a bare name lands next to the
    source, an absolute path is kept, a relative path with a directory is
    taken from the working directory. *)
Example override_path_examples :
  save_gpx_output_path sample_app (Some "out.gpx") sample_world =
    Ok (parse "/tmp/x/out.gpx") /\
  save_gpx_output_path sample_app (Some "/abs/out.gpx") sample_world =
    Ok (parse "/abs/out.gpx") /\
  save_gpx_output_path sample_app (Some "sub/out.gpx") sample_world =
    Ok (parse "/work/sub/out.gpx").
Proof. vm_compute. repeat split. Qed.

(** Overrides with a directory component that [save_gpx] places next to
    the source all the same: the component is ["."], or the slash is a
    trailing one.  The stated rule takes them from the working
    directory. *)
Example override_path_dot_examples :
  save_gpx_output_path sample_app (Some "./out.gpx") sample_world =
    Ok (parse "/tmp/x/out.gpx") /\
  spec_override_path (original_gpx_path sample_app) sample_world "./out.gpx" =
    parse "/work/out.gpx" /\
  save_gpx_output_path sample_app (Some "out.gpx/") sample_world =
    Ok (parse "/tmp/x/out.gpx") /\
  spec_override_path (original_gpx_path sample_app) sample_world "out.gpx/" =
    parse "/work/out.gpx".
Proof. vm_compute. repeat split. Qed.

(** ** Matching [GPX_TIME_PATTERN] *)

Lemma bind_ret_r {A : Type} (r : Result A) : (let* x := r in Ok x) = r.
Proof. destruct r; reflexivity. Qed.

Lemma match_atoms_app_split p s m rest :
  Re.match_atoms p s = Some (m, rest) <->
  s = m ++ rest /\ Re.match_atoms p m = Some (m, EmptyString).
Proof.
  revert s m rest. induction p as [|a p IH]; intros s m rest; simpl.
  - split.
    + intros H; inversion H; subst. auto.
    + intros [-> H]. inversion H; subst. reflexivity.
  - split.
    + destruct s as [|c s]; [discriminate|].
      destruct (Re.atom_matches a c) eqn:Hc; [|discriminate].
      destruct (Re.match_atoms p s) as [[m' r']|] eqn:E; [|discriminate].
      intros H; inversion H; subst. apply IH in E as [-> E].
      simpl. rewrite Hc, E. auto.
    + intros [-> H]. destruct m as [|c m]; [discriminate|].
      destruct (Re.atom_matches a c) eqn:Hc; [|discriminate].
      destruct (Re.match_atoms p m) as [[m' r']|] eqn:E; [|discriminate].
      injection H as Hm Hr. subst m' r'. simpl. rewrite Hc.
      assert (E' : Re.match_atoms p (m ++ rest) = Some (m, rest)).
      { apply IH. split; [reflexivity|exact E]. }
      rewrite E'. reflexivity.
Qed.

Lemma match_atoms_lit l s m rest :
  Re.match_atoms (Re.lit l) s = Some (m, rest) <-> m = l /\ s = l ++ rest.
Proof.
  revert s m rest. induction l as [|c l IH]; intros s m rest.
  - simpl. split.
    + intros H; inversion H; auto.
    + intros [-> ->]. reflexivity.
  - change (Re.lit (String c l)) with (Re.Lit c :: Re.lit l). simpl.
    split.
    + destruct s as [|d s]; [discriminate|].
      destruct (Ascii.eqb d c) eqn:Hc; [|discriminate].
      apply Ascii.eqb_eq in Hc. subst d.
      destruct (Re.match_atoms (Re.lit l) s) as [[m' r']|] eqn:E; [|discriminate].
      intros H; inversion H; subst. apply IH in E as [-> ->]. auto.
    + intros [-> ->]. simpl. rewrite Ascii.eqb_refl.
      assert (E : Re.match_atoms (Re.lit l) (l ++ rest) = Some (l, rest))
        by (apply IH; auto).
      rewrite E. reflexivity.
Qed.

Lemma is_timestamp_match ts :
  is_timestamp ts = true <->
  Re.match_atoms TIMESTAMP_ATOMS ts = Some (ts, EmptyString).
Proof.
  unfold is_timestamp. split.
  - destruct (Re.match_atoms TIMESTAMP_ATOMS ts) as [[m r]|] eqn:E; [|discriminate].
    destruct r; [|discriminate]. intros _.
    apply match_atoms_app_split in E as [E _]. rewrite append_nil_r in E.
    subst m. reflexivity.
  - intros ->. reflexivity.
Qed.

(** A match of the pattern at the start of a text: the text starts with a
    [<time>] element around a text of the timestamp shape. *)
Lemma gpx_match_inv s g rest :
  Re.match_at GPX_TIME_PATTERN s = Some (g, rest) ->
  exists ts,
    g = ("<time>", ts, "</time>") /\ is_timestamp ts = true /\
    s = "<time>" ++ ts ++ "</time>" ++ rest.
Proof.
  unfold Re.match_at, GPX_TIME_PATTERN.
  destruct (Re.match_atoms (Re.lit "<time>") s) as [[g1 r1]|] eqn:E1; [|discriminate].
  destruct (Re.match_atoms TIMESTAMP_ATOMS r1) as [[g2 r2]|] eqn:E2; [|discriminate].
  destruct (Re.match_atoms (Re.lit "</time>") r2) as [[g3 r3]|] eqn:E3; [|discriminate].
  intros H; inversion H; subst.
  apply match_atoms_lit in E1 as [-> ->].
  apply match_atoms_lit in E3 as [-> ->].
  apply match_atoms_app_split in E2 as [-> E2].
  exists g2. split; [reflexivity|]. split; [|reflexivity].
  apply is_timestamp_match. exact E2.
Qed.

Lemma gpx_match_intro ts rest :
  is_timestamp ts = true ->
  Re.match_at GPX_TIME_PATTERN ("<time>" ++ ts ++ "</time>" ++ rest) =
    Some (("<time>", ts, "</time>"), rest).
Proof.
  intros Hts. apply is_timestamp_match in Hts.
  unfold Re.match_at, GPX_TIME_PATTERN.
  assert (E1 : Re.match_atoms (Re.lit "<time>") ("<time>" ++ ts ++ "</time>" ++ rest)
               = Some ("<time>", ts ++ "</time>" ++ rest))
    by (apply match_atoms_lit; auto).
  rewrite E1.
  assert (E2 : Re.match_atoms TIMESTAMP_ATOMS (ts ++ "</time>" ++ rest)
               = Some (ts, "</time>" ++ rest))
    by (apply match_atoms_app_split; auto).
  rewrite E2.
  assert (E3 : Re.match_atoms (Re.lit "</time>") ("</time>" ++ rest)
               = Some ("</time>", rest))
    by (apply match_atoms_lit; auto).
  rewrite E3. reflexivity.
Qed.

(** The characters of a timestamp are digits and separators, none is
    ["<"]. *)
Lemma match_atoms_all_chars (q : ascii -> bool) p s m rest :
  (forall a c, In a p -> Re.atom_matches a c = true -> q c = true) ->
  Re.match_atoms p s = Some (m, rest) -> all_chars q m = true.
Proof.
  revert s m rest. induction p as [|a p IH]; intros s m rest Hq; simpl.
  - intros H; inversion H; reflexivity.
  - destruct s as [|c s]; [discriminate|].
    destruct (Re.atom_matches a c) eqn:Hc; [|discriminate].
    destruct (Re.match_atoms p s) as [[m' r']|] eqn:E; [|discriminate].
    intros H; inversion H; subst. simpl.
    rewrite (Hq a c) by (simpl; auto). simpl.
    eapply IH; [|exact E]. intros a' c' Ha'. apply Hq. simpl; auto.
Qed.

Lemma is_digit_not_lt c : is_digit c = true -> not_lt c = true.
Proof.
  intros H. unfold not_lt. destruct (Ascii.eqb c "<") eqn:E; [|reflexivity].
  apply Ascii.eqb_eq in E. subst c. discriminate H.
Qed.

Lemma timestamp_no_lt ts : is_timestamp ts = true -> all_chars not_lt ts = true.
Proof.
  intros H. apply is_timestamp_match in H.
  eapply match_atoms_all_chars; [|exact H].
  intros a c Ha Hc. unfold TIMESTAMP_ATOMS in Ha. simpl in Ha.
  repeat (destruct Ha as [<-|Ha];
          [first [ apply is_digit_not_lt; exact Hc
                 | simpl in Hc; apply Ascii.eqb_eq in Hc; subst c; reflexivity ]|]).
  destruct Ha.
Qed.

Lemma timestamp_length ts : is_timestamp ts = true -> String.length ts = 20%nat.
Proof.
  intros H. apply is_timestamp_match in H.
  apply Re.match_atoms_length in H as [_ H]. exact H.
Qed.

Lemma match_atoms_concat p q s m1 r1 m2 r2 :
  Re.match_atoms p s = Some (m1, r1) ->
  Re.match_atoms q r1 = Some (m2, r2) ->
  Re.match_atoms (p ++ q) s = Some (m1 ++ m2, r2).
Proof.
  revert s m1 r1. induction p as [|a p IH]; intros s m1 r1; simpl.
  - intros H; inversion H; subst. intros ->. reflexivity.
  - destruct s as [|c s]; [discriminate|].
    destruct (Re.atom_matches a c); [|discriminate].
    destruct (Re.match_atoms p s) as [[m' r']|] eqn:E; [|discriminate].
    intros H Hq; inversion H; subst.
    rewrite (IH _ _ _ E Hq). reflexivity.
Qed.

Lemma match_atoms_get p s m rest i a :
  Re.match_atoms p s = Some (m, rest) ->
  nth_error p i = Some a ->
  exists c, String.get i s = Some c /\ Re.atom_matches a c = true.
Proof.
  revert s m rest i. induction p as [|b p IH]; intros s m rest i; simpl.
  - destruct i; discriminate.
  - destruct s as [|c s]; [discriminate|].
    destruct (Re.atom_matches b c) eqn:Hc; [|discriminate].
    destruct (Re.match_atoms p s) as [[m' r']|] eqn:E; [|discriminate].
    intros _. destruct i as [|i]; simpl.
    + intros H; inversion H; subst. exists c. auto.
    + intros H. eapply IH; eassumption.
Qed.

Lemma gpx_match_atoms s g rest :
  Re.match_at GPX_TIME_PATTERN s = Some (g, rest) ->
  exists m, Re.match_atoms GPX_TIME_ATOMS s = Some (m, rest).
Proof.
  unfold Re.match_at, GPX_TIME_PATTERN, GPX_TIME_ATOMS.
  destruct (Re.match_atoms (Re.lit "<time>") s) as [[g1 r1]|] eqn:E1; [|discriminate].
  destruct (Re.match_atoms TIMESTAMP_ATOMS r1) as [[g2 r2]|] eqn:E2; [|discriminate].
  destruct (Re.match_atoms (Re.lit "</time>") r2) as [[g3 r3]|] eqn:E3; [|discriminate].
  intros H; inversion H; subst.
  eexists. eapply match_atoms_concat; [exact E1|].
  eapply match_atoms_concat; [exact E2|exact E3].
Qed.

(** No position inside the pattern can start a second match. *)
Lemma no_overlap_table : forallb no_overlap_at (seq 1 32) = true.
Proof. vm_compute. reflexivity. Qed.

Lemma gpx_match_no_overlap pre X g rest :
  Re.match_at GPX_TIME_PATTERN (pre ++ String "<" (String "t" X)) = Some (g, rest) ->
  String.length pre = 0%nat \/ (33 <= String.length pre)%nat.
Proof.
  intros H. apply gpx_match_atoms in H as [m H].
  destruct (Nat.eq_dec (String.length pre) 0%nat) as [|Hk0]; [auto|]. right.
  destruct (le_lt_dec 33%nat (String.length pre)) as [|Hk]; [assumption|exfalso].
  set (k := String.length pre) in *.
  pose proof no_overlap_table as Htab.
  rewrite forallb_forall in Htab.
  specialize (Htab k). rewrite in_seq in Htab.
  assert (Hno : no_overlap_at k = true) by (apply Htab; lia).
  unfold no_overlap_at in Hno.
  pose proof (append_correct2 pre (String "<" (String "t" X)) 0%nat) as G0.
  pose proof (append_correct2 pre (String "<" (String "t" X)) 1%nat) as G1.
  simpl in G0, G1. fold k in G0, G1.
  destruct (nth_error GPX_TIME_ATOMS k) as [a|] eqn:Ea.
  2: { apply nth_error_None in Ea. simpl in Ea. lia. }
  destruct (match_atoms_get _ _ _ _ _ _ H Ea) as (c & Hc & Hac).
  rewrite <- G0 in Hc. inversion Hc; subst c. rewrite Hac in Hno.
  destruct (nth_error GPX_TIME_ATOMS (S k)) as [b|] eqn:Eb; [|discriminate].
  destruct (match_atoms_get _ _ _ _ _ _ H Eb) as (c & Hc' & Hbc).
  rewrite <- G1 in Hc'. inversion Hc'; subst c. rewrite Hbc in Hno.
  discriminate.
Qed.

Lemma append_prefix_split (m s z r : string) :
  s ++ z = m ++ r -> (String.length m <= String.length s)%nat ->
  exists r', s = m ++ r' /\ r = r' ++ z.
Proof.
  revert s. induction m as [|c m IH]; intros s H Hlen; simpl in *.
  - exists s. auto.
  - destruct s as [|d s]; simpl in *; [lia|].
    inversion H; subst. destruct (IH s H2) as (r' & -> & ->); [lia|].
    exists r'. auto.
Qed.

Lemma gpx_match_app s z g rest :
  Re.match_at GPX_TIME_PATTERN s = Some (g, rest) ->
  Re.match_at GPX_TIME_PATTERN (s ++ z) = Some (g, rest ++ z).
Proof.
  intros H. apply gpx_match_inv in H as (ts & -> & Hts & ->).
  rewrite !append_assoc. apply gpx_match_intro. exact Hts.
Qed.

Lemma gpx_match_app_inv s z g rest :
  Re.match_at GPX_TIME_PATTERN (s ++ z) = Some (g, rest) ->
  (33 <= String.length s)%nat ->
  exists rest', Re.match_at GPX_TIME_PATTERN s = Some (g, rest') /\
                rest = rest' ++ z.
Proof.
  intros H Hlen. apply gpx_match_inv in H as (ts & -> & Hts & H).
  rewrite <- !append_assoc in H.
  apply append_prefix_split in H as (r' & -> & ->).
  - exists r'. split; [|reflexivity].
    rewrite !append_assoc. apply gpx_match_intro. exact Hts.
  - rewrite !length_append. rewrite (timestamp_length ts Hts). simpl. lia.
Qed.

Lemma gpx_match_short s :
  (String.length s < 33)%nat -> Re.match_at GPX_TIME_PATTERN s = None.
Proof.
  intros Hlen. destruct (Re.match_at GPX_TIME_PATTERN s) as [[g r]|] eqn:E;
    [|reflexivity].
  apply Re.match_at_length in E. simpl in E. lia.
Qed.

Lemma gpx_pattern_length : Re.pattern_length GPX_TIME_PATTERN <> 0%nat.
Proof. discriminate. Qed.

Lemma gpx_sub_nil f : gpx_sub f EmptyString = Ok EmptyString.
Proof. apply Re.sub_nil, gpx_pattern_length. Qed.

Lemma gpx_sub_cons f c s :
  gpx_sub f (String c s) =
  match Re.match_at GPX_TIME_PATTERN (String c s) with
  | Some (g, rest) =>
      let* r := f g in
      let* out := gpx_sub f rest in
      Ok (r ++ out)
  | None =>
      let* out := gpx_sub f s in
      Ok (String c out)
  end.
Proof. apply Re.sub_cons, gpx_pattern_length. Qed.

(** [findall] along the scan. *)
Lemma findall_cons p c s :
  Re.pattern_length p <> 0%nat ->
  findall p (String c s) =
  match Re.match_at p (String c s) with
  | Some (g, rest) => g :: findall p rest
  | None => findall p s
  end.
Proof.
  intros Hp. rewrite findall_equation_2. unfold Re.inspect.
  generalize (@eq_refl _ (Re.match_at p (String c s))).
  generalize (Re.match_at p (String c s)) at 2 4 5 as o.
  intros [[g rest]|] e; simpl; [|reflexivity].
  destruct (Nat.eq_dec (Re.pattern_length p) 0%nat) as [e0|e0]; simpl;
    [contradiction|reflexivity].
Qed.

Lemma gpx_findall_nil : gpx_findall EmptyString = [].
Proof. reflexivity. Qed.

Lemma gpx_findall_cons c s :
  gpx_findall (String c s) =
  match Re.match_at GPX_TIME_PATTERN (String c s) with
  | Some ((_, ts, _), rest) => ts :: gpx_findall rest
  | None => gpx_findall s
  end.
Proof.
  unfold gpx_findall. rewrite findall_cons by apply gpx_pattern_length.
  destruct (Re.match_at GPX_TIME_PATTERN (String c s)) as [[[[g1 ts] g3] rest]|];
    reflexivity.
Qed.

(** The scan of a text cut in front of ["<t"] is the scan of the two
    pieces: no match lies across the cut. *)
Lemma gpx_sub_split f pre X :
  gpx_sub f (pre ++ String "<" (String "t" X)) =
  let* a := gpx_sub f pre in
  let* b := gpx_sub f (String "<" (String "t" X)) in
  Ok (a ++ b).
Proof.
  remember (String.length pre) as n eqn:Hn.
  revert pre Hn. induction (lt_wf n) as [n _ IH]. intros pre Hn.
  destruct pre as [|c pre].
  - rewrite gpx_sub_nil. cbn [bind String.append]. rewrite bind_ret_r. reflexivity.
  - change (String c pre ++ String "<" (String "t" X))
      with (String c (pre ++ String "<" (String "t" X))).
    rewrite (gpx_sub_cons f c (pre ++ _)), (gpx_sub_cons f c pre).
    destruct (Re.match_at GPX_TIME_PATTERN (String c pre)) as [[g rest]|] eqn:E.
    + pose proof (gpx_match_app _ (String "<" (String "t" X)) _ _ E) as E'.
      change (String c pre ++ String "<" (String "t" X))
        with (String c (pre ++ String "<" (String "t" X))) in E'.
      rewrite E'.
      apply Re.match_at_length in E.
      change (Re.pattern_length GPX_TIME_PATTERN) with 33%nat in E.
      cbn [String.length] in E.
      rewrite (IH (String.length rest) ltac:(subst n; cbn [String.length]; lia)
                 rest eq_refl).
      destruct (f g) as [r|e]; cbn [bind]; [|reflexivity].
      destruct (gpx_sub f rest) as [a|e]; cbn [bind]; [|reflexivity].
      destruct (gpx_sub f (String "<" (String "t" X))) as [b|e]; cbn [bind];
        [|reflexivity].
      rewrite append_assoc. reflexivity.
    + destruct (Re.match_at GPX_TIME_PATTERN
                  (String c (pre ++ String "<" (String "t" X))))
        as [[g rest]|] eqn:E'.
      { exfalso.
        change (String c (pre ++ String "<" (String "t" X)))
          with (String c pre ++ String "<" (String "t" X)) in E'.
        destruct (gpx_match_no_overlap _ _ _ _ E') as [H0|H33].
        - discriminate H0.
        - apply gpx_match_app_inv in E' as (r' & E'' & _); [|exact H33].
          rewrite E'' in E. discriminate. }
      rewrite (IH (String.length pre) ltac:(subst n; cbn [String.length]; lia)
                 pre eq_refl).
      destruct (gpx_sub f pre) as [a|e]; cbn [bind]; [|reflexivity].
      destruct (gpx_sub f (String "<" (String "t" X))) as [b|e]; cbn [bind];
        reflexivity.
Qed.

Lemma gpx_match_first c s g rest :
  Re.match_at GPX_TIME_PATTERN (String c s) = Some (g, rest) -> c = "<"%char.
Proof.
  intros H. apply gpx_match_inv in H as (ts & _ & _ & H).
  inversion H. reflexivity.
Qed.

(** Text without ["<"] is copied. *)
Lemma gpx_sub_copy f u Y :
  all_chars not_lt u = true ->
  gpx_sub f (u ++ Y) = let* b := gpx_sub f Y in Ok (u ++ b).
Proof.
  induction u as [|c u IH]; intros Hu.
  - cbn [String.append]. rewrite bind_ret_r. reflexivity.
  - cbn [all_chars] in Hu. apply andb_true_iff in Hu as [Hc Hu].
    change (String c u ++ Y) with (String c (u ++ Y)).
    rewrite gpx_sub_cons.
    destruct (Re.match_at GPX_TIME_PATTERN (String c (u ++ Y))) as [[g r]|] eqn:E.
    { apply gpx_match_first in E. subst c. discriminate Hc. }
    rewrite (IH Hu).
    destruct (gpx_sub f Y) as [b|e]; reflexivity.
Qed.

(** A closing tag is copied. *)
Lemma gpx_sub_closing_tag f Y :
  gpx_sub f ("</time>" ++ Y) = let* b := gpx_sub f Y in Ok ("</time>" ++ b).
Proof.
  change ("</time>" ++ Y) with (String "<" ("/time>" ++ Y)).
  rewrite gpx_sub_cons.
  destruct (Re.match_at GPX_TIME_PATTERN (String "<" ("/time>" ++ Y)))
    as [[g r]|] eqn:E.
  { apply gpx_match_inv in E as (ts & _ & _ & E). discriminate E. }
  rewrite (gpx_sub_copy f "/time>" Y eq_refl).
  destruct (gpx_sub f Y) as [b|e]; reflexivity.
Qed.

Lemma no_lt_prefix_unique u v a b :
  all_chars not_lt u = true -> all_chars not_lt v = true ->
  u ++ String "<" a = v ++ String "<" b -> u = v.
Proof.
  revert v. induction u as [|c u IH]; intros [|d v] Hu Hv H;
    cbn [String.append all_chars] in *.
  - reflexivity.
  - inversion H; subst d. discriminate Hv.
  - inversion H; subst c. discriminate Hu.
  - apply andb_true_iff in Hu as [_ Hu]. apply andb_true_iff in Hv as [_ Hv].
    inversion H; subst d. f_equal. eapply IH; eassumption.
Qed.

(** A [<time>] element whose content has no ["<"] and is not of the
    timestamp shape is no match. *)
Lemma gpx_match_other_element inner Y :
  all_chars not_lt inner = true -> is_timestamp inner = false ->
  Re.match_at GPX_TIME_PATTERN ("<time>" ++ inner ++ "</time>" ++ Y) = None.
Proof.
  intros Hin Hts.
  destruct (Re.match_at GPX_TIME_PATTERN ("<time>" ++ inner ++ "</time>" ++ Y))
    as [[g r]|] eqn:E; [|reflexivity].
  apply gpx_match_inv in E as (ts & _ & Hts' & E).
  apply String.app_inj in E.
  change ("</time>" ++ Y) with (String "<" ("/time>" ++ Y)) in E.
  change ("</time>" ++ r) with (String "<" ("/time>" ++ r)) in E.
  apply no_lt_prefix_unique in E; [|exact Hin|apply timestamp_no_lt; exact Hts'].
  subst ts. congruence.
Qed.

(** Such an element is copied as it is. *)
Lemma gpx_sub_other_element f inner Y :
  all_chars not_lt inner = true -> is_timestamp inner = false ->
  gpx_sub f ("<time>" ++ inner ++ "</time>" ++ Y) =
  let* b := gpx_sub f Y in Ok ("<time>" ++ inner ++ "</time>" ++ b).
Proof.
  intros Hin Hts.
  pose proof (gpx_match_other_element inner Y Hin Hts) as E.
  change ("<time>" ++ inner ++ "</time>" ++ Y)
    with (String "<" ("time>" ++ inner ++ "</time>" ++ Y)) in *.
  rewrite gpx_sub_cons, E.
  rewrite <- (append_assoc "time>" inner ("</time>" ++ Y)).
  rewrite gpx_sub_copy.
  2: { rewrite all_chars_app, Hin. reflexivity. }
  rewrite gpx_sub_closing_tag.
  destruct (gpx_sub f Y) as [b|e]; cbn [bind]; [|reflexivity].
  rewrite append_assoc. reflexivity.
Qed.

Lemma shift_gpx_times_nonzero gpx_text delta :
  delta <> 0 ->
  shift_gpx_times gpx_text delta = gpx_sub (_replace delta) gpx_text.
Proof.
  intros Hd. unfold shift_gpx_times, timedelta_bool.
  destruct (delta =? 0) eqn:E; [|reflexivity].
  apply Z.eqb_eq in E. contradiction.
Qed.

(** ** Elements that the pattern does not match *)

(** C10.  A [<time>] element whose content has no ["<"] and is not of the
    shape [dddd-dd-ddTdd:dd:ddZ] is copied to the output as it is and
    raises nothing: the rewriting of a document around such an element is
    the rewriting of what precedes it, the element itself, and the
    rewriting of what follows it; the only exceptions are those of the two
    surrounding texts. *)
Theorem shift_gpx_times_keeps_other_time_element
  (pre inner post : string) (delta : timedelta) :
  all_chars not_lt inner = true ->
  is_timestamp inner = false ->
  shift_gpx_times (pre ++ "<time>" ++ inner ++ "</time>" ++ post) delta =
  let* a := shift_gpx_times pre delta in
  let* b := shift_gpx_times post delta in
  Ok (a ++ "<time>" ++ inner ++ "</time>" ++ b).
Proof.
  intros Hin Hts.
  destruct (Z.eq_dec delta 0) as [->|Hd].
  - reflexivity.
  - rewrite !shift_gpx_times_nonzero by exact Hd.
    change ("<time>" ++ inner ++ "</time>" ++ post)
      with (String "<" (String "t" ("ime>" ++ inner ++ "</time>" ++ post))).
    rewrite gpx_sub_split.
    change (String "<" (String "t" ("ime>" ++ inner ++ "</time>" ++ post)))
      with ("<time>" ++ inner ++ "</time>" ++ post).
    rewrite (gpx_sub_other_element _ inner post Hin Hts).
    destruct (gpx_sub (_replace delta) pre) as [a|e]; cbn [bind]; [|reflexivity].
    destruct (gpx_sub (_replace delta) post) as [b|e]; reflexivity.
Qed.

Lemma shift_gpx_times_keeps_other_time_element_witness :
  shift_gpx_times
    ("<trkpt><time>2025-01-01T00:00:00Z</time>" ++
     "<time>" ++ "2025-01-01T00:00:00.500Z" ++ "</time>" ++ "</trkpt>")
    (3 * US_PER_HOUR) =
  let* a := shift_gpx_times "<trkpt><time>2025-01-01T00:00:00Z</time>"
              (3 * US_PER_HOUR) in
  let* b := shift_gpx_times "</trkpt>" (3 * US_PER_HOUR) in
  Ok (a ++ "<time>" ++ "2025-01-01T00:00:00.500Z" ++ "</time>" ++ b).
Proof.
  apply (shift_gpx_times_keeps_other_time_element
           "<trkpt><time>2025-01-01T00:00:00Z</time>"
           "2025-01-01T00:00:00.500Z" "</trkpt>" (3 * US_PER_HOUR));
    reflexivity.
Defined.

(** The two examples of the claim: fractional seconds, and a numeric UTC
    offset in place of [Z]. *)
Example fractional_seconds_left_unshifted :
  shift_gpx_times
    "<a><time>2025-01-01T00:00:00Z</time><time>2025-01-01T00:00:00.500Z</time></a>"
    (3 * US_PER_HOUR) =
  Ok "<a><time>2025-01-01T03:00:00Z</time><time>2025-01-01T00:00:00.500Z</time></a>".
Proof. vm_compute. reflexivity. Qed.

Example numeric_offset_left_unshifted :
  shift_gpx_times
    "<a><time>2025-01-01T00:00:00+02:00</time><time>2025-01-01T00:00:00Z</time></a>"
    (-2 * US_PER_HOUR) =
  Ok "<a><time>2025-01-01T00:00:00+02:00</time><time>2024-12-31T22:00:00Z</time></a>".
Proof. vm_compute. reflexivity. Qed.

(** ** Malformed timestamps *)

(** C6.  When a document holds a [<time>] element whose content has the
    timestamp shape but is refused by [strptime], rewriting with a non-zero
    shift raises, and so does every save of a session on that document with
    that shift, which then writes nothing. *)
Theorem shift_gpx_times_malformed_timestamp_raises
  (pre ts post : string) (delta : timedelta) :
  delta <> 0 ->
  is_timestamp ts = true ->
  strptime ts = Raise ValueError ->
  (exists e,
     shift_gpx_times (pre ++ "<time>" ++ ts ++ "</time>" ++ post) delta = Raise e) /\
  (forall self output_file_path w,
     original_gpx_text self = pre ++ "<time>" ++ ts ++ "</time>" ++ post ->
     time_shift self = delta ->
     exists e, save_gpx self output_file_path w = (Raise e, self, w)).
Proof.
  intros Hd Hts Hparse.
  assert (H : exists e,
    shift_gpx_times (pre ++ "<time>" ++ ts ++ "</time>" ++ post) delta = Raise e).
  { rewrite shift_gpx_times_nonzero by exact Hd.
    change ("<time>" ++ ts ++ "</time>" ++ post)
      with (String "<" (String "t" ("ime>" ++ ts ++ "</time>" ++ post))).
    rewrite gpx_sub_split.
    destruct (gpx_sub (_replace delta) pre) as [a|e]; cbn [bind];
      [|exists e; reflexivity].
    rewrite gpx_sub_cons.
    change (String "<" (String "t" ("ime>" ++ ts ++ "</time>" ++ post)))
      with ("<time>" ++ ts ++ "</time>" ++ post).
    rewrite (gpx_match_intro ts post Hts).
    unfold _replace. rewrite Hparse. cbn [bind].
    exists ValueError. reflexivity. }
  split; [exact H|].
  intros self o w Htext Hshift. destruct H as [e H].
  unfold save_gpx. rewrite Htext, Hshift, H.
  destruct (save_gpx_output_path self o w) as [p|e']; eexists; reflexivity.
Qed.

Lemma shift_gpx_times_malformed_timestamp_raises_witness :
  (exists e,
     shift_gpx_times
       ("<trkpt>" ++ "<time>" ++ "2025-13-01T00:00:00Z" ++ "</time>" ++ "</trkpt>")
       US_PER_HOUR = Raise e) /\
  (forall self output_file_path w,
     original_gpx_text self =
       "<trkpt>" ++ "<time>" ++ "2025-13-01T00:00:00Z" ++ "</time>" ++ "</trkpt>" ->
     time_shift self = US_PER_HOUR ->
     exists e, save_gpx self output_file_path w = (Raise e, self, w)).
Proof.
  apply (shift_gpx_times_malformed_timestamp_raises
           "<trkpt>" "2025-13-01T00:00:00Z" "</trkpt>" US_PER_HOUR).
  - discriminate.
  - reflexivity.
  - reflexivity.
Defined.

(** Texts of the timestamp shape that [strptime] refuses. *)
Example strptime_refuses :
  strptime "2025-13-01T00:00:00Z" = Raise ValueError /\
  strptime "2025-02-30T00:00:00Z" = Raise ValueError /\
  strptime "2025-01-01T24:00:00Z" = Raise ValueError /\
  strptime "2025-01-01T00:00:60Z" = Raise ValueError /\
  strptime "0000-01-01T00:00:00Z" = Raise ValueError.
Proof. vm_compute. repeat split. Qed.

(** ** What the rewriter changes *)

(** The calendar date of an ordinal in range. *)
Lemma _ord2ymd_bounds n :
  0 < n <= _MAXORDINAL ->
  let '(y, m, d) := _ord2ymd n in
  1 <= y <= 9999 /\ 1 <= m <= 12 /\ 1 <= d <= 31.
Proof.
  intros Hn. unfold _ord2ymd, _MAXORDINAL in *.
  change _DI400Y with 146097. change _DI100Y with 36524. change _DI4Y with 1461.
  cbv zeta.
  set (n0 := n - 1).
  set (n400 := n0 / 146097). set (r400 := n0 mod 146097).
  set (n100 := r400 / 36524). set (r100 := r400 mod 36524).
  set (n4 := r100 / 1461). set (r4 := r100 mod 1461).
  set (n1 := r4 / 365). set (r1 := r4 mod 365).
  assert (H400 : 0 <= n400 <= 24) by (unfold n400, n0; lia).
  assert (Hr400 : 0 <= r400 < 146097) by (unfold r400; lia).
  assert (H100 : 0 <= n100 <= 4) by (unfold n100; lia).
  assert (Hr100 : 0 <= r100 < 36524) by (unfold r100; lia).
  assert (H4 : 0 <= n4 <= 24) by (unfold n4; lia).
  assert (Hr4 : 0 <= r4 < 1461) by (unfold r4; lia).
  assert (H1 : 0 <= n1 <= 4) by (unfold n1; lia).
  assert (Hr1 : 0 <= r1 < 365) by (unfold r1; lia).
  assert (Hsum : n0 = 146097 * n400 + 36524 * n100 + 1461 * n4 + 365 * n1 + r1)
    by (unfold n400, r400, n100, r100, n4, r4, n1, r1 in *; lia).
  assert (Hn0 : 0 <= n0 <= 3652058) by (unfold n0; lia).
  clearbody n0 n400 r400 n100 r100 n4 r4 n1 r1.
  destruct ((n1 =? 4) || (n100 =? 4)) eqn:Hend.
  - split; [|lia]. apply orb_true_iff in Hend.
    destruct Hend as [E|E]; apply Z.eqb_eq in E; lia.
  - apply orb_false_iff in Hend as [E1 E100].
    apply Z.eqb_neq in E1, E100.
    rewrite Z.shiftr_div_pow2 by lia. change (2 ^ 5) with 32.
    set (leap := (n1 =? 3) && (negb (n4 =? 24) || (n100 =? 3))).
    clearbody leap.
    set (month := (r1 + 50) / 32).
    assert (Hm : 1 <= month <= 12) by (unfold month; lia).
    assert (Hmv : month = (r1 + 50) / 32) by reflexivity.
    clearbody month.
    assert (Hcases : month = 1 \/ month = 2 \/ month = 3 \/ month = 4 \/
                     month = 5 \/ month = 6 \/ month = 7 \/ month = 8 \/
                     month = 9 \/ month = 10 \/ month = 11 \/ month = 12) by lia.
    destruct Hcases
      as [-> | [-> | [-> | [-> | [-> | [-> | [-> | [-> | [-> | [-> | [-> | ->]]]]]]]]]]];
      destruct leap;
      cbn [_DAYS_BEFORE_MONTH Z.ltb Z.compare Pos.compare Pos.compare_cont andb].
    all: try match goal with
             | |- context [?a <? ?b] => destruct (Z.ltb_spec a b)
             end.
    all: repeat match goal with
         | |- context [_DAYS_IN_MONTH ?x] =>
             let v := eval vm_compute in (_DAYS_IN_MONTH x) in
             change (_DAYS_IN_MONTH x) with v
         | |- context [(?x =? 2) && ?b] =>
             let v := eval vm_compute in ((x =? 2) && b) in
             change ((x =? 2) && b) with v
         end.
    all: cbv iota.
    all: lia.
Qed.

(** The fields of the sum of a date and a duration. *)
Lemma datetime_add_bounds dt td dt' :
  datetime_add dt td = Ok dt' ->
  1 <= year dt' <= 9999 /\ 1 <= month dt' <= 12 /\ 1 <= day dt' <= 31 /\
  0 <= hour dt' <= 23 /\ 0 <= minute dt' <= 59 /\ 0 <= second dt' <= 59.
Proof.
  unfold datetime_add.
  set (total := (toordinal dt * 86400 + hour dt * 3600 + minute dt * 60 +
                 second dt) * US_PER_SECOND + microsecond dt + td).
  destruct ((0 <? td_days total) && (td_days total <=? _MAXORDINAL)) eqn:Hr;
    [|discriminate].
  apply andb_true_iff in Hr as [H0 H1].
  apply Z.ltb_lt in H0. apply Z.leb_le in H1.
  pose proof (_ord2ymd_bounds (td_days total) (conj H0 H1)) as Hb.
  destruct (_ord2ymd (td_days total)) as [[y m] d].
  intros H; inversion H; subst; cbn [year month day hour minute second].
  assert (Hs : 0 <= td_seconds total < 86400).
  { unfold td_seconds, US_PER_DAY, US_PER_SECOND. lia. }
  lia.
Qed.

Lemma forallb_range (P : Z -> bool) (hi : nat) :
  forallb P (map Z.of_nat (seq 0 hi)) = true ->
  forall n, 0 <= n < Z.of_nat hi -> P n = true.
Proof.
  intros H n Hn. rewrite forallb_forall in H. apply H.
  apply in_map_iff. exists (Z.to_nat n). split; [lia|].
  apply in_seq. lia.
Qed.

Lemma fills_match width n :
  fills width n = true ->
  Re.match_atoms (Re.digits width) (zfill width n) = Some (zfill width n, EmptyString).
Proof.
  unfold fills.
  destruct (Re.match_atoms (Re.digits width) (zfill width n)) as [[m r]|] eqn:E;
    [|discriminate].
  destruct r; [|discriminate]. intros _.
  apply match_atoms_app_split in E as [E _]. rewrite append_nil_r in E.
  rewrite <- E. reflexivity.
Qed.

(** A number below 100 is rendered on two digits, one below 10000 on
    four. *)
Lemma zfill_2 n :
  0 <= n <= 99 ->
  Re.match_atoms (Re.digits 2) (zfill 2 n) = Some (zfill 2 n, EmptyString).
Proof.
  intros Hn. apply fills_match. apply (forallb_range (fills 2) (Z.to_nat 100)); [|lia].
  vm_compute. reflexivity.
Qed.

Lemma zfill_4 n :
  0 <= n <= 9999 ->
  Re.match_atoms (Re.digits 4) (zfill 4 n) = Some (zfill 4 n, EmptyString).
Proof.
  intros Hn. apply fills_match. apply (forallb_range (fills 4) (Z.to_nat 10000)); [|lia].
  vm_compute. reflexivity.
Qed.

Lemma match_atoms_seq p q m1 m2 :
  Re.match_atoms p m1 = Some (m1, EmptyString) ->
  Re.match_atoms q m2 = Some (m2, EmptyString) ->
  Re.match_atoms (p ++ q) (m1 ++ m2) = Some (m1 ++ m2, EmptyString).
Proof.
  intros H1 H2. eapply match_atoms_concat; [|exact H2].
  apply match_atoms_app_split. auto.
Qed.

(** A year of four digits is written as it is when zero filled. *)
Lemma str_of_int_four_digits n :
  1000 <= n <= 9999 -> str_of_int n = zfill 4 n.
Proof.
  intros Hn.
  assert (H : (n <? 1000) || String.eqb (str_of_int n) (zfill 4 n) = true).
  { apply (forallb_range
             (fun n => (n <? 1000) || String.eqb (str_of_int n) (zfill 4 n))
             (Z.to_nat 10000)); [|lia].
    vm_compute. reflexivity. }
  destruct (Z.ltb_spec n 1000) as [Hlt|_]; [lia|].
  cbn [orb] in H. apply String.eqb_eq in H. exact H.
Qed.

(** [strftime] renders a date of a year of four digits in the timestamp
    shape. *)
Lemma strftime_is_timestamp dt :
  1000 <= year dt <= 9999 -> 0 <= month dt <= 99 -> 0 <= day dt <= 99 ->
  0 <= hour dt <= 99 -> 0 <= minute dt <= 99 -> 0 <= second dt <= 99 ->
  is_timestamp (strftime dt) = true.
Proof.
  intros Hy Hm Hd HH HM HS. apply is_timestamp_match.
  unfold strftime, TIMESTAMP_ATOMS.
  rewrite str_of_int_four_digits by exact Hy.
  repeat (apply match_atoms_seq;
          [first [ apply zfill_4; lia | apply zfill_2; assumption
                 | reflexivity ]|]).
  reflexivity.
Qed.

Lemma is_digit_timestamp_char c : is_digit c = true -> timestamp_char c = true.
Proof. intros H. unfold timestamp_char. rewrite H. reflexivity. Qed.

Lemma zfill_2_digits n : 0 <= n <= 99 -> all_chars is_digit (zfill 2 n) = true.
Proof.
  intros Hn. eapply match_atoms_all_chars; [|apply zfill_2; exact Hn].
  intros a c Ha Hc. cbn in Ha. destruct Ha as [<-|[<-|[]]]; exact Hc.
Qed.

(** [strftime] renders a date in range with timestamp characters only. *)
Lemma strftime_chars dt :
  0 <= year dt -> 0 <= month dt <= 99 -> 0 <= day dt <= 99 ->
  0 <= hour dt <= 99 -> 0 <= minute dt <= 99 -> 0 <= second dt <= 99 ->
  all_chars timestamp_char (strftime dt) = true.
Proof.
  intros Hy Hm Hd HH HM HS. unfold strftime. rewrite !all_chars_app.
  repeat (apply andb_true_iff; split);
    first [ reflexivity
          | eapply all_chars_impl; [exact is_digit_timestamp_char|];
            first [ apply str_of_int_digits; assumption
                  | apply zfill_2_digits; assumption ] ].
Qed.

(** What [_replace] does on a match, when it returns. *)
Lemma _replace_inv delta ts r :
  _replace delta ("<time>", ts, "</time>") = Ok r ->
  exists dt dt1,
    strptime ts = Ok dt /\ datetime_add dt delta = Ok dt1 /\
    r = "<time>" ++ strftime dt1 ++ "</time>".
Proof.
  unfold _replace.
  destruct (strptime ts) as [dt|e]; cbn [bind]; [|discriminate].
  destruct (datetime_add dt delta) as [dt1|e] eqn:E; cbn [bind]; [|discriminate].
  intros H; inversion H; subst.
  exists dt, dt1. repeat split; auto.
Qed.

(** The timestamps that the pattern matches, along the scan. *)
Lemma gpx_findall_match c s ts rest :
  Re.match_at GPX_TIME_PATTERN (String c s) =
    Some (("<time>", ts, "</time>"), rest) ->
  gpx_findall (String c s) = ts :: gpx_findall rest.
Proof. intros E. rewrite gpx_findall_cons, E. reflexivity. Qed.

Lemma gpx_findall_no_match c s :
  Re.match_at GPX_TIME_PATTERN (String c s) = None ->
  gpx_findall (String c s) = gpx_findall s.
Proof. intros E. rewrite gpx_findall_cons, E. reflexivity. Qed.

Lemma moved_years_In gpx_text delta ts dt dt1 :
  moved_years_four_digits gpx_text delta = true ->
  In ts (gpx_findall gpx_text) ->
  strptime ts = Ok dt -> datetime_add dt delta = Ok dt1 ->
  1000 <= year dt1.
Proof.
  unfold moved_years_four_digits. intros H Hin Hp Ha.
  rewrite forallb_forall in H. specialize (H ts Hin).
  rewrite Hp, Ha in H. apply Z.leb_le in H. exact H.
Qed.

(** A moved date of a year of four digits is rendered in the timestamp
    shape. *)
Lemma moved_is_timestamp dt delta dt1 :
  datetime_add dt delta = Ok dt1 -> 1000 <= year dt1 ->
  is_timestamp (strftime dt1) = true.
Proof.
  intros Ha Hy. apply datetime_add_bounds in Ha.
  apply strftime_is_timestamp; lia.
Qed.

(** The result of the scan is the text but for the text of the elements of
    the pattern. *)
Lemma gpx_sub_only_time_text_differs delta D out :
  gpx_sub (_replace delta) D = Ok out -> only_time_text_differs D out.
Proof.
  remember (String.length D) as n eqn:Hn.
  revert D out Hn. induction (lt_wf n) as [n _ IH]. intros D out Hn.
  destruct D as [|c s].
  - rewrite gpx_sub_nil. intros H; inversion H. constructor.
  - rewrite gpx_sub_cons.
    destruct (Re.match_at GPX_TIME_PATTERN (String c s)) as [[g rest]|] eqn:E.
    + pose proof (Re.match_at_length _ _ _ _ E) as Hlen.
      change (Re.pattern_length GPX_TIME_PATTERN) with 33%nat in Hlen.
      apply gpx_match_inv in E as (ts & -> & Hts & E). rewrite E.
      destruct (_replace delta ("<time>", ts, "</time>")) as [r|e] eqn:Hr;
        cbn [bind]; [|discriminate].
      apply _replace_inv in Hr as (dt & dt1 & _ & Ha & ->).
      destruct (gpx_sub (_replace delta) rest) as [out'|e] eqn:Hrest;
        cbn [bind]; [|discriminate].
      intros H; inversion H; subst out.
      rewrite !append_assoc. apply ott_time; [exact Hts| |].
      * apply datetime_add_bounds in Ha. apply strftime_chars; lia.
      * apply (IH (String.length rest)); [lia|reflexivity|exact Hrest].
    + destruct (gpx_sub (_replace delta) s) as [out'|e] eqn:Hs;
        cbn [bind]; [|discriminate].
      intros H; inversion H; subst out.
      apply ott_same.
      apply (IH (String.length s)); [subst n; cbn [String.length]; lia
                                    |reflexivity|exact Hs].
Qed.

(** When every moved date is rendered in the timestamp shape, the result
    differs from the text in timestamps of that shape only. *)
Lemma gpx_sub_only_times_differ delta D out :
  (forall ts dt dt1,
     In ts (gpx_findall D) -> strptime ts = Ok dt ->
     datetime_add dt delta = Ok dt1 -> 1000 <= year dt1) ->
  gpx_sub (_replace delta) D = Ok out -> only_times_differ D out.
Proof.
  remember (String.length D) as n eqn:Hn.
  revert D out Hn. induction (lt_wf n) as [n _ IH]. intros D out Hn Hshape.
  destruct D as [|c s].
  - rewrite gpx_sub_nil. intros H; inversion H. constructor.
  - rewrite gpx_sub_cons.
    destruct (Re.match_at GPX_TIME_PATTERN (String c s)) as [[g rest]|] eqn:E.
    + pose proof (Re.match_at_length _ _ _ _ E) as Hlen.
      change (Re.pattern_length GPX_TIME_PATTERN) with 33%nat in Hlen.
      pose proof E as E'.
      apply gpx_match_inv in E' as (ts & -> & Hts & E').
      pose proof (gpx_findall_match _ _ _ _ E) as Hf.
      rewrite E'.
      destruct (_replace delta ("<time>", ts, "</time>")) as [r|e] eqn:Hr;
        cbn [bind]; [|discriminate].
      apply _replace_inv in Hr as (dt & dt1 & Hp & Ha & ->).
      destruct (gpx_sub (_replace delta) rest) as [out'|e] eqn:Hrest;
        cbn [bind]; [|discriminate].
      intros H; inversion H; subst out.
      rewrite !append_assoc. apply otd_time; [exact Hts| |].
      * apply (moved_is_timestamp dt delta dt1 Ha).
        apply (Hshape ts dt dt1); [rewrite Hf; left; reflexivity|exact Hp|exact Ha].
      * apply (IH (String.length rest)); [lia|reflexivity| |exact Hrest].
        intros ts0 dt0 dt2 Hin. apply Hshape. rewrite Hf. right. exact Hin.
    + pose proof (gpx_findall_no_match _ _ E) as Hf.
      destruct (gpx_sub (_replace delta) s) as [out'|e] eqn:Hs;
        cbn [bind]; [|discriminate].
      intros H; inversion H; subst out.
      apply otd_same.
      apply (IH (String.length s)); [subst n; cbn [String.length]; lia
                                    |reflexivity| |exact Hs].
      intros ts0 dt0 dt2 Hin. apply Hshape. rewrite Hf. exact Hin.
Qed.

Lemma only_times_differ_length D out :
  only_times_differ D out -> String.length out = String.length D.
Proof.
  induction 1 as [|c s s' _ IH|ts ts' s s' Hts Hts' _ IH].
  - reflexivity.
  - cbn [String.length]. congruence.
  - rewrite !length_append, (timestamp_length _ Hts), (timestamp_length _ Hts').
    congruence.
Qed.

Lemma get_append_l (a b : string) (i : nat) :
  (i < String.length a)%nat -> String.get i (a ++ b) = String.get i a.
Proof. intros H. symmetry. apply append_correct1. exact H. Qed.

Lemma get_append_r (a b : string) (i : nat) :
  (String.length a <= i)%nat ->
  String.get i (a ++ b) = String.get (i - String.length a) b.
Proof.
  intros H. rewrite (append_correct2 a b (i - String.length a)).
  f_equal. lia.
Qed.

Lemma drop_chars_append (a b : string) (j : nat) :
  drop_chars (String.length a + j) (a ++ b) = drop_chars j b.
Proof. induction a as [|c a IH]; [reflexivity|exact IH]. Qed.

Lemma get_beyond (s : string) (i : nat) :
  (String.length s <= i)%nat -> String.get i s = None.
Proof.
  revert i. induction s as [|c s IH]; intros i H; [reflexivity|].
  destruct i as [|i]; cbn [String.length] in H; [lia|].
  cbn [String.get]. apply IH. lia.
Qed.

(** Where two texts of the timestamp shape differ, both carry a digit. *)
Lemma timestamps_differ_at_digits ts ts' i c c' :
  is_timestamp ts = true -> is_timestamp ts' = true ->
  String.get i ts = Some c -> String.get i ts' = Some c' -> c <> c' ->
  is_digit c = true /\ is_digit c' = true.
Proof.
  intros Hts Hts' Hc Hc' Hne.
  apply is_timestamp_match in Hts, Hts'.
  destruct (nth_error TIMESTAMP_ATOMS i) as [a|] eqn:Ea.
  - destruct (match_atoms_get _ _ _ _ _ _ Hts Ea) as (d & Hd & Had).
    destruct (match_atoms_get _ _ _ _ _ _ Hts' Ea) as (d' & Hd' & Had').
    rewrite Hc in Hd. rewrite Hc' in Hd'. inversion Hd; inversion Hd'; subst.
    destruct a as [l|]; cbn [Re.atom_matches] in *; [|auto].
    apply Ascii.eqb_eq in Had, Had'. congruence.
  - apply nth_error_None in Ea.
    apply Re.match_atoms_length in Hts as [_ Hl].
    assert (String.get i ts = None) by (apply get_beyond; simpl in *; lia).
    congruence.
Qed.

Lemma only_times_differ_positions D out :
  only_times_differ D out ->
  forall i c c',
    String.get i D = Some c -> String.get i out = Some c' -> c <> c' ->
    is_digit c = true /\ is_digit c' = true /\
    exists j ts rest,
      (j + 6 <= i < j + 26)%nat /\ is_timestamp ts = true /\
      drop_chars j D = "<time>" ++ ts ++ "</time>" ++ rest.
Proof.
  induction 1 as [|a s s' _ IH|ts ts' s s' Hts Hts' _ IH]; intros i c c' Hc Hc' Hne.
  - discriminate Hc.
  - destruct i as [|i]; cbn [String.get] in Hc, Hc'; [congruence|].
    destruct (IH i c c' Hc Hc' Hne) as (Hd & Hd' & j & ts & rest & Hj & Hts & Hdrop).
    split; [exact Hd|]. split; [exact Hd'|].
    exists (S j), ts, rest. split; [lia|]. split; [exact Hts|exact Hdrop].
  - pose proof (timestamp_length _ Hts) as Hl.
    pose proof (timestamp_length _ Hts') as Hl'.
    destruct (le_lt_dec 6 i) as [H6|H6].
    2: { rewrite get_append_l in Hc, Hc' by (cbn [String.length]; lia).
         congruence. }
    rewrite get_append_r in Hc, Hc' by (cbn [String.length]; lia).
    cbn [String.length] in Hc, Hc'.
    destruct (le_lt_dec 26 i) as [H26|H26].
    2: { rewrite get_append_l in Hc, Hc' by lia.
         destruct (timestamps_differ_at_digits _ _ _ _ _ Hts Hts' Hc Hc' Hne)
           as [Hd Hd'].
         split; [exact Hd|]. split; [exact Hd'|].
         exists 0%nat, ts, s. split; [lia|]. split; [exact Hts|reflexivity]. }
    rewrite get_append_r in Hc, Hc' by lia.
    rewrite Hl in Hc. rewrite Hl' in Hc'.
    destruct (le_lt_dec 33 i) as [H33|H33].
    2: { rewrite get_append_l in Hc, Hc' by (cbn [String.length]; lia).
         congruence. }
    rewrite get_append_r in Hc, Hc' by (cbn [String.length]; lia).
    cbn [String.length] in Hc, Hc'.
    destruct (IH _ c c' Hc Hc' Hne)
      as (Hd & Hd' & j & ts0 & rest & Hj & Hts0 & Hdrop).
    split; [exact Hd|]. split; [exact Hd'|].
    exists (33 + j)%nat, ts0, rest. split; [lia|]. split; [exact Hts0|].
    rewrite <- Hdrop.
    rewrite <- (drop_chars_append ("<time>" ++ ts ++ "</time>") s j).
    rewrite !length_append, Hl. cbn [String.length].
    rewrite !append_assoc. reflexivity.
Qed.

(** C2.  When the rewriter returns for a non-zero duration, its output is
    the input but for the text between [<time>] and [</time>] of the
    elements of the input that match the pattern, where the output has
    timestamp characters (digits and the separators); every other
    character is copied, in order.  When moreover every moved date falls in
    a year of four digits, the output has the length of the input, and at
    every position where the two differ both carry a digit, and the
    position lies among the twenty timestamp characters of a [<time>]
    element of the input that matches the pattern. *)
Theorem shift_gpx_times_changes_only_timestamps
  (gpx_text : string) (delta : timedelta) (out : string) :
  delta <> 0 ->
  shift_gpx_times gpx_text delta = Ok out ->
  only_time_text_differs gpx_text out /\
  (moved_years_four_digits gpx_text delta = true ->
   String.length out = String.length gpx_text /\
   forall i c c',
     String.get i gpx_text = Some c -> String.get i out = Some c' -> c <> c' ->
     is_digit c = true /\ is_digit c' = true /\
     exists j ts rest,
       (j + 6 <= i < j + 26)%nat /\ is_timestamp ts = true /\
       drop_chars j gpx_text = "<time>" ++ ts ++ "</time>" ++ rest).
Proof.
  intros Hd H. rewrite shift_gpx_times_nonzero in H by exact Hd.
  split; [apply (gpx_sub_only_time_text_differs delta), H|].
  intros Hyears.
  apply gpx_sub_only_times_differ in H.
  - split.
    + apply only_times_differ_length. exact H.
    + apply only_times_differ_positions. exact H.
  - intros ts dt dt1. apply moved_years_In. exact Hyears.
Qed.

Lemma shift_gpx_times_changes_only_timestamps_witness :
  only_time_text_differs sample_gpx_text
    ("<gpx><trk><trkseg><trkpt lat='0' lon='0'><ele>0</ele>" ++
     "<time>2025-01-01T03:00:00Z</time></trkpt></trkseg></trk></gpx>") /\
  (moved_years_four_digits sample_gpx_text (3 * US_PER_HOUR) = true ->
   String.length
     ("<gpx><trk><trkseg><trkpt lat='0' lon='0'><ele>0</ele>" ++
      "<time>2025-01-01T03:00:00Z</time></trkpt></trkseg></trk></gpx>") =
   String.length sample_gpx_text /\
   forall i c c',
     String.get i sample_gpx_text = Some c ->
     String.get i
       ("<gpx><trk><trkseg><trkpt lat='0' lon='0'><ele>0</ele>" ++
        "<time>2025-01-01T03:00:00Z</time></trkpt></trkseg></trk></gpx>") =
       Some c' ->
     c <> c' ->
     is_digit c = true /\ is_digit c' = true /\
     exists j ts rest,
       (j + 6 <= i < j + 26)%nat /\ is_timestamp ts = true /\
       drop_chars j sample_gpx_text = "<time>" ++ ts ++ "</time>" ++ rest).
Proof.
  apply (shift_gpx_times_changes_only_timestamps sample_gpx_text
           (3 * US_PER_HOUR)).
  - discriminate.
  - vm_compute. reflexivity.
Defined.

(** A date moved below the year 1000 is written on fewer characters: the
    element is rewritten, and what follows it is copied one place
    earlier. *)
Example shift_gpx_times_year_999 :
  shift_gpx_times "<time>1000-01-01T00:00:00Z</time><ele>0</ele>"
    (- US_PER_HOUR) =
    Ok "<time>999-12-31T23:00:00Z</time><ele>0</ele>" /\
  moved_years_four_digits "<time>1000-01-01T00:00:00Z</time><ele>0</ele>"
    (- US_PER_HOUR) = false /\
  moved_years_four_digits sample_gpx_text (3 * US_PER_HOUR) = true.
Proof. repeat split; vm_compute; reflexivity. Qed.

(** A shift across midnight, the end of February of a leap year and the
    end of a year. *)
Example shift_gpx_times_carries :
  shift_gpx_times
    "<time>2024-02-28T23:30:00Z</time> <time>2023-12-31T22:00:00Z</time>"
    (3 * US_PER_HOUR) =
  Ok "<time>2024-02-29T02:30:00Z</time> <time>2024-01-01T01:00:00Z</time>".
Proof. vm_compute. reflexivity. Qed.

(** * Further properties of the code *)

(** ** The session under sequences of calls *)

Lemma datetime_add_raise dt d e :
  datetime_add dt d = Raise e -> e = OverflowError.
Proof.
  unfold datetime_add.
  destruct (_ && _); [destruct (_ord2ymd _) as [[? ?] ?]; discriminate|].
  intros E; inversion E; reflexivity.
Qed.

Lemma shift_opt_time_raise t d e :
  shift_opt_time t d = Raise e -> e = OverflowError.
Proof.
  destruct t as [t0|]; cbn [shift_opt_time]; [|discriminate].
  destruct (datetime_add t0 d) as [t1|e'] eqn:E; cbn [bind]; [discriminate|].
  intros H; inversion H; subst. eapply datetime_add_raise; exact E.
Qed.

Lemma mapM_raise {A B : Type} (f : A -> Result B) (xs : list A) (e : exn) :
  mapM f xs = Raise e -> exists x, In x xs /\ f x = Raise e.
Proof.
  induction xs as [|x xs IH]; cbn [mapM]; [discriminate|].
  destruct (f x) as [y|e'] eqn:Hx; cbn [bind].
  - destruct (mapM f xs) as [ys|e'']; cbn [bind]; [discriminate|].
    intros H; inversion H; subst.
    destruct (IH eq_refl) as (x' & Hin & Hx'). exists x'. split; [right|]; auto.
  - intros H; inversion H; subst. exists x. split; [left|]; auto.
Qed.

Lemma _apply_shift_loops g d :
  _apply_shift g d =
  let* new_tracks := mapM (shift_track d) (tracks g) in
  let* new_waypoints := mapM (shift_point true d) (waypoints g) in
  let* new_routes := mapM (shift_route d) (routes g) in
  Ok (mk_GPX (creator g) (version g) new_tracks new_waypoints new_routes).
Proof. reflexivity. Qed.

Lemma shift_point_raise k d p e : shift_point k d p = Raise e -> e = OverflowError.
Proof.
  unfold shift_point.
  destruct (shift_opt_time (time p) d) as [t|e'] eqn:E; cbn [bind]; [discriminate|].
  intros H; inversion H; subst. eapply shift_opt_time_raise; exact E.
Qed.

Lemma mapM_raise_with {A B : Type} (f : A -> Result B) (xs : list A) (e : exn) :
  (forall x e', f x = Raise e' -> e' = OverflowError) ->
  mapM f xs = Raise e -> e = OverflowError.
Proof.
  intros Hf H. apply mapM_raise in H as (x & _ & Hx). eapply Hf; exact Hx.
Qed.

Lemma shift_segment_raise d sg e : shift_segment d sg = Raise e -> e = OverflowError.
Proof.
  unfold shift_segment.
  destruct (mapM _ _) as [ps|e'] eqn:E; cbn [bind]; [discriminate|].
  intros H; inversion H; subst.
  eapply mapM_raise_with; [|exact E]. apply shift_point_raise.
Qed.

Lemma shift_track_raise d trk e : shift_track d trk = Raise e -> e = OverflowError.
Proof.
  unfold shift_track.
  destruct (mapM _ _) as [sgs|e'] eqn:E; cbn [bind]; [discriminate|].
  intros H; inversion H; subst.
  eapply mapM_raise_with; [|exact E]. apply shift_segment_raise.
Qed.

Lemma shift_route_raise d rt e : shift_route d rt = Raise e -> e = OverflowError.
Proof.
  unfold shift_route.
  destruct (mapM _ _) as [ps|e'] eqn:E; cbn [bind]; [discriminate|].
  intros H; inversion H; subst.
  eapply mapM_raise_with; [|exact E]. apply shift_point_raise.
Qed.

Lemma _apply_shift_raise g d e : _apply_shift g d = Raise e -> e = OverflowError.
Proof.
  rewrite _apply_shift_loops.
  destruct (mapM (shift_track d) (tracks g)) as [trks|e1] eqn:E1; cbn [bind].
  2: { intros H; inversion H; subst.
       eapply mapM_raise_with; [|exact E1]. apply shift_track_raise. }
  destruct (mapM (shift_point true d) (waypoints g)) as [wps|e2] eqn:E2; cbn [bind].
  2: { intros H; inversion H; subst.
       eapply mapM_raise_with; [|exact E2]. apply shift_point_raise. }
  destruct (mapM (shift_route d) (routes g)) as [rts|e3] eqn:E3; cbn [bind];
    [discriminate|].
  intros H; inversion H; subst.
  eapply mapM_raise_with; [|exact E3]. apply shift_route_raise.
Qed.

Lemma timedelta_check_raise us e : timedelta_check us = Raise e -> e = OverflowError.
Proof.
  unfold timedelta_check. destruct (_ && _); [discriminate|].
  intros H; inversion H; reflexivity.
Qed.

(** What a call of [shift_time] that raises has done. *)
Lemma shift_time_raise hours self self' e :
  shift_time hours self = (Raise e, self') ->
  e = OverflowError /\
  gpx_file_path self' = gpx_file_path self /\
  original_gpx_path self' = original_gpx_path self /\
  original_gpx_text self' = original_gpx_text self /\
  original_gpx self' = original_gpx self /\
  current_gpx self' = current_gpx self /\
  display_utc self' = display_utc self /\
  (time_shift self' = time_shift self \/
   (time_shift self' = time_shift self + hours * US_PER_HOUR /\
    _apply_shift (original_gpx self) (time_shift self') = Raise e)).
Proof.
  unfold shift_time, timedelta_hours, timedelta_add.
  destruct (timedelta_check (hours * US_PER_HOUR)) as [d|e1] eqn:Hd;
    cbn [bind].
  2: { apply timedelta_check_raise in Hd. subst e1.
       intros H; inversion H; subst. repeat split; auto. }
  apply timedelta_check_ok in Hd. subst d.
  destruct (timedelta_check (time_shift self + hours * US_PER_HOUR))
    as [t|e2] eqn:Ht.
  2: { apply timedelta_check_raise in Ht. subst e2.
       intros H; inversion H; subst. repeat split; auto. }
  apply timedelta_check_ok in Ht. subst t. cbn [original_gpx time_shift].
  destruct (_apply_shift (original_gpx self)
              (time_shift self + hours * US_PER_HOUR)) as [g|e3] eqn:Hg;
    [discriminate|].
  intros H; inversion H; subst e3 self'.
  cbn [gpx_file_path original_gpx_path original_gpx_text original_gpx
       current_gpx display_utc time_shift].
  pose proof (_apply_shift_raise _ _ _ Hg) as He.
  repeat split; auto.
Qed.

(** X1.  A call of [shift_time] that raises, raises [OverflowError].  It
    leaves the paths, the original text, both parsed documents and the
    display flag as they were; the shift is either untouched (the duration
    could not be built or added) or already advanced by the hours asked
    (the points could not be shifted), in which case [current_gpx] no
    longer corresponds to it. *)
Theorem shift_time_raise_behaviour
  (hours : Z) (self self' : GPXShiftApp) (e : exn) :
  shift_time hours self = (Raise e, self') ->
  e = OverflowError /\
  gpx_file_path self' = gpx_file_path self /\
  original_gpx_path self' = original_gpx_path self /\
  original_gpx_text self' = original_gpx_text self /\
  original_gpx self' = original_gpx self /\
  current_gpx self' = current_gpx self /\
  display_utc self' = display_utc self /\
  (time_shift self' = time_shift self \/
   (time_shift self' = time_shift self + hours * US_PER_HOUR /\
    _apply_shift (original_gpx self) (time_shift self') = Raise e)).
Proof. apply shift_time_raise. Qed.

Lemma shift_time_raise_behaviour_witness :
  OverflowError = OverflowError /\
  gpx_file_path (snd (shift_time 69921000 sample_app)) = gpx_file_path sample_app /\
  original_gpx_path (snd (shift_time 69921000 sample_app)) =
    original_gpx_path sample_app /\
  original_gpx_text (snd (shift_time 69921000 sample_app)) =
    original_gpx_text sample_app /\
  original_gpx (snd (shift_time 69921000 sample_app)) = original_gpx sample_app /\
  current_gpx (snd (shift_time 69921000 sample_app)) = current_gpx sample_app /\
  display_utc (snd (shift_time 69921000 sample_app)) = display_utc sample_app /\
  (time_shift (snd (shift_time 69921000 sample_app)) = time_shift sample_app \/
   (time_shift (snd (shift_time 69921000 sample_app)) =
      time_shift sample_app + 69921000 * US_PER_HOUR /\
    _apply_shift (original_gpx sample_app)
      (time_shift (snd (shift_time 69921000 sample_app))) = Raise OverflowError)).
Proof.
  apply (shift_time_raise_behaviour 69921000 sample_app
           (snd (shift_time 69921000 sample_app)) OverflowError).
  vm_compute. reflexivity.
Defined.

Lemma do_call_keeps c self r self' :
  do_call c self = (r, self') ->
  gpx_file_path self' = gpx_file_path self /\
  original_gpx_path self' = original_gpx_path self /\
  original_gpx_text self' = original_gpx_text self /\
  original_gpx self' = original_gpx self /\
  exists k, time_shift self' = time_shift self + k * US_PER_HOUR.
Proof.
  destruct c as [hours|]; cbn [do_call].
  - destruct r as [[]|e]; intros H.
    + apply shift_time_ok in H as (_ & _ & Ht & _ & Hf & Hp & Hx & Hg & _).
      repeat split; auto. exists hours. exact Ht.
    + apply shift_time_raise in H
        as (_ & Hf & Hp & Hx & Hg & _ & _ & [Ht|[Ht _]]).
      * repeat split; auto. exists 0. lia.
      * repeat split; auto. exists hours. exact Ht.
  - intros H; inversion H; subst. cbn. repeat split; auto. exists 0. lia.
Qed.

(** X2.  Whatever sequence of [shift_time] and [toggle_display_mode] calls
    is made on a session, and whether or not it ends in an exception, the
    file path, the source path, the original text and the original parsed
    document are never modified, and the shift moves by a whole number of
    hours.  From a session with a zero shift, the hour count of
    [get_shift_hours] is therefore exact: times one hour, it is the
    shift. *)
Theorem do_calls_invariants
  (cs : list session_call) (self : GPXShiftApp) (r : Result unit)
  (self' : GPXShiftApp) :
  do_calls cs self = (r, self') ->
  gpx_file_path self' = gpx_file_path self /\
  original_gpx_path self' = original_gpx_path self /\
  original_gpx_text self' = original_gpx_text self /\
  original_gpx self' = original_gpx self /\
  (exists k, time_shift self' = time_shift self + k * US_PER_HOUR) /\
  (time_shift self = 0 ->
   get_shift_hours self' * US_PER_HOUR = time_shift self').
Proof.
  revert self. induction cs as [|c cs IH]; intros self H; cbn [do_calls] in H.
  - inversion H; subst. repeat split; auto.
    + exists 0. lia.
    + intros Hz. unfold get_shift_hours, total_seconds_floordiv_3600.
      rewrite Hz. reflexivity.
  - destruct (do_call c self) as [r1 self1] eqn:Hc.
    apply do_call_keeps in Hc as (Hf & Hp & Hx & Hg & k1 & Hk1).
    assert (Hend : gpx_file_path self' = gpx_file_path self1 /\
                   original_gpx_path self' = original_gpx_path self1 /\
                   original_gpx_text self' = original_gpx_text self1 /\
                   original_gpx self' = original_gpx self1 /\
                   exists k, time_shift self' = time_shift self1 + k * US_PER_HOUR).
    { destruct r1 as [u|e].
      - apply IH in H as (? & ? & ? & ? & ? & _). auto.
      - inversion H; subst. repeat split; auto. exists 0. lia. }
    destruct Hend as (Hf' & Hp' & Hx' & Hg' & k2 & Hk2).
    repeat split; try congruence.
    + exists (k1 + k2). lia.
    + intros Hz. unfold get_shift_hours, total_seconds_floordiv_3600.
      rewrite Hk2, Hk1, Hz. unfold US_PER_HOUR, US_PER_SECOND. lia.
Qed.

Lemma do_calls_invariants_witness :
  let cs := [CallShift 1; CallToggle; CallShift 1; CallShift (-1); CallShift 69921000] in
  gpx_file_path (snd (do_calls cs sample_app)) = gpx_file_path sample_app /\
  original_gpx_path (snd (do_calls cs sample_app)) = original_gpx_path sample_app /\
  original_gpx_text (snd (do_calls cs sample_app)) = original_gpx_text sample_app /\
  original_gpx (snd (do_calls cs sample_app)) = original_gpx sample_app /\
  (exists k, time_shift (snd (do_calls cs sample_app)) =
             time_shift sample_app + k * US_PER_HOUR) /\
  (time_shift sample_app = 0 ->
   get_shift_hours (snd (do_calls cs sample_app)) * US_PER_HOUR =
     time_shift (snd (do_calls cs sample_app))).
Proof.
  apply (do_calls_invariants
           [CallShift 1; CallToggle; CallShift 1; CallShift (-1); CallShift 69921000]
           sample_app
           (fst (do_calls [CallShift 1; CallToggle; CallShift 1; CallShift (-1);
                           CallShift 69921000] sample_app))).
  vm_compute. reflexivity.
Defined.

(** X3.  When a sequence of calls returns on a session with a zero shift,
    the session holds the net number of hours: [get_shift_hours] is the sum
    of the hours of the [shift_time] calls, the shift is that many hours,
    the display flag has been flipped once per [toggle_display_mode] call,
    and what a save writes is the original text rewritten by the net
    shift. *)
Theorem do_calls_net_hours
  (cs : list session_call) (self self' : GPXShiftApp) :
  time_shift self = 0 ->
  do_calls cs self = (Ok tt, self') ->
  get_shift_hours self' = net_hours cs /\
  time_shift self' = net_hours cs * US_PER_HOUR /\
  display_utc self' = (if Nat.even (toggles cs) then display_utc self
                       else negb (display_utc self)) /\
  shift_gpx_times (original_gpx_text self') (time_shift self') =
    shift_gpx_times (original_gpx_text self) (net_hours cs * US_PER_HOUR).
Proof.
  intros Hz H.
  assert (Hgen : forall cs s s',
    do_calls cs s = (Ok tt, s') ->
    time_shift s' = time_shift s + net_hours cs * US_PER_HOUR /\
    display_utc s' = (if Nat.even (toggles cs) then display_utc s
                      else negb (display_utc s)) /\
    original_gpx_text s' = original_gpx_text s).
  { clear. induction cs as [|c cs IH]; intros s s' H; cbn [do_calls] in H.
    - inversion H; subst. cbn. repeat split; auto. lia.
    - destruct (do_call c s) as [[[]|e] s1] eqn:Hc; [|discriminate].
      apply IH in H as (Ht & Hd & Hx).
      destruct c as [hours|]; cbn [do_call net_hours toggles] in *.
      + apply shift_time_ok in Hc as (_ & _ & Ht1 & _ & _ & _ & Hx1 & _ & Hd1).
        split; [rewrite Ht, Ht1; lia|]. split; [|congruence].
        rewrite Hd, Hd1. reflexivity.
      + inversion Hc; subst s1.
        change (time_shift (toggle_display_mode s)) with (time_shift s) in Ht.
        change (display_utc (toggle_display_mode s))
          with (negb (display_utc s)) in Hd.
        change (original_gpx_text (toggle_display_mode s))
          with (original_gpx_text s) in Hx.
        split; [exact Ht|]. split; [|exact Hx].
        rewrite Hd, Nat.even_succ, <- Nat.negb_even.
        destruct (Nat.even (toggles cs)), (display_utc s); reflexivity. }
  apply Hgen in H as (Ht & Hd & Hx). rewrite Hz in Ht.
  assert (Ht' : time_shift self' = net_hours cs * US_PER_HOUR) by lia.
  repeat split; auto.
  - unfold get_shift_hours, total_seconds_floordiv_3600. rewrite Ht'.
    unfold US_PER_HOUR, US_PER_SECOND. lia.
  - rewrite Hx, Ht'. reflexivity.
Qed.

Lemma do_calls_net_hours_witness :
  let cs := [CallShift 1; CallToggle; CallShift 1; CallShift (-1); CallShift 1] in
  get_shift_hours (snd (do_calls cs sample_app)) = net_hours cs /\
  time_shift (snd (do_calls cs sample_app)) = net_hours cs * US_PER_HOUR /\
  display_utc (snd (do_calls cs sample_app)) =
    (if Nat.even (toggles cs) then display_utc sample_app
     else negb (display_utc sample_app)) /\
  shift_gpx_times (original_gpx_text (snd (do_calls cs sample_app)))
    (time_shift (snd (do_calls cs sample_app))) =
    shift_gpx_times (original_gpx_text sample_app) (net_hours cs * US_PER_HOUR).
Proof.
  apply (do_calls_net_hours
           [CallShift 1; CallToggle; CallShift 1; CallShift (-1); CallShift 1]
           sample_app).
  - reflexivity.
  - vm_compute. reflexivity.
Defined.

(** X4.  [toggle_display_mode] only flips the display flag: called twice it
    gives the session back, it commutes with [shift_time], and it changes
    neither the shift, nor the default output path, nor the outcome of any
    save. *)
Theorem toggle_display_mode_only_display (self : GPXShiftApp) :
  toggle_display_mode (toggle_display_mode self) = self /\
  display_utc (toggle_display_mode self) = negb (display_utc self) /\
  time_shift (toggle_display_mode self) = time_shift self /\
  (forall hours,
     shift_time hours (toggle_display_mode self) =
       (fst (shift_time hours self),
        toggle_display_mode (snd (shift_time hours self)))) /\
  get_default_output_path (toggle_display_mode self) =
    get_default_output_path self /\
  (forall output_file_path w,
     save_outcome (toggle_display_mode self) output_file_path w =
       save_outcome self output_file_path w).
Proof.
  split.
  { destruct self. unfold toggle_display_mode. cbn. rewrite negb_involutive.
    reflexivity. }
  split; [reflexivity|]. split; [reflexivity|]. split.
  { intros hours. unfold shift_time. cbn.
    destruct (bind (timedelta_hours hours) _) as [t|e]; [|reflexivity].
    destruct (_apply_shift (original_gpx self) t); reflexivity. }
  split; [reflexivity|].
  intros o w. apply save_outcome_ext; reflexivity.
Qed.

(** ** The copy of the parsed document: [_apply_shift] *)

Lemma mapM_Forall2 {A B : Type} (f : A -> Result B) xs ys :
  mapM f xs = Ok ys <-> Forall2 (fun x y => f x = Ok y) xs ys.
Proof.
  revert ys. induction xs as [|x xs IH]; intros ys; cbn [mapM].
  - split.
    + intros H; inversion H. constructor.
    + intros H; inversion H. reflexivity.
  - split.
    + destruct (f x) as [y|e] eqn:Hx; cbn [bind]; [|discriminate].
      destruct (mapM f xs) as [ys'|e]; cbn [bind]; [|discriminate].
      intros H; inversion H; subst. constructor; [exact Hx|]. apply IH. reflexivity.
    + intros H; inversion H as [|x0 y l l' Hx Hl]; subst. rewrite Hx. cbn [bind].
      apply IH in Hl. rewrite Hl. reflexivity.
Qed.

Lemma Forall2_weaken {A B : Type} (P Q : A -> B -> Prop) xs ys :
  (forall x y, P x y -> Q x y) -> Forall2 P xs ys -> Forall2 Q xs ys.
Proof. intros HPQ. induction 1; constructor; auto. Qed.

Lemma Forall2_map_eq {A B C : Type} (f : A -> C) (g : B -> C) xs ys :
  Forall2 (fun x y => g y = f x) xs ys -> map g ys = map f xs.
Proof. induction 1; cbn; congruence. Qed.

Lemma Forall2_concat_map {A B C D : Type} (P : A -> B -> Prop)
  (Q : C -> D -> Prop) (f : A -> list C) (g : B -> list D) xs ys :
  (forall x y, P x y -> Forall2 Q (f x) (g y)) ->
  Forall2 P xs ys -> Forall2 Q (concat (map f xs)) (concat (map g ys)).
Proof.
  intros H. induction 1 as [|x y xs ys Hxy _ IH]; cbn; [constructor|].
  apply Forall2_app; [apply H; exact Hxy|exact IH].
Qed.

Lemma shift_point_ok k d p p' :
  shift_point k d p = Ok p' ->
  point_shifted d p p' /\
  point_name p' = (if k then point_name p else None).
Proof.
  unfold shift_point, point_shifted.
  destruct (shift_opt_time (time p) d) as [t|e]; cbn [bind]; [|discriminate].
  intros H; inversion H; subst; cbn. repeat split; reflexivity.
Qed.

Lemma shift_points_ok k d ps ps' :
  mapM (shift_point k d) ps = Ok ps' ->
  Forall2 (point_shifted d) ps ps' /\
  Forall2 (fun p p' => point_name p' = (if k then point_name p else None)) ps ps'.
Proof.
  intros H. apply mapM_Forall2 in H. split.
  - eapply Forall2_weaken; [|exact H]. intros x y Hxy.
    apply shift_point_ok in Hxy. tauto.
  - eapply Forall2_weaken; [|exact H]. intros x y Hxy.
    apply shift_point_ok in Hxy. tauto.
Qed.

Lemma shift_segment_ok d sg sg' :
  shift_segment d sg = Ok sg' ->
  mapM (shift_point false d) (segment_points sg) = Ok (segment_points sg').
Proof.
  unfold shift_segment.
  destruct (mapM _ _) as [ps|e]; cbn [bind]; [|discriminate].
  intros H; inversion H; reflexivity.
Qed.

Lemma shift_track_ok d trk trk' :
  shift_track d trk = Ok trk' ->
  track_name trk' = track_name trk /\
  mapM (shift_segment d) (segments trk) = Ok (segments trk').
Proof.
  unfold shift_track.
  destruct (mapM _ _) as [sgs|e]; cbn [bind]; [|discriminate].
  intros H; inversion H; auto.
Qed.

Lemma shift_route_ok d rt rt' :
  shift_route d rt = Ok rt' ->
  route_name rt' = route_name rt /\
  mapM (shift_point false d) (route_points rt) = Ok (route_points rt').
Proof.
  unfold shift_route.
  destruct (mapM _ _) as [ps|e]; cbn [bind]; [|discriminate].
  intros H; inversion H; auto.
Qed.

Lemma _apply_shift_ok g d g' :
  _apply_shift g d = Ok g' ->
  creator g' = creator g /\ version g' = version g /\
  Forall2 (fun trk trk' => shift_track d trk = Ok trk') (tracks g) (tracks g') /\
  mapM (shift_point true d) (waypoints g) = Ok (waypoints g') /\
  Forall2 (fun rt rt' => shift_route d rt = Ok rt') (routes g) (routes g').
Proof.
  rewrite _apply_shift_loops.
  destruct (mapM (shift_track d) (tracks g)) as [trks|e] eqn:E1; cbn [bind];
    [|discriminate].
  destruct (mapM (shift_point true d) (waypoints g)) as [wps|e] eqn:E2;
    cbn [bind]; [|discriminate].
  destruct (mapM (shift_route d) (routes g)) as [rts|e] eqn:E3; cbn [bind];
    [|discriminate].
  intros H; inversion H; subst; cbn.
  apply mapM_Forall2 in E1, E3. auto.
Qed.

Lemma Forall2_length_eq {A B : Type} (P : A -> B -> Prop) xs ys :
  Forall2 P xs ys -> length ys = length xs.
Proof. induction 1; cbn; congruence. Qed.

Lemma shift_track_segments d trk trk' :
  shift_track d trk = Ok trk' ->
  Forall2 (fun sg sg' => mapM (shift_point false d) (segment_points sg)
                         = Ok (segment_points sg'))
    (segments trk) (segments trk').
Proof.
  intros Ht. apply shift_track_ok in Ht as [_ Ht].
  apply mapM_Forall2 in Ht. eapply Forall2_weaken; [|exact Ht].
  intros sg sg'. apply shift_segment_ok.
Qed.

(** The points of the copy are the points of the document, one for one. *)
Lemma _apply_shift_points g d g' :
  _apply_shift g d = Ok g' ->
  Forall2 (point_shifted d) (gpx_points g) (gpx_points g').
Proof.
  intros H. apply _apply_shift_ok in H as (_ & _ & Htr & Hw & Hrt).
  apply shift_points_ok in Hw as [Hw _].
  unfold gpx_points. repeat apply Forall2_app.
  - eapply Forall2_concat_map; [|exact Htr]. intros trk trk' Ht.
    eapply Forall2_concat_map; [|apply shift_track_segments; exact Ht].
    intros sg sg' Hs. apply shift_points_ok in Hs. tauto.
  - exact Hw.
  - eapply Forall2_concat_map; [|exact Hrt]. intros rt rt' Hr.
    apply shift_route_ok in Hr as [_ Hr]. apply shift_points_ok in Hr. tauto.
Qed.

(** X5.  When [_apply_shift] returns, the copy has the creator, the
    version, the track names, the route names and the waypoint names of the
    document, the same numbers of tracks, segments, points, waypoints and
    routes, and its points are, in order, the points of the document with
    the latitude or 0, the longitude or 0 (what the constructors of the
    points store: a zero, [-0.0] too, becomes the [int] 0) and the same
    elevation.  The names of track points and route points are not copied:
    they are all [None]. *)
Theorem _apply_shift_keeps_structure (g g' : GPX) (d : timedelta) :
  _apply_shift g d = Ok g' ->
  creator g' = creator g /\ version g' = version g /\
  map track_name (tracks g') = map track_name (tracks g) /\
  map route_name (routes g') = map route_name (routes g) /\
  map point_name (waypoints g') = map point_name (waypoints g) /\
  gpx_shape g' = gpx_shape g /\
  map latitude (gpx_points g') =
    map (fun p => or_0 (latitude p)) (gpx_points g) /\
  map longitude (gpx_points g') =
    map (fun p => or_0 (longitude p)) (gpx_points g) /\
  map elevation (gpx_points g') = map elevation (gpx_points g) /\
  Forall (fun p => point_name p = None) (gpx_track_route_points g').
Proof.
  intros H. pose proof (_apply_shift_points _ _ _ H) as Hall.
  apply _apply_shift_ok in H as (Hc & Hv & Htr & Hw & Hrt).
  apply shift_points_ok in Hw as [Hw Hwn].
  pose proof shift_track_segments as Hsegs. specialize (Hsegs d).
  split; [exact Hc|]. split; [exact Hv|].
  split.
  { apply Forall2_map_eq. eapply Forall2_weaken; [|exact Htr].
    intros trk trk' Ht. apply shift_track_ok in Ht. tauto. }
  split.
  { apply Forall2_map_eq. eapply Forall2_weaken; [|exact Hrt].
    intros rt rt' Hr. apply shift_route_ok in Hr. tauto. }
  split.
  { apply Forall2_map_eq. exact Hwn. }
  split.
  { unfold gpx_shape. f_equal; [f_equal|].
    - apply Forall2_map_eq. eapply Forall2_weaken; [|exact Htr].
      intros trk trk' Ht. apply Forall2_map_eq.
      eapply Forall2_weaken; [|apply Hsegs; exact Ht].
      intros sg sg' Hs. apply mapM_Forall2 in Hs.
      apply Forall2_length_eq in Hs. exact Hs.
    - eapply Forall2_length_eq. exact Hw.
    - apply Forall2_map_eq. eapply Forall2_weaken; [|exact Hrt].
      intros rt rt' Hr. apply shift_route_ok in Hr as [_ Hr].
      apply mapM_Forall2 in Hr. apply Forall2_length_eq in Hr. exact Hr. }
  split.
  { apply Forall2_map_eq. eapply Forall2_weaken; [|exact Hall].
    unfold point_shifted. tauto. }
  split.
  { apply Forall2_map_eq. eapply Forall2_weaken; [|exact Hall].
    unfold point_shifted. tauto. }
  split.
  { apply Forall2_map_eq. eapply Forall2_weaken; [|exact Hall].
    unfold point_shifted. tauto. }
  assert (Hnone : forall ps ps', mapM (shift_point false d) ps = Ok ps' ->
            Forall (fun p => point_name p = None) ps').
  { intros ps ps' Hp. apply shift_points_ok in Hp as [_ Hp].
    clear -Hp. induction Hp; constructor; auto. }
  unfold gpx_track_route_points. apply Forall_app. split.
  - apply Forall_concat. apply List.Forall_forall. intros l Hl.
    apply in_map_iff in Hl as (trk' & <- & Hin).
    apply Forall_concat. apply List.Forall_forall. intros l Hl.
    apply in_map_iff in Hl as (sg' & <- & Hin').
    clear -Htr Hin Hin' Hsegs Hnone.
    induction Htr as [|trk t' trks ts' Ht _ IH]; [destruct Hin|].
    destruct Hin as [->|Hin]; [|auto].
    pose proof (Hsegs _ _ Ht) as Hs. clear -Hs Hin' Hnone.
    induction Hs as [|sg s' sgs ss' Hsg _ IH]; [destruct Hin'|].
    destruct Hin' as [->|Hin']; [|auto]. eapply Hnone; exact Hsg.
  - apply Forall_concat. apply List.Forall_forall. intros l Hl.
    apply in_map_iff in Hl as (rt' & <- & Hin).
    clear -Hrt Hin Hnone.
    induction Hrt as [|rt r' rts rs' Hr _ IH]; [destruct Hin|].
    destruct Hin as [->|Hin]; [|auto].
    apply shift_route_ok in Hr as [_ Hr]. eapply Hnone; exact Hr.
Qed.

Lemma _apply_shift_keeps_structure_witness :
  let g := original_gpx sample_app in
  let g' := current_gpx (snd (shift_time 3 sample_app)) in
  creator g' = creator g /\ version g' = version g /\
  map track_name (tracks g') = map track_name (tracks g) /\
  map route_name (routes g') = map route_name (routes g) /\
  map point_name (waypoints g') = map point_name (waypoints g) /\
  gpx_shape g' = gpx_shape g /\
  map latitude (gpx_points g') =
    map (fun p => or_0 (latitude p)) (gpx_points g) /\
  map longitude (gpx_points g') =
    map (fun p => or_0 (longitude p)) (gpx_points g) /\
  map elevation (gpx_points g') = map elevation (gpx_points g) /\
  Forall (fun p => point_name p = None) (gpx_track_route_points g').
Proof.
  apply (_apply_shift_keeps_structure (original_gpx sample_app)
           (current_gpx (snd (shift_time 3 sample_app))) (3 * US_PER_HOUR)).
  vm_compute. reflexivity.
Defined.

(** What the constructors of the points store for a coordinate. *)
Example or_0_examples :
  or_0 (PyFloat (PrimFloat.opp 0%float)) = PyInt 0 /\
  or_0 (PyFloat 0%float) = PyInt 0 /\
  or_0 (PyFloat 43.5%float) = PyFloat 43.5%float /\
  or_0 (PyFloat PrimFloat.nan) = PyFloat PrimFloat.nan.
Proof. repeat split; vm_compute; reflexivity. Qed.

(** X6.  When [_apply_shift] returns, every point of the copy that
    corresponds to a point with a time carries that time plus the
    duration, and every point that corresponds to a point without a time
    carries none. *)
Theorem _apply_shift_shifts_every_time (g g' : GPX) (d : timedelta) :
  _apply_shift g d = Ok g' ->
  Forall2
    (fun p p' =>
       match time p with
       | Some t => exists t', datetime_add t d = Ok t' /\ time p' = Some t'
       | None => time p' = None
       end)
    (gpx_points g) (gpx_points g').
Proof.
  intros H. apply _apply_shift_points in H.
  eapply Forall2_weaken; [|exact H].
  intros p p' (_ & _ & _ & Ht). unfold shift_opt_time in Ht.
  destruct (time p) as [t|].
  - destruct (datetime_add t d) as [t'|e]; cbn [bind] in Ht; [|discriminate].
    inversion Ht. exists t'. auto.
  - inversion Ht. reflexivity.
Qed.

Lemma _apply_shift_shifts_every_time_witness :
  Forall2
    (fun p p' =>
       match time p with
       | Some t => exists t', datetime_add t (3 * US_PER_HOUR) = Ok t' /\
                              time p' = Some t'
       | None => time p' = None
       end)
    (gpx_points (original_gpx sample_app))
    (gpx_points (current_gpx (snd (shift_time 3 sample_app)))).
Proof.
  apply (_apply_shift_shifts_every_time (original_gpx sample_app)
           (current_gpx (snd (shift_time 3 sample_app))) (3 * US_PER_HOUR)).
  vm_compute. reflexivity.
Defined.

Lemma mapM_returns {A B : Type} (f : A -> Result B) xs :
  Forall (fun x => exists y, f x = Ok y) xs -> exists ys, mapM f xs = Ok ys.
Proof.
  induction 1 as [|x xs [y Hy] _ [ys IH]]; cbn [mapM].
  - eexists. reflexivity.
  - rewrite Hy. cbn [bind]. rewrite IH. eexists. reflexivity.
Qed.

Lemma shift_point_returns k d p :
  (forall t, time p = Some t -> exists t', datetime_add t d = Ok t') ->
  exists p', shift_point k d p = Ok p'.
Proof.
  intros H. unfold shift_point, shift_opt_time.
  destruct (time p) as [t|]; cbn [bind].
  - destruct (H t eq_refl) as [t' Ht']. rewrite Ht'. eexists. reflexivity.
  - eexists. reflexivity.
Qed.

(** X7.  [_apply_shift] returns exactly when every time of the document,
    moved by the duration, stays within the years 1 to 9999; a document
    without times is always copied. *)
Theorem _apply_shift_returns_iff (g : GPX) (d : timedelta) :
  (exists g', _apply_shift g d = Ok g') <->
  Forall (fun p => forall t, time p = Some t ->
                   exists t', datetime_add t d = Ok t') (gpx_points g).
Proof.
  split.
  - intros [g' H]. apply _apply_shift_points in H.
    induction H as [|p p' ps ps' Hp _ IH]; constructor; [|exact IH].
    intros t Ht. destruct Hp as (_ & _ & _ & Hp). rewrite Ht in Hp.
    cbn [shift_opt_time] in Hp.
    destruct (datetime_add t d) as [t'|e]; [eauto|discriminate].
  - unfold gpx_points. intros H.
    apply Forall_app in H as [Htr H]. apply Forall_app in H as [Hw Hrt].
    assert (Hpts : forall k ps,
              Forall (fun p => forall t, time p = Some t ->
                               exists t', datetime_add t d = Ok t') ps ->
              exists ps', mapM (shift_point k d) ps = Ok ps').
    { intros k ps Hps. apply mapM_returns.
      eapply Forall_impl; [exact Hps|]. intros p Hp.
      apply shift_point_returns. exact Hp. }
    rewrite _apply_shift_loops.
    assert (H1 : exists trks, mapM (shift_track d) (tracks g) = Ok trks).
    { apply mapM_returns. apply List.Forall_forall. intros trk Hin.
      unfold shift_track.
      assert (H2 : exists sgs, mapM (shift_segment d) (segments trk) = Ok sgs).
      { apply mapM_returns. apply List.Forall_forall. intros sg Hin'.
        unfold shift_segment.
        destruct (Hpts false (segment_points sg)) as [ps Hps].
        { rewrite Forall_concat in Htr. rewrite List.Forall_forall in Htr.
          specialize (Htr _ (in_map _ _ _ Hin)). cbn beta in Htr.
          rewrite Forall_concat in Htr. rewrite List.Forall_forall in Htr.
          apply Htr. apply in_map. exact Hin'. }
        rewrite Hps. eexists. reflexivity. }
      destruct H2 as [sgs H2]. rewrite H2. eexists. reflexivity. }
    destruct H1 as [trks H1]. rewrite H1. cbn [bind].
    destruct (Hpts true _ Hw) as [wps H2]. rewrite H2. cbn [bind].
    assert (H3 : exists rts, mapM (shift_route d) (routes g) = Ok rts).
    { apply mapM_returns. apply List.Forall_forall. intros rt Hin.
      unfold shift_route.
      destruct (Hpts false (route_points rt)) as [ps Hps].
      { rewrite Forall_concat in Hrt. rewrite List.Forall_forall in Hrt.
        apply Hrt. apply in_map. exact Hin. }
      rewrite Hps. eexists. reflexivity. }
    destruct H3 as [rts H3]. rewrite H3. eexists. reflexivity.
Qed.

(** ** More on output paths and saving *)

(** The new name that [get_default_output_path] gives the file. *)
Lemma get_default_output_path_ok self p :
  get_default_output_path self = Ok p ->
  exists new_name,
    new_name =
      stem (original_gpx_path self) ++
      ("_" ++ (if 0 <=? get_shift_hours self then "p" else "m") ++
       str_of_int (Z.abs (get_shift_hours self))) ++
      suffix (original_gpx_path self) /\
    name (original_gpx_path self) <> EmptyString /\
    new_name <> EmptyString /\ new_name <> "." /\ has_slash new_name = false /\
    p = mk_Path (root (original_gpx_path self))
          (removelast (tail (original_gpx_path self)) ++ [new_name]).
Proof.
  unfold get_default_output_path. cbv zeta.
  set (new_name := stem (original_gpx_path self) ++ _ ++ _).
  unfold with_name.
  destruct (String.eqb (name (original_gpx_path self)) EmptyString) eqn:E0;
    [discriminate|].
  destruct (String.eqb new_name EmptyString) eqn:E1; [discriminate|].
  destruct (has_slash new_name) eqn:E2; [discriminate|].
  destruct (String.eqb new_name ".") eqn:E3; [discriminate|].
  cbn [orb]. intros H; inversion H.
  exists new_name. apply String.eqb_neq in E0, E1, E3.
  repeat split; auto.
Qed.

Lemma take_drop_chars n s : take_chars n s ++ drop_chars n s = s.
Proof.
  revert s. induction n as [|n IH]; intros [|c s]; cbn; try reflexivity.
  rewrite IH. reflexivity.
Qed.

Lemma stem_suffix_name p : stem p ++ suffix p = name p.
Proof.
  unfold stem, suffix. destruct (suffix_index (name p)).
  - apply take_drop_chars.
  - apply append_nil_r.
Qed.

(** X8.  The default output path lies in the directory of the source file,
    and its name is longer than the name of the source file: saving under
    the default name never replaces the source. *)
Theorem get_default_output_path_beside_source (self : GPXShiftApp) (p : Path) :
  get_default_output_path self = Ok p ->
  parent p = parent (original_gpx_path self) /\
  (String.length (name (original_gpx_path self)) < String.length (name p))%nat /\
  p <> original_gpx_path self.
Proof.
  intros H. apply get_default_output_path_ok in H
    as (new_name & Hnew & Hname & _ & _ & _ & ->).
  set (source := original_gpx_path self) in *.
  assert (Hn : name (mk_Path (root source) (removelast (tail source) ++ [new_name]))
               = new_name).
  { unfold name. cbn [tail]. apply last_last. }
  assert (Hlen : (String.length (name source) < String.length new_name)%nat).
  { rewrite <- (stem_suffix_name source), Hnew, !length_append.
    cbn [String.length]. lia. }
  split.
  - unfold parent. cbn [tail root].
    destruct (removelast (tail source) ++ [new_name])%list eqn:E.
    { destruct (removelast (tail source)); discriminate. }
    rewrite <- E, removelast_last.
    destruct (tail source) eqn:Et; [|reflexivity].
    exfalso. apply Hname. unfold name. rewrite Et. reflexivity.
  - split; [rewrite Hn; exact Hlen|].
    intros Heq. rewrite <- Heq in Hlen at 1. rewrite Hn in Hlen. lia.
Qed.

Lemma get_default_output_path_beside_source_witness :
  parent (parse "/tmp/x/morning_run_p3.gpx") =
    parent (original_gpx_path (snd (shift_time 3 sample_app))) /\
  (String.length (name (original_gpx_path (snd (shift_time 3 sample_app)))) <
   String.length (name (parse "/tmp/x/morning_run_p3.gpx")))%nat /\
  parse "/tmp/x/morning_run_p3.gpx" <>
    original_gpx_path (snd (shift_time 3 sample_app)).
Proof.
  apply (get_default_output_path_beside_source (snd (shift_time 3 sample_app))).
  vm_compute. reflexivity.
Defined.

Lemma append_inj_r (a b c : string) : a ++ c = b ++ c -> a = b.
Proof.
  revert b. induction a as [|x a IH]; intros [|y b] H; cbn [String.append] in H.
  - reflexivity.
  - apply (f_equal String.length) in H. cbn [String.length] in H.
    rewrite length_append in H. lia.
  - apply (f_equal String.length) in H. cbn [String.length] in H.
    rewrite length_append in H. lia.
  - inversion H. f_equal. apply IH. assumption.
Qed.

(** X9.  On one source file, two different hour counts never give the same
    default output path: the files saved under default names for different
    shifts do not replace one another. *)
Theorem get_default_output_path_injective
  (self1 self2 : GPXShiftApp) (p1 p2 : Path) :
  original_gpx_path self1 = original_gpx_path self2 ->
  get_default_output_path self1 = Ok p1 ->
  get_default_output_path self2 = Ok p2 ->
  get_shift_hours self1 <> get_shift_hours self2 ->
  p1 <> p2.
Proof.
  intros Hsrc H1 H2 Hne Heq.
  apply get_default_output_path_ok in H1 as (n1 & Hn1 & _ & _ & _ & _ & ->).
  apply get_default_output_path_ok in H2 as (n2 & Hn2 & _ & _ & _ & _ & ->).
  rewrite Hsrc in *. inversion Heq as [Ht].
  apply app_inj_tail in Ht as [_ Hn]. rewrite Hn1, Hn2 in Hn.
  apply String.app_inj in Hn. apply append_inj_r in Hn.
  unfold str_of_int in Hn.
  destruct (0 <=? get_shift_hours self1) eqn:E1,
           (0 <=? get_shift_hours self2) eqn:E2;
    cbn [String.append] in Hn; inversion Hn as [Hdigits].
  - apply (inj pretty) in Hdigits. apply Z.leb_le in E1, E2. lia.
  - apply (inj pretty) in Hdigits. apply Z.leb_gt in E1, E2. lia.
Qed.

Lemma get_default_output_path_injective_witness :
  parse "/tmp/x/morning_run_p3.gpx" <> parse "/tmp/x/morning_run_m3.gpx".
Proof.
  apply (get_default_output_path_injective
           (snd (shift_time 3 sample_app)) (snd (shift_time (-3) sample_app)));
    vm_compute; (reflexivity || discriminate).
Defined.

Lemma prefix_tilde_cons r : String.prefix "~" (String "~" r) = true.
Proof.
  cbn [String.prefix]. destruct (Ascii.ascii_dec "~" "~"); [|contradiction].
  destruct r; reflexivity.
Qed.

(** X10.  When the name of the source file does not start with a tilde,
    saving with the name of the default output path as the override (what
    the save prompt of [main] offers as its default answer) resolves to the
    default output path itself, and the save has the outcome of a save
    without override. *)
Theorem save_gpx_default_name_override (self : GPXShiftApp) (p : Path) (w : World) :
  get_default_output_path self = Ok p ->
  String.prefix "~" (name (original_gpx_path self)) = false ->
  save_gpx_output_path self (Some (name p)) w = Ok p /\
  save_outcome self (Some (name p)) w = save_outcome self None w.
Proof.
  intros H Htilde.
  pose proof H as Hdef.
  apply get_default_output_path_ok in H
    as (new_name & Hnew & Hname & Hne & Hdot & Hslash & ->).
  set (source := original_gpx_path self) in *.
  set (p := mk_Path (root source) (removelast (tail source) ++ [new_name])) in *.
  assert (Hn : name p = new_name).
  { unfold name, p. cbn [tail]. apply last_last. }
  assert (Hexp : expanduser w new_name = new_name).
  { destruct new_name as [|c rest] eqn:E; [reflexivity|].
    apply expanduser_no_tilde. intros ->.
    assert (Hs : stem source <> EmptyString).
    { unfold stem. destruct (suffix_index (name source)) as [i|] eqn:Ei;
        [|exact Hname].
      unfold suffix_index in Ei. destruct (rfind_dot (name source)); [|discriminate].
      destruct ((0 <? n)%nat && _)%bool eqn:Eb; [|discriminate].
      inversion Ei; subst n. apply andb_true_iff in Eb as [Eb _].
      apply Nat.ltb_lt in Eb.
      destruct i; [lia|]. destruct (name source); [contradiction|discriminate]. }
    destruct (stem source) as [|c1 s1] eqn:Es; [contradiction|].
    cbn [String.append] in Hnew. inversion Hnew; subst c1.
    rewrite <- (stem_suffix_name source), Es in Htilde.
    cbn [String.append] in Htilde.
    rewrite prefix_tilde_cons in Htilde. discriminate Htilde. }
  assert (Hpath : save_gpx_output_path self (Some (name p)) w = Ok p).
  { unfold save_gpx_output_path. rewrite Hn.
    destruct (String.eqb new_name EmptyString) eqn:E.
    { apply String.eqb_eq in E. contradiction. }
    cbn [negb]. rewrite Hexp, (parse_name new_name Hslash Hne Hdot).
    cbn [is_absolute root String.eqb negb parent tail name List.last].
    rewrite bool_decide_eq_true_2 by reflexivity.
    unfold joinstr. rewrite (parse_name new_name Hslash Hne Hdot).
    unfold joinpath, is_absolute, parent. cbn [root tail String.eqb negb].
    fold source. destruct (tail source) as [|x l] eqn:Et.
    { exfalso. apply Hname. unfold name. rewrite Et. reflexivity. }
    reflexivity. }
  split; [exact Hpath|].
  unfold save_outcome, save_gpx. rewrite Hpath.
  cbn [save_gpx_output_path]. rewrite Hdef. reflexivity.
Qed.

Lemma save_gpx_default_name_override_witness :
  save_gpx_output_path (snd (shift_time 3 sample_app))
    (Some (name (parse "/tmp/x/morning_run_p3.gpx"))) sample_world =
    Ok (parse "/tmp/x/morning_run_p3.gpx") /\
  save_outcome (snd (shift_time 3 sample_app))
    (Some (name (parse "/tmp/x/morning_run_p3.gpx"))) sample_world =
    save_outcome (snd (shift_time 3 sample_app)) None sample_world.
Proof.
  apply (save_gpx_default_name_override (snd (shift_time 3 sample_app))
           (parse "/tmp/x/morning_run_p3.gpx") sample_world);
    vm_compute; reflexivity.
Defined.

(** X11.  After a save that returned, a second save with the same argument
    resolves to the same path and rewrites the same text: whatever may be
    opened for writing by then (the first save may have created the file
    without the permission to write it again), the second save either
    raises [OSError], or returns the path of the first and leaves the
    session and the content of every file as the first save left them. *)
Theorem save_gpx_twice (self self' : GPXShiftApp)
  (output_file_path : option string) (w w' : World) (p : Path)
  (writable_then : string -> bool) :
  save_gpx self output_file_path w = (Ok p, self', w') ->
  let w_then :=
    mk_World (environ_HOME w') (getpwuid_pw_dir w') (getpwnam_pw_dir w')
      (getcwd w') (files w') writable_then in
  match save_gpx self' output_file_path w_then with
  | (Ok p2, self2, w2) => p2 = p /\ self2 = self /\ files w2 = files w'
  | (Raise e, self2, _) => e = OSError /\ self2 = self
  end.
Proof.
  unfold save_gpx.
  destruct (save_gpx_output_path self output_file_path w) as [q|e] eqn:Hq;
    [|discriminate].
  destruct (shift_gpx_times (original_gpx_text self) (time_shift self))
    as [t|e] eqn:Ht; [|discriminate].
  unfold write_text.
  destruct (writable w (file_key w q)) eqn:Hw; [|discriminate].
  intros H; inversion H; subst p self' w'. clear H.
  cbn [environ_HOME getpwuid_pw_dir getpwnam_pw_dir getcwd files]. cbv zeta.
  set (w_then := mk_World _ _ _ _ _ writable_then).
  assert (Hq' : save_gpx_output_path self output_file_path w_then = Ok q).
  { rewrite <- Hq. reflexivity. }
  rewrite Hq', Ht.
  change (file_key w_then q) with (file_key w q).
  change (writable w_then (file_key w q)) with (writable_then (file_key w q)).
  destruct (writable_then (file_key w q)); [|split; reflexivity].
  split; [reflexivity|]. split; [reflexivity|].
  unfold w_then. cbn [files]. apply insert_insert_eq.
Qed.

Lemma save_gpx_twice_witness :
  let w' := snd (save_gpx sample_app (Some "out.gpx") sample_world) in
  let w_then :=
    mk_World (environ_HOME w') (getpwuid_pw_dir w') (getpwnam_pw_dir w')
      (getcwd w') (files w') (fun _ => false) in
  match save_gpx sample_app (Some "out.gpx") w_then with
  | (Ok p2, self2, w2) =>
      p2 = parse "/tmp/x/out.gpx" /\ self2 = sample_app /\ files w2 = files w'
  | (Raise e, self2, _) => e = OSError /\ self2 = sample_app
  end.
Proof.
  apply (save_gpx_twice sample_app sample_app (Some "out.gpx") sample_world
           (snd (save_gpx sample_app (Some "out.gpx") sample_world))
           (parse "/tmp/x/out.gpx") (fun _ => false)).
  vm_compute. reflexivity.
Defined.

(** ** The display of the total shift: [format_timedelta] *)

(** X12.  For a shift of a whole number [k] of hours, which is what every
    session holds, [format_timedelta] shows the sign ([+] for zero), the
    absolute hour count on at least two digits, and [:00:00]. *)
Theorem format_timedelta_whole_hours (k : Z) :
  format_timedelta (k * US_PER_HOUR) =
  (if k <? 0 then "-" else "+") ++ zfill 2 (Z.abs k) ++ ":00:00".
Proof.
  unfold format_timedelta. cbv zeta.
  assert (Hq : Z.quot (k * US_PER_HOUR) US_PER_SECOND = k * 3600).
  { replace (k * US_PER_HOUR) with (k * 3600 * US_PER_SECOND)
      by (unfold US_PER_HOUR; ring).
    apply Z.quot_mul. discriminate. }
  rewrite Hq.
  assert (Hs : (k * 3600 <? 0) = (k <? 0)).
  { destruct (Z.ltb_spec (k * 3600) 0), (Z.ltb_spec k 0); lia. }
  rewrite Hs.
  assert (Ha : Z.abs (k * 3600) = Z.abs k * 3600) by lia.
  rewrite Ha, Z.div_mul, Z.mod_mul by discriminate.
  reflexivity.
Qed.


(** ** The calendar: ordinals and dates *)

Lemma _is_leap_decomposed a b c e :
  0 <= b <= 3 -> 0 <= c <= 24 -> 0 <= e <= 3 ->
  _is_leap (400 * a + 100 * b + 4 * c + e + 1) =
  (e =? 3) && (negb (c =? 24) || (b =? 3)).
Proof.
  intros Hb Hc He. unfold _is_leap.
  set (y := 400 * a + 100 * b + 4 * c + e + 1).
  destruct (Z.eqb_spec (y mod 4) 0), (Z.eqb_spec (y mod 100) 0),
    (Z.eqb_spec (y mod 400) 0), (Z.eqb_spec e 3), (Z.eqb_spec c 24),
    (Z.eqb_spec b 3); cbn; try reflexivity; exfalso; unfold y in *; lia.
Qed.

Lemma _days_before_year_decomposed a b c e :
  0 <= b <= 3 -> 0 <= c <= 24 -> 0 <= e <= 3 ->
  _days_before_year (400 * a + 100 * b + 4 * c + e + 1) =
  146097 * a + 36524 * b + 1461 * c + 365 * e.
Proof.
  intros Hb Hc He. unfold _days_before_year. cbv zeta. lia.
Qed.


Lemma _ord2ymd_inverse n :
  0 < n <= _MAXORDINAL ->
  let '(y, m, d) := _ord2ymd n in
  _ymd2ord y m d = n /\ 1 <= y <= 9999 /\ 1 <= m <= 12 /\
  1 <= d <= _days_in_month y m.
Proof.
  intros Hn. unfold _ord2ymd, _MAXORDINAL in *.
  change _DI400Y with 146097. change _DI100Y with 36524. change _DI4Y with 1461.
  cbv zeta.
  set (n0 := n - 1).
  set (n400 := n0 / 146097). set (r400 := n0 mod 146097).
  set (n100 := r400 / 36524). set (r100 := r400 mod 36524).
  set (n4 := r100 / 1461). set (r4 := r100 mod 1461).
  set (n1 := r4 / 365). set (r1 := r4 mod 365).
  assert (H400 : 0 <= n400 <= 24) by (unfold n400, n0; lia).
  assert (Hr400 : 0 <= r400 < 146097) by (unfold r400; lia).
  assert (H100 : 0 <= n100 <= 4) by (unfold n100; lia).
  assert (Hr100 : 0 <= r100 < 36524) by (unfold r100; lia).
  assert (H4 : 0 <= n4 <= 24) by (unfold n4; lia).
  assert (Hr4 : 0 <= r4 < 1461) by (unfold r4; lia).
  assert (H1 : 0 <= n1 <= 4) by (unfold n1; lia).
  assert (Hr1 : 0 <= r1 < 365) by (unfold r1; lia).
  assert (Hsum : n0 = 146097 * n400 + 36524 * n100 + 1461 * n4 + 365 * n1 + r1)
    by (unfold n400, r400, n100, r100, n4, r4, n1, r1 in *; lia).
  assert (Hn0 : 0 <= n0 <= 3652058) by (unfold n0; lia).
  assert (Hq100 : r400 = 36524 * n100 + r100) by (unfold n100, r100; lia).
  assert (Hq4 : r100 = 1461 * n4 + r4) by (unfold n4, r4; lia).
  assert (Hq1 : r4 = 365 * n1 + r1) by (unfold n1, r1; lia).
  assert (Hend1 : n1 = 4 -> r1 = 0) by (unfold n1, r1 in *; lia).
  assert (Hend100 : n100 = 4 -> r100 = 0) by (unfold n100, r100 in *; lia).
  assert (Hz4 : r100 = 0 -> n4 = 0 /\ n1 = 0 /\ r1 = 0)
    by (unfold n4, r4, n1, r1 in *; lia).
  assert (Hnn : n = n0 + 1) by (unfold n0; lia).
  clearbody n0 n400 r400 n100 r100 n4 r4 n1 r1.
  destruct ((n1 =? 4) || (n100 =? 4)) eqn:Hend.
  - apply orb_true_iff in Hend.
    assert (Hy : exists a b c e,
               n400 * 400 + 1 + (n100 * 100 + n4 * 4 + n1) - 1 =
                 400 * a + 100 * b + 4 * c + e + 1 /\
               0 <= b <= 3 /\ 0 <= c <= 24 /\ e = 3 /\ (c <> 24 \/ b = 3) /\
               n0 + 1 = 146097 * a + 36524 * b + 1461 * c + 365 * e + 366 /\
               0 <= a <= 24).
    { destruct Hend as [E|E]; apply Z.eqb_eq in E.
      - destruct (Z.eq_dec n100 4) as [E'|E'].
        + exfalso. specialize (Hend100 E'). specialize (Hz4 Hend100). lia.
        + exists n400, n100, n4, 3. lia.
      - specialize (Hend100 E). specialize (Hz4 Hend100).
        exists n400, 3, 24, 3. lia. }
    destruct Hy as (a & b & c & e & Hy & Hb & Hc & -> & Hl & Hs & Ha).
    rewrite Hy. unfold _ymd2ord, _days_before_month, _days_in_month.
    rewrite _is_leap_decomposed, _days_before_year_decomposed by lia.
    assert (Hleap : (3 =? 3) && (negb (c =? 24) || (b =? 3)) = true).
    { destruct (Z.eqb_spec c 24), (Z.eqb_spec b 3); cbn; try reflexivity; lia. }
    rewrite Hleap. compute_tables. cbv iota. lia.
  - apply orb_false_iff in Hend as [E1 E100].
    apply Z.eqb_neq in E1, E100.
    rewrite Z.shiftr_div_pow2 by lia. change (2 ^ 5) with 32.
    replace (n400 * 400 + 1 + (n100 * 100 + n4 * 4 + n1))
      with (400 * n400 + 100 * n100 + 4 * n4 + n1 + 1) by lia.
    set (year := 400 * n400 + 100 * n100 + 4 * n4 + n1 + 1).
    assert (Hleap : _is_leap year =
                    (n1 =? 3) && (negb (n4 =? 24) || (n100 =? 3)))
      by (apply _is_leap_decomposed; lia).
    assert (Hdby : _days_before_year year =
                   146097 * n400 + 36524 * n100 + 1461 * n4 + 365 * n1)
      by (apply _days_before_year_decomposed; lia).
    assert (Hyear : 1 <= year <= 9999) by (unfold year; lia).
    set (leap := (n1 =? 3) && (negb (n4 =? 24) || (n100 =? 3))) in *.
    assert (Hr1' : leap = false -> True) by trivial.
    clearbody leap year.
    set (month := (r1 + 50) / 32).
    assert (Hm : 1 <= month <= 12) by (unfold month; lia).
    assert (Hmv : month = (r1 + 50) / 32) by reflexivity.
    clearbody month.
    assert (Hcases : month = 1 \/ month = 2 \/ month = 3 \/ month = 4 \/
                     month = 5 \/ month = 6 \/ month = 7 \/ month = 8 \/
                     month = 9 \/ month = 10 \/ month = 11 \/ month = 12) by lia.
    destruct Hcases
      as [-> | [-> | [-> | [-> | [-> | [-> | [-> | [-> | [-> | [-> | [-> | ->]]]]]]]]]]];
      destruct leap; compute_tables; cbv iota.
    all: try match goal with
             | |- context [?a <? ?b] => destruct (Z.ltb_spec a b)
             end.
    all: unfold _ymd2ord, _days_before_month, _days_in_month.
    all: rewrite ?Hleap, ?Hdby.
    all: repeat match goal with
         | |- context [?x - 1] =>
             let v := eval vm_compute in (x - 1) in
             progress change (x - 1) with v
         end.
    all: compute_tables; cbv iota.
    all: try lia.
Qed.



Lemma _ord2ymd_regular a b c e o :
  0 <= a -> 0 <= b <= 3 -> 0 <= c <= 24 -> 0 <= e <= 3 -> 0 <= o <= 364 ->
  _ord2ymd (146097 * a + 36524 * b + 1461 * c + 365 * e + o + 1) =
  let '(m, d) := _month_day ((e =? 3) && (negb (c =? 24) || (b =? 3))) o in
  (400 * a + 100 * b + 4 * c + e + 1, m, d).
Proof.
  intros Ha Hb Hc He Ho. unfold _ord2ymd, _month_day.
  change _DI400Y with 146097. change _DI100Y with 36524. change _DI4Y with 1461.
  cbv zeta.
  set (n0 := 146097 * a + 36524 * b + 1461 * c + 365 * e + o + 1 - 1).
  assert (E400 : n0 / 146097 = a) by (unfold n0; lia).
  assert (Er400 : n0 mod 146097 = 36524 * b + 1461 * c + 365 * e + o)
    by (unfold n0; lia).
  rewrite E400, Er400.
  assert (E100 : (36524 * b + 1461 * c + 365 * e + o) / 36524 = b) by lia.
  assert (Er100 : (36524 * b + 1461 * c + 365 * e + o) mod 36524 =
                  1461 * c + 365 * e + o) by lia.
  rewrite E100, Er100.
  assert (E4 : (1461 * c + 365 * e + o) / 1461 = c) by lia.
  assert (Er4 : (1461 * c + 365 * e + o) mod 1461 = 365 * e + o) by lia.
  rewrite E4, Er4.
  assert (E1 : (365 * e + o) / 365 = e) by lia.
  assert (Er1 : (365 * e + o) mod 365 = o) by lia.
  rewrite E1, Er1.
  assert (Hs : (e =? 4) || (b =? 4) = false).
  { destruct (Z.eqb_spec e 4), (Z.eqb_spec b 4); cbn; try reflexivity; lia. }
  rewrite Hs.
  replace (a * 400 + 1 + (b * 100 + c * 4 + e))
    with (400 * a + 100 * b + 4 * c + e + 1) by lia.
  destruct (o <? _) ; reflexivity.
Qed.

Lemma _ord2ymd_last_day a b c :
  0 <= a -> 0 <= b <= 3 -> 0 <= c <= 24 -> c <> 24 \/ b = 3 ->
  _ord2ymd (146097 * a + 36524 * b + 1461 * c + 365 * 3 + 365 + 1) =
  (400 * a + 100 * b + 4 * c + 3 + 1, 12, 31).
Proof.
  intros Ha Hb Hc Hl. unfold _ord2ymd.
  change _DI400Y with 146097. change _DI100Y with 36524. change _DI4Y with 1461.
  cbv zeta.
  set (n0 := 146097 * a + 36524 * b + 1461 * c + 365 * 3 + 365 + 1 - 1).
  assert (E400 : n0 / 146097 = a) by (unfold n0; lia).
  assert (Er400 : n0 mod 146097 = 36524 * b + 1461 * c + 1460)
    by (unfold n0; lia).
  rewrite E400, Er400.
  destruct (Z.eq_dec c 24) as [->|Hc24].
  - assert (b = 3) by lia. subst b.
    assert (E100 : (36524 * 3 + 1461 * 24 + 1460) / 36524 = 4) by reflexivity.
    assert (Er100 : (36524 * 3 + 1461 * 24 + 1460) mod 36524 = 0) by reflexivity.
    rewrite E100, Er100.
    change (0 mod 1461) with 0. change (0 / 1461) with 0.
    change (0 mod 365) with 0. change (0 / 365) with 0.
    cbn [Z.eqb Pos.eqb orb]. f_equal. f_equal. lia.
  - assert (E100 : (36524 * b + 1461 * c + 1460) / 36524 = b) by lia.
    assert (Er100 : (36524 * b + 1461 * c + 1460) mod 36524 = 1461 * c + 1460)
      by lia.
    rewrite E100, Er100.
    assert (E4 : (1461 * c + 1460) / 1461 = c) by lia.
    assert (Er4 : (1461 * c + 1460) mod 1461 = 1460) by lia.
    rewrite E4, Er4.
    change (1460 / 365) with 4. change (1460 mod 365) with 0.
    cbn [Z.eqb Pos.eqb orb]. f_equal. f_equal. lia.
Qed.

Lemma _month_day_inverse (L : bool) m d :
  1 <= m <= 12 ->
  1 <= d <= (if (m =? 2) && L then 29 else _DAYS_IN_MONTH m) ->
  _month_day L (_DAYS_BEFORE_MONTH m + (if (2 <? m) && L then 1 else 0) + d - 1)
  = (m, d).
Proof.
  intros Hm Hd.
  assert (Hcases : m = 1 \/ m = 2 \/ m = 3 \/ m = 4 \/ m = 5 \/ m = 6 \/
                   m = 7 \/ m = 8 \/ m = 9 \/ m = 10 \/ m = 11 \/ m = 12) by lia.
  clear Hm. revert Hd.
  destruct Hcases
    as [-> | [-> | [-> | [-> | [-> | [-> | [-> | [-> | [-> | [-> | [-> | ->]]]]]]]]]]];
    destruct L; compute_tables; cbv iota; intros Hd.
  all: match goal with
       | |- _month_day ?L ?o = (?m, _) =>
           unfold _month_day; cbv zeta;
           rewrite Z.shiftr_div_pow2 by lia; change (2 ^ 5) with 32;
           set (q := (o + 50) / 32);
           assert (Hqv : q = (o + 50) / 32) by reflexivity;
           assert (Hq : q = m \/ q = m + 1) by lia;
           clearbody q; destruct Hq as [-> | ->]
       end.
  all: compute_tables; cbv iota.
  all: match goal with
       | |- context [?a <? ?b] => destruct (Z.ltb_spec a b)
       end.
  all: try (exfalso; lia).
  all: compute_tables; cbv iota.
  all: f_equal; lia.
Qed.

Lemma _day_of_year_bounds (L : bool) m d :
  1 <= m <= 12 ->
  1 <= d <= (if (m =? 2) && L then 29 else _DAYS_IN_MONTH m) ->
  0 <= _DAYS_BEFORE_MONTH m + (if (2 <? m) && L then 1 else 0) + d - 1 <= 365 /\
  (_DAYS_BEFORE_MONTH m + (if (2 <? m) && L then 1 else 0) + d - 1 = 365 ->
   L = true /\ m = 12 /\ d = 31).
Proof.
  intros Hm Hd.
  assert (Hcases : m = 1 \/ m = 2 \/ m = 3 \/ m = 4 \/ m = 5 \/ m = 6 \/
                   m = 7 \/ m = 8 \/ m = 9 \/ m = 10 \/ m = 11 \/ m = 12) by lia.
  clear Hm. revert Hd.
  destruct Hcases
    as [-> | [-> | [-> | [-> | [-> | [-> | [-> | [-> | [-> | [-> | [-> | ->]]]]]]]]]]];
    destruct L; compute_tables; cbv iota; intros Hd;
    (split; [lia|intros Ho; repeat split; (reflexivity || lia)]).
Qed.

(** The date of the ordinal of a date is the date. *)
Lemma _ymd2ord_inverse y m d :
  1 <= y <= 9999 -> 1 <= m <= 12 -> 1 <= d <= _days_in_month y m ->
  0 < _ymd2ord y m d <= _MAXORDINAL /\
  _ord2ymd (_ymd2ord y m d) = (y, m, d).
Proof.
  intros Hy Hm Hd.
  set (a := (y - 1) / 400). set (b := (y - 1) mod 400 / 100).
  set (c := (y - 1) mod 400 mod 100 / 4).
  set (e := (y - 1) mod 400 mod 100 mod 4).
  assert (Ha : 0 <= a <= 24) by (unfold a; lia).
  assert (Hb : 0 <= b <= 3) by (unfold b; lia).
  assert (Hc : 0 <= c <= 24) by (unfold c; lia).
  assert (He : 0 <= e <= 3) by (unfold e; lia).
  assert (Hyv : y = 400 * a + 100 * b + 4 * c + e + 1) by (unfold a, b, c, e; lia).
  clearbody a b c e. subst y.
  unfold _ymd2ord, _days_before_month, _days_in_month, _MAXORDINAL in *.
  rewrite _is_leap_decomposed in * by lia.
  rewrite _days_before_year_decomposed by lia.
  set (L := (e =? 3) && (negb (c =? 24) || (b =? 3))) in *.
  assert (HL : L = true -> e = 3 /\ (c <> 24 \/ b = 3)).
  { unfold L. destruct (Z.eqb_spec e 3), (Z.eqb_spec c 24), (Z.eqb_spec b 3);
      cbn; intros; try discriminate; lia. }
  destruct (_day_of_year_bounds L m d Hm Hd) as [Ho Hlast].
  pose proof (_month_day_inverse L m d Hm Hd) as Hmd.
  set (o := _DAYS_BEFORE_MONTH m + (if (2 <? m) && L then 1 else 0) + d - 1) in *.
  replace (146097 * a + 36524 * b + 1461 * c + 365 * e +
           (_DAYS_BEFORE_MONTH m + (if (2 <? m) && L then 1 else 0)) + d)
    with (146097 * a + 36524 * b + 1461 * c + 365 * e + o + 1) by (unfold o; lia).
  clearbody o.
  split.
  { destruct (Z.eq_dec o 365) as [E|E].
    - destruct (Hlast E) as (HLt & _ & _). destruct (HL HLt) as [-> Hcb]. lia.
    - lia. }
  destruct (Z.eq_dec o 365) as [E|E].
  - destruct (Hlast E) as (HLt & -> & ->). destruct (HL HLt) as [-> Hcb].
    subst o. rewrite _ord2ymd_last_day by lia. reflexivity.
  - rewrite _ord2ymd_regular by lia. fold L. rewrite Hmd. reflexivity.
Qed.


(** ** Dates and durations *)

Lemma datetime_add_microseconds dt td :
  datetime_add dt td = from_microseconds (to_microseconds dt + td).
Proof. reflexivity. Qed.

Lemma from_microseconds_ok total dt :
  from_microseconds total = Ok dt ->
  to_microseconds dt = total /\ valid_datetime dt.
Proof.
  unfold from_microseconds. cbv zeta.
  destruct ((0 <? td_days total) && (td_days total <=? _MAXORDINAL)) eqn:Hr;
    [|discriminate].
  apply andb_true_iff in Hr as [H0 H1].
  apply Z.ltb_lt in H0. apply Z.leb_le in H1.
  pose proof (_ord2ymd_inverse (td_days total) (conj H0 H1)) as Hinv.
  destruct (_ord2ymd (td_days total)) as [[y m] d].
  destruct Hinv as (Hord & Hy & Hm & Hd).
  intros H; inversion H; subst dt; clear H.
  unfold to_microseconds, valid_datetime, toordinal.
  cbn [year month day hour minute second microsecond].
  rewrite Hord.
  unfold td_days, td_seconds, td_microseconds, US_PER_DAY, US_PER_SECOND in *.
  repeat split; try lia.
Qed.

Lemma from_microseconds_valid dt :
  valid_datetime dt -> from_microseconds (to_microseconds dt) = Ok dt.
Proof.
  intros (Hy & Hm & Hd & HH & HM & HS & Hus).
  destruct (_ymd2ord_inverse _ _ _ Hy Hm Hd) as [Hord Hinv].
  unfold from_microseconds, to_microseconds, toordinal in *. cbv zeta.
  set (n := _ymd2ord (year dt) (month dt) (day dt)) in *. clearbody n.
  set (total := (n * 86400 + hour dt * 3600 + minute dt * 60 + second dt)
                  * US_PER_SECOND + microsecond dt).
  assert (Ed : td_days total = n).
  { unfold total, td_days, US_PER_DAY, US_PER_SECOND. lia. }
  assert (Es : td_seconds total = hour dt * 3600 + minute dt * 60 + second dt).
  { unfold total, td_seconds, US_PER_DAY, US_PER_SECOND. lia. }
  assert (Eu : td_microseconds total = microsecond dt).
  { unfold total, td_microseconds, US_PER_SECOND. lia. }
  rewrite Ed, Es, Eu, Hinv.
  assert (Hr : (0 <? n) && (n <=? _MAXORDINAL) = true).
  { apply andb_true_iff. split; [apply Z.ltb_lt|apply Z.leb_le]; lia. }
  rewrite Hr.
  assert (E1 : (hour dt * 3600 + minute dt * 60 + second dt) / 3600 = hour dt)
    by lia.
  assert (E2 : (hour dt * 3600 + minute dt * 60 + second dt) mod 3600 =
               minute dt * 60 + second dt) by lia.
  rewrite E1, E2.
  assert (E3 : (minute dt * 60 + second dt) / 60 = minute dt) by lia.
  assert (E4 : (minute dt * 60 + second dt) mod 60 = second dt) by lia.
  rewrite E3, E4. destruct dt; reflexivity.
Qed.

Lemma datetime_new_ok y m d H M S us dt :
  datetime_new y m d H M S us = Ok dt ->
  dt = mk_datetime y m d H M S us /\ valid_datetime dt.
Proof.
  unfold datetime_new, MINYEAR, MAXYEAR.
  repeat match goal with
         | |- context [negb (?a && ?b)] =>
             let E := fresh "E" in
             destruct (a && b) eqn:E; cbn [negb]; [|discriminate];
             apply andb_true_iff in E as [?%Z.leb_le ?%Z.leb_le]
         end.
  intros Hdt; inversion Hdt; subst dt. split; [reflexivity|].
  unfold valid_datetime. cbn [year month day hour minute second microsecond].
  lia.
Qed.

(** A date moved by a duration, moved again: the date moved by the sum. *)
Lemma datetime_add_add dt a dt1 b :
  datetime_add dt a = Ok dt1 ->
  datetime_add dt1 b = datetime_add dt (a + b).
Proof.
  rewrite !datetime_add_microseconds. intros H.
  apply from_microseconds_ok in H as [-> _]. rewrite Z.add_assoc. reflexivity.
Qed.

(** A valid date moved there and back is the date. *)
Lemma datetime_add_back dt a dt1 :
  valid_datetime dt -> datetime_add dt a = Ok dt1 ->
  datetime_add dt1 (- a) = Ok dt.
Proof.
  intros Hv H. rewrite (datetime_add_add _ _ _ _ H), Z.add_opp_diag_r.
  rewrite datetime_add_microseconds, Z.add_0_r.
  apply from_microseconds_valid, Hv.
Qed.


(** ** Reading and rendering timestamps *)

Lemma is_digit_In c : is_digit c = true -> In c digit_chars.
Proof.
  destruct c as [[] [] [] [] [] [] [] []]; vm_compute; intros H;
    try discriminate H; tauto.
Qed.

Lemma zfill_reads_2 n :
  0 <= n <= 99 ->
  exists a b, zfill 2 n = String a (String b EmptyString) /\
              int_of_str (String a (String b EmptyString)) = n.
Proof.
  intros Hn.
  assert (H : zfill_reads 2 n = true).
  { apply (forallb_range (zfill_reads 2) (Z.to_nat 100)); [|lia].
    vm_compute. reflexivity. }
  unfold zfill_reads in H. apply andb_true_iff in H as [Hl Hv].
  apply Nat.eqb_eq in Hl. apply Z.eqb_eq in Hv.
  destruct (zfill 2 n) as [|a [|b [|c s]]]; try discriminate Hl.
  exists a, b. auto.
Qed.

Lemma zfill_reads_4 n :
  0 <= n <= 9999 ->
  exists a b c d,
    zfill 4 n = String a (String b (String c (String d EmptyString))) /\
    int_of_str (String a (String b (String c (String d EmptyString)))) = n.
Proof.
  intros Hn.
  assert (H : zfill_reads 4 n = true).
  { apply (forallb_range (zfill_reads 4) (Z.to_nat 10000)); [|lia].
    vm_compute. reflexivity. }
  unfold zfill_reads in H. apply andb_true_iff in H as [Hl Hv].
  apply Nat.eqb_eq in Hl. apply Z.eqb_eq in Hv.
  destruct (zfill 4 n) as [|a [|b [|c [|d [|e s]]]]]; try discriminate Hl.
  exists a, b, c, d. auto.
Qed.

Lemma reads_zfill_2 a b :
  is_digit a = true -> is_digit b = true ->
  zfill 2 (int_of_str (String a (String b EmptyString))) =
  String a (String b EmptyString).
Proof.
  intros Ha Hb. apply is_digit_In in Ha, Hb.
  assert (H : forallb (fun a => forallb (fun b =>
                reads_zfill (String a (String b EmptyString)))
                digit_chars) digit_chars = true) by (vm_compute; reflexivity).
  rewrite forallb_forall in H. specialize (H a Ha).
  rewrite forallb_forall in H. specialize (H b Hb).
  apply String.eqb_eq in H. exact H.
Qed.

Lemma reads_zfill_4 a b c d :
  is_digit a = true -> is_digit b = true ->
  is_digit c = true -> is_digit d = true ->
  zfill 4 (int_of_str (String a (String b (String c (String d EmptyString))))) =
  String a (String b (String c (String d EmptyString))).
Proof.
  intros Ha Hb Hc Hd. apply is_digit_In in Ha, Hb, Hc, Hd.
  assert (H : forallb (fun a => forallb (fun b => forallb (fun c =>
                forallb (fun d =>
                  reads_zfill (String a (String b (String c (String d EmptyString)))))
                digit_chars) digit_chars) digit_chars) digit_chars = true)
    by (vm_compute; reflexivity).
  rewrite forallb_forall in H. specialize (H a Ha).
  rewrite forallb_forall in H. specialize (H b Hb).
  rewrite forallb_forall in H. specialize (H c Hc).
  rewrite forallb_forall in H. specialize (H d Hd).
  apply String.eqb_eq in H. exact H.
Qed.

Lemma match_atoms_cons_full a p s :
  Re.match_atoms (a :: p) s = Some (s, EmptyString) ->
  exists c s', s = String c s' /\ Re.atom_matches a c = true /\
               Re.match_atoms p s' = Some (s', EmptyString).
Proof.
  destruct s as [|c s]; cbn [Re.match_atoms]; [discriminate|].
  destruct (Re.atom_matches a c) eqn:Hc; [|discriminate].
  destruct (Re.match_atoms p s) as [[m r]|] eqn:E; [|discriminate].
  intros H; inversion H; subst. exists c, s. auto.
Qed.

(** The characters of a text of the timestamp shape. *)
Lemma timestamp_chars ts :
  is_timestamp ts = true ->
  exists y1 y2 y3 y4 m1 m2 d1 d2 H1 H2 M1 M2 S1 S2,
    ts = String y1 (String y2 (String y3 (String y4 (String "-"
         (String m1 (String m2 (String "-" (String d1 (String d2 (String "T"
         (String H1 (String H2 (String ":" (String M1 (String M2 (String ":"
         (String S1 (String S2 (String "Z" EmptyString)))))))))))))))))))
    /\ is_digit y1 = true /\ is_digit y2 = true /\ is_digit y3 = true
    /\ is_digit y4 = true /\ is_digit m1 = true /\ is_digit m2 = true
    /\ is_digit d1 = true /\ is_digit d2 = true /\ is_digit H1 = true
    /\ is_digit H2 = true /\ is_digit M1 = true /\ is_digit M2 = true
    /\ is_digit S1 = true /\ is_digit S2 = true.
Proof.
  intros H. apply is_timestamp_match in H.
  cbv [TIMESTAMP_ATOMS Re.digits Re.lit repeat app map list_ascii_of_string
       List.app List.map List.repeat] in H.
  repeat match type of H with
         | Re.match_atoms (_ :: _) _ = _ =>
             let c := fresh "c" in
             let Hc := fresh "Hc" in
             apply match_atoms_cons_full in H as (c & ? & -> & Hc & H);
             cbn [Re.atom_matches] in Hc;
             try (apply Ascii.eqb_eq in Hc; subst c)
         end.
  cbn [Re.match_atoms] in H. inversion H; subst.
  repeat eexists; eassumption.
Qed.

Lemma _days_in_month_le y m : _days_in_month y m <= 31.
Proof.
  unfold _days_in_month, _DAYS_IN_MONTH.
  destruct ((m =? 2) && _is_leap y); [lia|].
  destruct m as [|p|p]; try lia.
  do 4 (destruct p as [p|p|]; try lia).
Qed.


(** What [strftime] renders of a year of four digits, [strptime] reads
    back, but for the microseconds. *)
Lemma strptime_strftime dt :
  valid_datetime dt -> 1000 <= year dt ->
  strptime (strftime dt) = Ok (whole_second dt).
Proof.
  intros Hv Hy4. pose proof Hv as (Hy & Hm & Hd & HH & HM & HS & Hus).
  pose proof (_days_in_month_le (year dt) (month dt)) as Hdim.
  assert (Hts : is_timestamp (strftime dt) = true)
    by (apply strftime_is_timestamp; lia).
  unfold strptime. rewrite Hts. cbn [negb]. unfold strftime.
  rewrite str_of_int_four_digits by lia.
  destruct (zfill_reads_4 (year dt)) as (y1 & y2 & y3 & y4 & -> & Ey); [lia|].
  destruct (zfill_reads_2 (month dt)) as (m1 & m2 & -> & Em); [lia|].
  destruct (zfill_reads_2 (day dt)) as (d1 & d2 & -> & Ed); [lia|].
  destruct (zfill_reads_2 (hour dt)) as (H1 & H2 & -> & EH); [lia|].
  destruct (zfill_reads_2 (minute dt)) as (M1 & M2 & -> & EM); [lia|].
  destruct (zfill_reads_2 (second dt)) as (S1 & S2 & -> & ES); [lia|].
  cbn [String.append substring]. cbv zeta.
  rewrite Ey, Em, Ed, EH, EM, ES.
  unfold datetime_new, MINYEAR, MAXYEAR, whole_second.
  decide_leb. reflexivity.
Qed.

(** What [strptime] reads is valid and has no microseconds. *)
Lemma strptime_ok ts dt :
  strptime ts = Ok dt ->
  is_timestamp ts = true /\ valid_datetime dt /\ microsecond dt = 0.
Proof.
  unfold strptime. destruct (is_timestamp ts) eqn:Hts; cbn [negb]; [|discriminate].
  cbv zeta.
  repeat match goal with
         | |- context [if negb ?b then _ else _] =>
             destruct b; cbn [negb]; [|discriminate]
         end.
  intros H. apply datetime_new_ok in H as [-> Hv].
  split; [reflexivity|]. split; [exact Hv|]. reflexivity.
Qed.

(** A timestamp of a year of four digits is rendered by [strftime] as it
    was read. *)
Lemma strftime_strptime ts dt :
  strptime ts = Ok dt -> 1000 <= year dt -> strftime dt = ts.
Proof.
  unfold strptime. destruct (is_timestamp ts) eqn:Hts; cbn [negb]; [|discriminate].
  cbv zeta.
  repeat match goal with
         | |- context [if negb ?b then _ else _] =>
             destruct b; cbn [negb]; [|discriminate]
         end.
  intros H. apply datetime_new_ok in H as [-> Hv]. intros Hy4.
  destruct Hv as (Hy & _). cbn [year] in Hy, Hy4.
  apply timestamp_chars in Hts
    as (y1 & y2 & y3 & y4 & m1 & m2 & d1 & d2 & H1 & H2 & M1 & M2 & S1 & S2
        & -> & ? & ? & ? & ? & ? & ? & ? & ? & ? & ? & ? & ? & ? & ?).
  unfold strftime. cbn [year month day hour minute second substring] in *.
  rewrite str_of_int_four_digits by lia.
  rewrite reads_zfill_4, !reads_zfill_2 by assumption.
  reflexivity.
Qed.

(** ** The scan of a rewritten text *)

(** Where the second of two texts that differ only in the text of their
    [<time>] elements has a match, the first has one. *)
Lemma only_time_text_differs_match X Y :
  only_time_text_differs X Y ->
  forall pre g rest,
    Re.match_at GPX_TIME_PATTERN (pre ++ Y) = Some (g, rest) ->
    exists g' rest', Re.match_at GPX_TIME_PATTERN (pre ++ X) = Some (g', rest').
Proof.
  induction 1 as [|c s s' _ IH|ts ts' s s' Hts Hts' _ _]; intros pre g rest H.
  - eauto.
  - replace (pre ++ String c s') with ((pre ++ String c EmptyString) ++ s') in H
      by (rewrite append_assoc; reflexivity).
    apply IH in H as (g' & rest' & H).
    rewrite append_assoc in H. eauto.
  - pose proof H as H'.
    change ("<time>" ++ ts' ++ "</time>" ++ s')
      with (String "<" (String "t" ("ime>" ++ ts' ++ "</time>" ++ s'))) in H'.
    apply gpx_match_no_overlap in H' as [H0|H33].
    + destruct pre; [|discriminate H0]. cbn [String.append].
      exists ("<time>", ts, "</time>"), s.
      apply (gpx_match_intro ts s Hts).
    + apply gpx_match_app_inv in H as (r' & H & _); [|exact H33].
      eexists _, _. apply gpx_match_app. exact H.
Qed.

Lemma gpx_sub_no_match delta c s out :
  Re.match_at GPX_TIME_PATTERN (String c s) = None ->
  gpx_sub (_replace delta) s = Ok out ->
  Re.match_at GPX_TIME_PATTERN (String c out) = None.
Proof.
  intros Hno Hs.
  destruct (Re.match_at GPX_TIME_PATTERN (String c out)) as [[g rest]|] eqn:E;
    [|reflexivity].
  assert (Hd : only_time_text_differs (String c s) (String c out)).
  { apply ott_same. eapply gpx_sub_only_time_text_differs. exact Hs. }
  destruct (only_time_text_differs_match _ _ Hd EmptyString g rest E)
    as (g' & r' & E').
  cbn [String.append] in E'. rewrite E' in Hno. discriminate.
Qed.

(** Scanning the result of a scan by [_replace], when every moved date is
    rendered in the timestamp shape: the matches are the replaced
    elements, in order. *)
Lemma gpx_sub_after delta (g h : Re.groups -> Result string) D D1 :
  (forall ts dt dt1,
     In ts (gpx_findall D) ->
     strptime ts = Ok dt -> datetime_add dt delta = Ok dt1 ->
     1000 <= year dt1 /\
     g ("<time>", strftime dt1, "</time>") = h ("<time>", ts, "</time>")) ->
  gpx_sub (_replace delta) D = Ok D1 ->
  gpx_sub g D1 = gpx_sub h D.
Proof.
  remember (String.length D) as n eqn:Hn.
  revert D D1 Hn. induction (lt_wf n) as [n _ IH]. intros D D1 Hn Hgh.
  destruct D as [|c s].
  - rewrite gpx_sub_nil. intros H; inversion H. rewrite !gpx_sub_nil. reflexivity.
  - rewrite (gpx_sub_cons (_replace delta)), (gpx_sub_cons h).
    destruct (Re.match_at GPX_TIME_PATTERN (String c s)) as [[gr rest]|] eqn:E.
    + pose proof (Re.match_at_length _ _ _ _ E) as Hlen.
      change (Re.pattern_length GPX_TIME_PATTERN) with 33%nat in Hlen.
      pose proof E as E'.
      apply gpx_match_inv in E' as (ts & -> & Hts & _).
      pose proof (gpx_findall_match _ _ _ _ E) as Hf.
      destruct (_replace delta ("<time>", ts, "</time>")) as [r|e] eqn:Hr;
        cbn [bind]; [|discriminate].
      apply _replace_inv in Hr as (dt & dt1 & Hp & Ha & ->).
      destruct (Hgh ts dt dt1 ltac:(rewrite Hf; left; reflexivity) Hp Ha)
        as [Hy4 Hg].
      pose proof (moved_is_timestamp dt delta dt1 Ha Hy4) as Hts1.
      destruct (gpx_sub (_replace delta) rest) as [out'|e] eqn:Hrest;
        cbn [bind]; [|discriminate].
      intros [= <-]. rewrite !append_assoc.
      pose proof (gpx_match_intro (strftime dt1) out' Hts1) as E1.
      change ("<time>" ++ strftime dt1 ++ "</time>" ++ out')
        with (String "<" ("time>" ++ strftime dt1 ++ "</time>" ++ out')).
      rewrite gpx_sub_cons.
      match goal with
      | |- context [Re.match_at GPX_TIME_PATTERN ?x] =>
          change x with ("<time>" ++ strftime dt1 ++ "</time>" ++ out')
      end.
      rewrite E1, Hg.
      rewrite (IH (String.length rest) ltac:(lia) rest out' eq_refl); [reflexivity| |exact Hrest].
      intros ts0 dt0 dt2 Hin. apply Hgh. rewrite Hf. right. exact Hin.
    + pose proof (gpx_findall_no_match _ _ E) as Hf.
      destruct (gpx_sub (_replace delta) s) as [out'|e] eqn:Hs;
        cbn [bind]; [|discriminate].
      intros H; inversion H; subst D1.
      rewrite gpx_sub_cons, (gpx_sub_no_match delta c s out' E Hs).
      rewrite (IH (String.length s) ltac:(subst n; cbn [String.length]; lia)
                 s out' eq_refl); [reflexivity| |exact Hs].
      intros ts0 dt0 dt2 Hin. apply Hgh. rewrite Hf. exact Hin.
Qed.

Lemma gpx_sub_keep_match D : gpx_sub keep_match D = Ok D.
Proof.
  remember (String.length D) as n eqn:Hn.
  revert D Hn. induction (lt_wf n) as [n _ IH]. intros D Hn.
  destruct D as [|c s]; [apply gpx_sub_nil|].
  rewrite gpx_sub_cons.
  destruct (Re.match_at GPX_TIME_PATTERN (String c s)) as [[gr rest]|] eqn:E.
  - pose proof (Re.match_at_length _ _ _ _ E) as Hlen.
    change (Re.pattern_length GPX_TIME_PATTERN) with 33%nat in Hlen.
    apply gpx_match_inv in E as (ts & -> & Hts & E).
    cbn [keep_match bind].
    rewrite (IH (String.length rest) ltac:(lia) rest eq_refl). cbn [bind].
    rewrite E, !append_assoc. reflexivity.
  - rewrite (IH (String.length s) ltac:(subst n; cbn [String.length]; lia) s eq_refl).
    reflexivity.
Qed.

(** The timestamps of the result of a scan by [_replace], when every moved
    date is rendered in the timestamp shape. *)
Lemma gpx_findall_after delta D D1 :
  (forall ts dt dt1,
     In ts (gpx_findall D) ->
     strptime ts = Ok dt -> datetime_add dt delta = Ok dt1 ->
     1000 <= year dt1) ->
  gpx_sub (_replace delta) D = Ok D1 ->
  Forall2 (fun ts ts1 =>
             exists dt dt1, strptime ts = Ok dt /\
                            datetime_add dt delta = Ok dt1 /\
                            1000 <= year dt1 /\
                            ts1 = strftime dt1)
    (gpx_findall D) (gpx_findall D1).
Proof.
  remember (String.length D) as n eqn:Hn.
  revert D D1 Hn. induction (lt_wf n) as [n _ IH]. intros D D1 Hn Hshape.
  destruct D as [|c s].
  - rewrite gpx_sub_nil. intros H; inversion H. constructor.
  - rewrite gpx_sub_cons.
    destruct (Re.match_at GPX_TIME_PATTERN (String c s)) as [[gr rest]|] eqn:E.
    + pose proof (Re.match_at_length _ _ _ _ E) as Hlen.
      change (Re.pattern_length GPX_TIME_PATTERN) with 33%nat in Hlen.
      pose proof E as E'.
      apply gpx_match_inv in E' as (ts & -> & Hts & _).
      pose proof (gpx_findall_match _ _ _ _ E) as Hf. rewrite Hf.
      destruct (_replace delta ("<time>", ts, "</time>")) as [r|e] eqn:Hr;
        cbn [bind]; [|discriminate].
      apply _replace_inv in Hr as (dt & dt1 & Hp & Ha & ->).
      pose proof (Hshape ts dt dt1 ltac:(rewrite Hf; left; reflexivity) Hp Ha)
        as Hy4.
      pose proof (moved_is_timestamp dt delta dt1 Ha Hy4) as Hts1.
      destruct (gpx_sub (_replace delta) rest) as [out'|e] eqn:Hrest;
        cbn [bind]; [|discriminate].
      intros [= <-]. rewrite !append_assoc.
      pose proof (gpx_match_intro (strftime dt1) out' Hts1) as E1.
      change ("<time>" ++ strftime dt1 ++ "</time>" ++ out')
        with (String "<" ("time>" ++ strftime dt1 ++ "</time>" ++ out')).
      rewrite gpx_findall_cons.
      match goal with
      | |- context [Re.match_at GPX_TIME_PATTERN ?x] =>
          change x with ("<time>" ++ strftime dt1 ++ "</time>" ++ out')
      end.
      rewrite E1.
      constructor; [eauto 10|].
      apply (IH (String.length rest) ltac:(lia) rest out' eq_refl); [|exact Hrest].
      intros ts0 dt0 dt2 Hin. apply Hshape. rewrite Hf. right. exact Hin.
    + pose proof (gpx_findall_no_match _ _ E) as Hf. rewrite Hf.
      destruct (gpx_sub (_replace delta) s) as [out'|e] eqn:Hs;
        cbn [bind]; [|discriminate].
      intros H; inversion H; subst D1.
      rewrite gpx_findall_cons, (gpx_sub_no_match delta c s out' E Hs).
      apply (IH (String.length s) ltac:(subst n; cbn [String.length]; lia)
                 s out' eq_refl); [|exact Hs].
      intros ts0 dt0 dt2 Hin. apply Hshape. rewrite Hf. exact Hin.
Qed.

(** The outcome of a scan is the outcome of the replacement on its
    matches, in order. *)
Lemma gpx_sub_outcome f D :
  (exists out, gpx_sub f D = Ok out /\
               Forall (fun ts => exists r, f ("<time>", ts, "</time>") = Ok r)
                 (gpx_findall D)) \/
  (exists pre ts post e,
     gpx_sub f D = Raise e /\ gpx_findall D = (pre ++ ts :: post)%list /\
     Forall (fun ts => exists r, f ("<time>", ts, "</time>") = Ok r) pre /\
     f ("<time>", ts, "</time>") = Raise e).
Proof.
  remember (String.length D) as n eqn:Hn.
  revert D Hn. induction (lt_wf n) as [n _ IH]. intros D Hn.
  destruct D as [|c s].
  - left. exists EmptyString. rewrite gpx_sub_nil. split; [reflexivity|].
    rewrite gpx_findall_nil. constructor.
  - rewrite gpx_sub_cons, gpx_findall_cons.
    destruct (Re.match_at GPX_TIME_PATTERN (String c s)) as [[gr rest]|] eqn:E.
    + pose proof (Re.match_at_length _ _ _ _ E) as Hlen.
      change (Re.pattern_length GPX_TIME_PATTERN) with 33%nat in Hlen.
      apply gpx_match_inv in E as (ts & -> & Hts & E).
      destruct (f ("<time>", ts, "</time>")) as [r|e] eqn:Hr; cbn [bind].
      * destruct (IH (String.length rest) ltac:(lia) rest eq_refl)
          as [(out & -> & Hall)|(pre & ts' & post & e & -> & -> & Hpre & Hts')];
          cbn [bind].
        -- left. eexists. split; [reflexivity|]. constructor; eauto.
        -- right. exists (ts :: pre), ts', post, e.
           repeat split; auto. constructor; eauto.
      * right. exists [], ts, (gpx_findall rest), e. repeat split; auto.
    + destruct (IH (String.length s) ltac:(subst n; cbn [String.length]; lia)
                  s eq_refl)
        as [(out & -> & Hall)|(pre & ts' & post & e & -> & -> & Hpre & Hts')];
        cbn [bind].
      * left. eexists. split; [reflexivity|]. exact Hall.
      * right. exists pre, ts', post, e. repeat split; auto.
Qed.

Lemma datetime_add_microsecond dt delta dt1 :
  datetime_add dt delta = Ok dt1 ->
  microsecond dt1 = (microsecond dt + delta) mod US_PER_SECOND.
Proof.
  unfold datetime_add. cbv zeta.
  destruct (_ && _); [|discriminate].
  destruct (_ord2ymd _) as [[y m] d].
  intros H; inversion H; subst dt1. cbn [microsecond].
  unfold td_microseconds, US_PER_SECOND. lia.
Qed.

Lemma whole_second_id dt : microsecond dt = 0 -> whole_second dt = dt.
Proof. destruct dt. cbn. intros ->. reflexivity. Qed.

(** ** The rewriter on every timestamp *)

Lemma strptime_raise ts e : strptime ts = Raise e -> e = ValueError.
Proof.
  unfold strptime, datetime_new. cbv zeta.
  repeat match goal with
         | |- context [if negb ?b then _ else _] =>
             destruct b; cbn [negb]; [|intros [= <-]; reflexivity]
         end.
  discriminate.
Qed.

Lemma _replace_returns delta ts dt dt1 :
  strptime ts = Ok dt -> datetime_add dt delta = Ok dt1 ->
  _replace delta ("<time>", ts, "</time>") =
    Ok ("<time>" ++ strftime dt1 ++ "</time>").
Proof. intros Hp Ha. unfold _replace. rewrite Hp. cbn [bind]. rewrite Ha. reflexivity. Qed.

Lemma _replace_raise delta ts e :
  _replace delta ("<time>", ts, "</time>") = Raise e ->
  (strptime ts = Raise ValueError /\ e = ValueError) \/
  (exists dt, strptime ts = Ok dt /\
              datetime_add dt delta = Raise OverflowError /\ e = OverflowError).
Proof.
  unfold _replace.
  destruct (strptime ts) as [dt|e1] eqn:Hp; cbn [bind].
  - destruct (datetime_add dt delta) as [dt1|e2] eqn:Ha; cbn [bind]; [discriminate|].
    intros [= <-]. pose proof (datetime_add_raise _ _ _ Ha) as ->.
    right. exists dt. auto.
  - intros [= <-]. pose proof (strptime_raise _ _ Hp) as ->. left. auto.
Qed.

Lemma Forall_replace_returns delta l :
  Forall (fun ts => exists r, _replace delta ("<time>", ts, "</time>") = Ok r) l ->
  Forall (fun ts => exists dt dt1,
            strptime ts = Ok dt /\ datetime_add dt delta = Ok dt1) l.
Proof.
  intros H. eapply Forall_impl; [exact H|].
  intros ts [r Hr]. apply _replace_inv in Hr as (dt & dt1 & ? & ? & _). eauto.
Qed.

(** X13.  With a shift other than zero, [shift_gpx_times] returns exactly
    when every timestamp that the pattern matches in the text is a date and
    time that, moved by the shift, stays within the years 1 to 9999.
    Otherwise it raises the exception of the first timestamp that fails:
    [ValueError] when [strptime] refuses it, [OverflowError] when the sum
    leaves the range. *)
Theorem shift_gpx_times_returns_iff (gpx_text : string) (shift_delta : timedelta) :
  shift_delta <> 0 ->
  ((exists out, shift_gpx_times gpx_text shift_delta = Ok out) <->
   Forall (fun ts => exists dt dt1,
             strptime ts = Ok dt /\ datetime_add dt shift_delta = Ok dt1)
     (gpx_findall gpx_text)) /\
  (forall e, shift_gpx_times gpx_text shift_delta = Raise e ->
     exists pre ts post,
       gpx_findall gpx_text = (pre ++ ts :: post)%list /\
       Forall (fun ts => exists dt dt1,
                 strptime ts = Ok dt /\ datetime_add dt shift_delta = Ok dt1) pre /\
       ((strptime ts = Raise ValueError /\ e = ValueError) \/
        (exists dt, strptime ts = Ok dt /\
                    datetime_add dt shift_delta = Raise OverflowError /\
                    e = OverflowError))).
Proof.
  intros Hd. rewrite shift_gpx_times_nonzero by exact Hd.
  destruct (gpx_sub_outcome (_replace shift_delta) gpx_text)
    as [(out & Hout & Hall)|(pre & ts & post & e & He & Hf & Hpre & Hts)].
  - rewrite Hout. split; [|discriminate].
    split; [intros _; apply Forall_replace_returns, Hall|eauto].
  - rewrite He. split.
    + split; [intros [out Hout]; discriminate Hout|].
      intros Hall. exfalso. rewrite Hf in Hall.
      apply Forall_app in Hall as [_ Hall]. inversion Hall as [|? ? Hx _]; subst.
      destruct Hx as (dt & dt1 & Hp & Ha).
      rewrite (_replace_returns _ _ _ _ Hp Ha) in Hts. discriminate Hts.
    + intros e' [= <-]. exists pre, ts, post.
      split; [exact Hf|]. split; [apply Forall_replace_returns, Hpre|].
      apply _replace_raise. exact Hts.
Qed.

Lemma shift_gpx_times_returns_iff_witness :
  ((exists out, shift_gpx_times sample_gpx_text (3 * US_PER_HOUR) = Ok out) <->
   Forall (fun ts => exists dt dt1,
             strptime ts = Ok dt /\ datetime_add dt (3 * US_PER_HOUR) = Ok dt1)
     (gpx_findall sample_gpx_text)) /\
  (forall e, shift_gpx_times sample_gpx_text (3 * US_PER_HOUR) = Raise e ->
     exists pre ts post,
       gpx_findall sample_gpx_text = (pre ++ ts :: post)%list /\
       Forall (fun ts => exists dt dt1,
                 strptime ts = Ok dt /\
                 datetime_add dt (3 * US_PER_HOUR) = Ok dt1) pre /\
       ((strptime ts = Raise ValueError /\ e = ValueError) \/
        (exists dt, strptime ts = Ok dt /\
                    datetime_add dt (3 * US_PER_HOUR) = Raise OverflowError /\
                    e = OverflowError))).
Proof.
  apply (shift_gpx_times_returns_iff sample_gpx_text (3 * US_PER_HOUR)).
  unfold US_PER_HOUR, US_PER_SECOND. lia.
Defined.

(** X14.  When [shift_gpx_times] returns with a shift other than zero, and
    every moved date falls in a year of four digits, the timestamps that
    the pattern matches in the result are, in order, those of the text
    moved by the shift: each one, read back by [strptime], is the date and
    time read from the original one plus the shift, without its
    microseconds, that is, rounded down to the second. *)
Theorem shift_gpx_times_moves_every_time
  (gpx_text : string) (shift_delta : timedelta) (out : string) :
  shift_delta <> 0 ->
  moved_years_four_digits gpx_text shift_delta = true ->
  shift_gpx_times gpx_text shift_delta = Ok out ->
  Forall2
    (fun ts ts1 =>
       exists dt dt1,
         strptime ts = Ok dt /\ datetime_add dt shift_delta = Ok dt1 /\
         strptime ts1 = Ok (whole_second dt1) /\
         to_microseconds (whole_second dt1) =
           to_microseconds dt + shift_delta - shift_delta mod US_PER_SECOND)
    (gpx_findall gpx_text) (gpx_findall out).
Proof.
  intros Hd Hyears. rewrite shift_gpx_times_nonzero by exact Hd. intros H.
  apply gpx_findall_after in H.
  2: { intros ts dt dt1. apply moved_years_In. exact Hyears. }
  eapply Forall2_impl; [exact H|]. clear H.
  intros ts ts1 (dt & dt1 & Hp & Ha & Hy4 & ->).
  exists dt, dt1. split; [exact Hp|]. split; [exact Ha|].
  pose proof (datetime_add_microsecond _ _ _ Ha) as Hus.
  apply strptime_ok in Hp as (_ & _ & Hus0).
  rewrite datetime_add_microseconds in Ha.
  apply from_microseconds_ok in Ha as [Htot Hv].
  split; [apply strptime_strftime; [exact Hv|exact Hy4]|].
  rewrite Hus0, Z.add_0_l in Hus.
  unfold to_microseconds, whole_second, toordinal in *.
  cbn [year month day hour minute second microsecond]. lia.
Qed.

Lemma shift_gpx_times_moves_every_time_witness :
  Forall2
    (fun ts ts1 =>
       exists dt dt1,
         strptime ts = Ok dt /\ datetime_add dt (3 * US_PER_HOUR) = Ok dt1 /\
         strptime ts1 = Ok (whole_second dt1) /\
         to_microseconds (whole_second dt1) =
           to_microseconds dt + 3 * US_PER_HOUR - (3 * US_PER_HOUR) mod US_PER_SECOND)
    (gpx_findall sample_gpx_text)
    (gpx_findall
       ("<gpx><trk><trkseg><trkpt lat='0' lon='0'><ele>0</ele>" ++
        "<time>2025-01-01T03:00:00Z</time></trkpt></trkseg></trk></gpx>")).
Proof.
  apply (shift_gpx_times_moves_every_time sample_gpx_text (3 * US_PER_HOUR)).
  - unfold US_PER_HOUR, US_PER_SECOND. lia.
  - vm_compute. reflexivity.
  - vm_compute. reflexivity.
Defined.

(** X15.  The result of a shift by whole seconds, when every moved date
    falls in a year of four digits, can be shifted again: shifting it by
    [b] is shifting the original text by the sum, whether that returns or
    raises, as long as the sum is not zero.  Shifting it back by the
    opposite duration gives the original text again, character for
    character, when the timestamps of the original text are written as
    [strftime] writes them. *)
Theorem shift_gpx_times_composes
  (gpx_text : string) (a : timedelta) (out : string) :
  a mod US_PER_SECOND = 0 ->
  moved_years_four_digits gpx_text a = true ->
  shift_gpx_times gpx_text a = Ok out ->
  (forall b, a + b <> 0 ->
     shift_gpx_times out b = shift_gpx_times gpx_text (a + b)) /\
  (timestamps_as_rendered gpx_text = true ->
   shift_gpx_times out (- a) = Ok gpx_text).
Proof.
  intros Hsec Hyears H.
  destruct (Z.eq_dec a 0) as [->|Ha].
  { inversion H; subst out. split; [intros b _; reflexivity|reflexivity]. }
  rewrite shift_gpx_times_nonzero in H by exact Ha.
  assert (Hback : forall ts dt dt1,
            In ts (gpx_findall gpx_text) ->
            strptime ts = Ok dt -> datetime_add dt a = Ok dt1 ->
            1000 <= year dt1 /\
            strptime (strftime dt1) = Ok dt1).
  { intros ts dt dt1 Hin Hp Hadd.
    pose proof (moved_years_In _ _ _ _ _ Hyears Hin Hp Hadd) as Hy4.
    split; [exact Hy4|].
    pose proof (datetime_add_microsecond _ _ _ Hadd) as Hus.
    apply strptime_ok in Hp as (_ & _ & Hus0).
    rewrite datetime_add_microseconds in Hadd.
    apply from_microseconds_ok in Hadd as [_ Hv].
    rewrite (strptime_strftime _ Hv Hy4). f_equal. apply whole_second_id.
    rewrite Hus, Hus0, Z.add_0_l. exact Hsec. }
  split.
  - intros b Hab.
    destruct (Z.eq_dec b 0) as [->|Hb].
    { rewrite Z.add_0_r, (shift_gpx_times_nonzero gpx_text a) by exact Ha.
      rewrite H. reflexivity. }
    rewrite (shift_gpx_times_nonzero out b) by exact Hb.
    rewrite (shift_gpx_times_nonzero gpx_text (a + b)) by exact Hab.
    apply (gpx_sub_after a); [|exact H].
    intros ts dt dt1 Hin Hp Hadd.
    destruct (Hback ts dt dt1 Hin Hp Hadd) as [Hts1 Hread].
    split; [exact Hts1|]. unfold _replace.
    rewrite Hread, Hp. cbn [bind].
    rewrite (datetime_add_add _ _ _ b Hadd). reflexivity.
  - intros Hwritten.
    rewrite (shift_gpx_times_nonzero out (- a)) by lia.
    rewrite <- (gpx_sub_keep_match gpx_text).
    apply (gpx_sub_after a); [|exact H].
    intros ts dt dt1 Hin Hp Hadd.
    destruct (Hback ts dt dt1 Hin Hp Hadd) as [Hts1 Hread].
    split; [exact Hts1|]. unfold _replace, keep_match.
    rewrite Hread. cbn [bind].
    pose proof Hp as Hp'. apply strptime_ok in Hp' as (_ & Hv & _).
    rewrite (datetime_add_back _ _ _ Hv Hadd). cbn [bind].
    unfold timestamps_as_rendered in Hwritten.
    rewrite forallb_forall in Hwritten. specialize (Hwritten ts Hin).
    rewrite Hp in Hwritten. apply String.eqb_eq in Hwritten.
    rewrite Hwritten. reflexivity.
Qed.

Lemma shift_gpx_times_composes_witness :
  (forall b, 3 * US_PER_HOUR + b <> 0 ->
     shift_gpx_times
       ("<gpx><trk><trkseg><trkpt lat='0' lon='0'><ele>0</ele>" ++
        "<time>2025-01-01T03:00:00Z</time></trkpt></trkseg></trk></gpx>") b =
     shift_gpx_times sample_gpx_text (3 * US_PER_HOUR + b)) /\
  (timestamps_as_rendered sample_gpx_text = true ->
   shift_gpx_times
     ("<gpx><trk><trkseg><trkpt lat='0' lon='0'><ele>0</ele>" ++
      "<time>2025-01-01T03:00:00Z</time></trkpt></trkseg></trk></gpx>")
     (- (3 * US_PER_HOUR)) = Ok sample_gpx_text).
Proof.
  apply (shift_gpx_times_composes sample_gpx_text (3 * US_PER_HOUR)).
  - reflexivity.
  - vm_compute. reflexivity.
  - vm_compute. reflexivity.
Defined.

(** A shift back across the year 1000, where the years are not rendered
    alike: the result of the first shift no longer holds a timestamp of
    the pattern, and the second shift leaves it as it is. *)
Example shift_gpx_times_back_across_year_1000 :
  shift_gpx_times "<time>1000-01-01T00:00:00Z</time>" (- US_PER_HOUR) =
    Ok "<time>999-12-31T23:00:00Z</time>" /\
  shift_gpx_times "<time>999-12-31T23:00:00Z</time>" US_PER_HOUR =
    Ok "<time>999-12-31T23:00:00Z</time>" /\
  timestamps_as_rendered "<time>0999-12-31T23:00:00Z</time>" = false.
Proof. repeat split; vm_compute; reflexivity. Qed.

(** ** The displayed document under sequences of calls *)

(** X16.  After a sequence of [shift_time] and [toggle_display_mode] calls
    that returns, the document on display is the copy of the original
    document moved by the total shift of the session, as soon as the
    sequence holds one [shift_time] call: it is never the shift of an
    already shifted copy.  Without any [shift_time] call, the document on
    display and the shift are those before the sequence. *)
Theorem do_calls_current_gpx
  (cs : list session_call) (self self' : GPXShiftApp) :
  do_calls cs self = (Ok tt, self') ->
  if (shift_calls cs =? 0)%nat
  then current_gpx self' = current_gpx self /\ time_shift self' = time_shift self
  else _apply_shift (original_gpx self) (time_shift self') = Ok (current_gpx self').
Proof.
  assert (Hgen : forall cs s s',
    do_calls cs s = (Ok tt, s') ->
    original_gpx s' = original_gpx s /\
    (_apply_shift (original_gpx s) (time_shift s) = Ok (current_gpx s) ->
     _apply_shift (original_gpx s) (time_shift s') = Ok (current_gpx s')) /\
    if (shift_calls cs =? 0)%nat
    then current_gpx s' = current_gpx s /\ time_shift s' = time_shift s
    else _apply_shift (original_gpx s) (time_shift s') = Ok (current_gpx s')).
  { clear. induction cs as [|c cs IH]; intros s s' H; cbn [do_calls] in H.
    - inversion H; subst. cbn. auto.
    - destruct (do_call c s) as [[[]|e] s1] eqn:Hc; [|discriminate].
      apply IH in H as (Hg & Hkeep & Hcs).
      destruct c as [hours|]; cbn [do_call shift_calls] in *.
      + apply shift_time_ok in Hc as (_ & _ & _ & Hcur & _ & _ & _ & Hg1 & _).
        rewrite Hg1 in *. specialize (Hkeep Hcur).
        split; [exact Hg|]. split; [intros _; exact Hkeep|].
        change (S (shift_calls cs) =? 0)%nat with false. exact Hkeep.
      + inversion Hc; subst s1.
        change (original_gpx (toggle_display_mode s)) with (original_gpx s) in *.
        change (time_shift (toggle_display_mode s)) with (time_shift s) in *.
        change (current_gpx (toggle_display_mode s)) with (current_gpx s) in *.
        auto. }
  intros H. apply Hgen in H as (_ & _ & H). exact H.
Qed.

Lemma do_calls_current_gpx_witness :
  let cs := [CallShift 1; CallToggle; CallShift 1; CallShift (-1); CallToggle] in
  if (shift_calls cs =? 0)%nat
  then current_gpx (snd (do_calls cs sample_app)) = current_gpx sample_app /\
       time_shift (snd (do_calls cs sample_app)) = time_shift sample_app
  else _apply_shift (original_gpx sample_app)
         (time_shift (snd (do_calls cs sample_app))) =
       Ok (current_gpx (snd (do_calls cs sample_app))).
Proof.
  apply (do_calls_current_gpx
           [CallShift 1; CallToggle; CallShift 1; CallShift (-1); CallToggle]
           sample_app).
  vm_compute. reflexivity.
Defined.

(** ** Saving under the name of the source *)

Lemma parse_keeps s : Forall (fun x => keep_part x = true) (tail (parse s)).
Proof.
  unfold parse. destruct (splitroot s) as [r rel]. cbn [tail].
  apply List.Forall_forall. intros x Hx. apply List.filter_In in Hx as [_ Hx].
  exact Hx.
Qed.

(** X17.  An override that is the name of the source file itself, when
    that name does not start with a tilde, resolves to the source path: a
    save that returns has then replaced the source file by the shifted
    text. *)
Theorem save_gpx_source_name_replaces_source (self : GPXShiftApp) (w : World) :
  original_gpx_path self = parse (gpx_file_path self) ->
  name (original_gpx_path self) <> EmptyString ->
  String.prefix "~" (name (original_gpx_path self)) = false ->
  save_gpx_output_path self (Some (name (original_gpx_path self))) w =
    Ok (original_gpx_path self) /\
  (forall p self' w',
     save_gpx self (Some (name (original_gpx_path self))) w = (Ok p, self', w') ->
     p = original_gpx_path self /\
     read_text (original_gpx_path self) w' =
       shift_gpx_times (original_gpx_text self) (time_shift self)).
Proof.
  intros Hparse Hname Htilde.
  set (source := original_gpx_path self) in *.
  assert (Htail : tail source <> []).
  { intros E. apply Hname. unfold name. rewrite E. reflexivity. }
  remember (name source) as n eqn:Hn.
  assert (Hin : In n (tail source)).
  { rewrite Hn. unfold name.
    rewrite (app_removelast_last EmptyString Htail) at 2.
    apply in_or_app. right. left. reflexivity. }
  assert (Hslash : has_slash n = false).
  { pose proof (parse_parts (gpx_file_path self)) as Hp.
    rewrite <- Hparse in Hp. rewrite List.Forall_forall in Hp. apply Hp, Hin. }
  assert (Hkeep : keep_part n = true).
  { pose proof (parse_keeps (gpx_file_path self)) as Hp.
    rewrite <- Hparse in Hp. rewrite List.Forall_forall in Hp. apply Hp, Hin. }
  assert (Hdot : n <> ".").
  { unfold keep_part in Hkeep. apply andb_true_iff in Hkeep as [_ Hk].
    apply negb_true_iff, String.eqb_neq in Hk. exact Hk. }
  assert (Hexp : expanduser w n = n).
  { destruct n as [|c rest] eqn:E; [reflexivity|].
    apply expanduser_no_tilde. intros ->.
    rewrite prefix_tilde_cons in Htilde. discriminate Htilde. }
  assert (Hpath : save_gpx_output_path self (Some n) w = Ok source).
  { assert (Hparent : parent source =
                      mk_Path (root source) (removelast (tail source))).
    { unfold parent. destruct (tail source); [contradiction|reflexivity]. }
    unfold save_gpx_output_path. fold source.
    destruct (String.eqb n EmptyString) eqn:E.
    { apply String.eqb_eq in E. contradiction. }
    cbn [negb]. rewrite Hexp, (parse_name n Hslash Hname Hdot).
    cbn [is_absolute root String.eqb negb parent tail name List.last].
    rewrite bool_decide_eq_true_2 by reflexivity.
    unfold joinstr. rewrite (parse_name n Hslash Hname Hdot), Hparent.
    unfold joinpath, is_absolute. cbn [root tail String.eqb negb].
    rewrite Hn. unfold name.
    rewrite <- (app_removelast_last EmptyString Htail).
    destruct source; reflexivity. }
  split; [exact Hpath|].
  intros p self' w'. unfold save_gpx. rewrite Hpath.
  destruct (shift_gpx_times (original_gpx_text self) (time_shift self))
    as [text|e]; [|discriminate].
  unfold write_text.
  destruct (writable w (file_key w source)); [|discriminate].
  intros H; inversion H; subst. split; [reflexivity|].
  unfold read_text. cbn [files].
  change (file_key (mk_World _ _ _ _ _ _) source) with (file_key w source).
  rewrite lookup_insert_eq. reflexivity.
Qed.

Lemma save_gpx_source_name_replaces_source_witness :
  save_gpx_output_path (snd (shift_time 3 sample_app))
    (Some (name (original_gpx_path (snd (shift_time 3 sample_app))))) sample_world =
    Ok (original_gpx_path (snd (shift_time 3 sample_app))) /\
  (forall p self' w',
     save_gpx (snd (shift_time 3 sample_app))
       (Some (name (original_gpx_path (snd (shift_time 3 sample_app)))))
       sample_world = (Ok p, self', w') ->
     p = original_gpx_path (snd (shift_time 3 sample_app)) /\
     read_text (original_gpx_path (snd (shift_time 3 sample_app))) w' =
       shift_gpx_times (original_gpx_text (snd (shift_time 3 sample_app)))
         (time_shift (snd (shift_time 3 sample_app)))).
Proof.
  apply (save_gpx_source_name_replaces_source (snd (shift_time 3 sample_app))
           sample_world).
  - vm_compute. reflexivity.
  - vm_compute. discriminate.
  - vm_compute. reflexivity.
Defined.
